(** * Capture, playback and submission surfaces of the interview frontend

    A shallow embedding of the React components
    [AudioInputComponent.tsx], [InterviewMode.tsx],
    [ConversationalFeedbackViewer.tsx] and [RubricScorecard.tsx].

    Conventions of the embedding.
    - A component instance is a record holding its props, its [useState]
      cells, its [useRef] cells and the browser objects it created (media
      recorders with their streams, interval timers, audio elements,
      object URLs, pending network calls).
    - An event handler is a function on that record.  A handler reads
      state through the closure it was created in: a handler that React
      re-creates whenever the values it reads change reads the current
      record; a handler that outlives its render (the interval callback)
      carries the captured values with it.
    - Browser objects are kept in lists indexed by creation order; a ref
      holds an index.  [Some _] is a truthy ref, [None] is [null].
    - Numbers that only ever hold whole seconds are [Z]; scores and media
      positions are [Q]. *)

From Stdlib Require Import ZArith QArith String Ascii Bool Lia.
From stdpp Require Import base option list strings pretty.
Local Close Scope Q_scope.

(** ** Blobs *)

(** A [Blob]: its bytes and its MIME type.  A [File] picked in a file
    input is a [Blob] too (its name is never read by the code). *)
Record Blob := mkBlob { blob_bytes : list Byte.byte; blob_type : string }.

Definition blob_size (b : Blob) : nat := length (blob_bytes b).

(** [new Blob(parts, { type })]: the parts in order. *)
Definition new_Blob (parts : list Blob) (type : string) : Blob :=
  mkBlob (mjoin (blob_bytes <$> parts)) type.

(** ** Browser objects shared by the two recording surfaces *)

(** [MediaRecorder.state]; the code never pauses a recorder. *)
Inductive RecorderState := inactive | recording.

(** [HTMLAudioElement]: playing, paused, or run to its end. *)
Inductive AudioStatus := au_playing | au_paused | au_ended.

(** [audio.pause()] *)
Definition pause_status (st : AudioStatus) : AudioStatus :=
  match st with au_playing => au_paused | _ => st end.

(** Outcome of [navigator.mediaDevices.getUserMedia]. *)
Inductive UserMedia := granted | denied.

Definition is_playing (st : AudioStatus) : bool :=
  match st with au_playing => true | _ => false end.

(** One [getUserMedia] stream with the [MediaRecorder] built on it. *)
Record Capture := mkCapture {
  rec_state : RecorderState;
  stop_pending : bool;      (* stop() ran, the 'stop' event is still queued *)
  track_stops : nat         (* how often track.stop() ran on the stream *)
}.

(** [mediaRecorder.stop()]: a recording recorder becomes inactive and
    queues its 'stop' event; on an inactive recorder nothing happens. *)
Definition recorder_stop (c : Capture) : Capture :=
  match rec_state c with
  | recording => mkCapture inactive true (track_stops c)
  | inactive => c
  end.

(** The queued 'stop' event leaves the queue. *)
Definition stop_delivered (c : Capture) : Capture :=
  mkCapture (rec_state c) false (track_stops c).

(** [stream.getTracks().forEach(track => track.stop())] *)
Definition stop_tracks (c : Capture) : Capture :=
  mkCapture (rec_state c) (stop_pending c) (S (track_stops c)).

(** The microphone is held while no [track.stop()] has run. *)
Definition track_live (c : Capture) : bool := Nat.eqb (track_stops c) 0.

(** An audio element over a source of type [Src]. *)
Record Audio (Src : Type) := mkAudio { au_src : Src; au_status : AudioStatus }.
Arguments mkAudio {Src} _ _.
Arguments au_src {Src} _.
Arguments au_status {Src} _.

Definition pause_audio {Src} (au : Audio Src) : Audio Src :=
  mkAudio (au_src au) (pause_status (au_status au)).

Definition end_audio {Src} (au : Audio Src) : Audio Src :=
  mkAudio (au_src au) au_ended.

(** Is the element with index [a] playing. *)
Definition audio_is_playing {Src} (l : list (Audio Src)) (a : nat) : bool :=
  match l !! a with
  | Some au => is_playing (au_status au)
  | None => false
  end.

(** ** AudioInputComponent.tsx *)

Module AudioInputComponent.

(** What the interval callback closes over: [maxDuration] of the render
    that built [startRecording], and [isRecording] as seen by the
    [stopRecording] of that same render. *)
Record Closure := mkClosure { c_maxDuration : Z; c_isRecording : bool }.

Record Interval := mkInterval { iv_active : bool; iv_closure : Closure }.

(** [src] of an element: the object URL of a blob, or [''] after
    [confirmDelete]. *)
Definition Src := option Blob.

Record Hooks := mkHooks {
  isRecording : bool;
  audioBlob : option Blob;
  recordingTime : Z;
  isPlaying : bool;
  currentTime : Q;
  duration : Q;
  showDeleteConfirmation : bool
}.

Record Refs := mkRefs {
  mediaRecorderRef : option nat;
  audioChunksRef : list Blob;
  recordingIntervalRef : option nat;
  audioElementRef : option nat
}.

Record Env := mkEnv {
  captures : list Capture;
  intervals : list Interval;
  audios : list (Audio Src)
}.

Record State := mkState {
  maxDuration : Z;                 (* prop, default 60 *)
  isSubmitting : bool;             (* prop, default false *)
  hooks : Hooks;
  refs : Refs;
  startRecording_memo : Closure;   (* useCallback(..., [maxDuration]) *)
  env : Env
}.

(** *** Field updates *)

Definition with_hooks (f : Hooks → Hooks) (s : State) : State :=
  mkState (maxDuration s) (isSubmitting s) (f (hooks s)) (refs s)
          (startRecording_memo s) (env s).
Definition with_refs (f : Refs → Refs) (s : State) : State :=
  mkState (maxDuration s) (isSubmitting s) (hooks s) (f (refs s))
          (startRecording_memo s) (env s).
Definition with_env (f : Env → Env) (s : State) : State :=
  mkState (maxDuration s) (isSubmitting s) (hooks s) (refs s)
          (startRecording_memo s) (f (env s)).

Definition setIsRecording (v : bool) : State → State :=
  with_hooks (λ h, mkHooks v (audioBlob h) (recordingTime h) (isPlaying h)
                           (currentTime h) (duration h) (showDeleteConfirmation h)).
Definition setAudioBlob (v : option Blob) : State → State :=
  with_hooks (λ h, mkHooks (isRecording h) v (recordingTime h) (isPlaying h)
                           (currentTime h) (duration h) (showDeleteConfirmation h)).
Definition setRecordingTime (v : Z) : State → State :=
  with_hooks (λ h, mkHooks (isRecording h) (audioBlob h) v (isPlaying h)
                           (currentTime h) (duration h) (showDeleteConfirmation h)).
Definition setIsPlaying (v : bool) : State → State :=
  with_hooks (λ h, mkHooks (isRecording h) (audioBlob h) (recordingTime h) v
                           (currentTime h) (duration h) (showDeleteConfirmation h)).
Definition setCurrentTime (v : Q) : State → State :=
  with_hooks (λ h, mkHooks (isRecording h) (audioBlob h) (recordingTime h) (isPlaying h)
                           v (duration h) (showDeleteConfirmation h)).
Definition setDuration (v : Q) : State → State :=
  with_hooks (λ h, mkHooks (isRecording h) (audioBlob h) (recordingTime h) (isPlaying h)
                           (currentTime h) v (showDeleteConfirmation h)).
Definition setShowDeleteConfirmation (v : bool) : State → State :=
  with_hooks (λ h, mkHooks (isRecording h) (audioBlob h) (recordingTime h) (isPlaying h)
                           (currentTime h) (duration h) v).

Definition set_mediaRecorderRef (v : option nat) : State → State :=
  with_refs (λ r, mkRefs v (audioChunksRef r) (recordingIntervalRef r) (audioElementRef r)).
Definition set_audioChunksRef (v : list Blob) : State → State :=
  with_refs (λ r, mkRefs (mediaRecorderRef r) v (recordingIntervalRef r) (audioElementRef r)).
Definition set_recordingIntervalRef (v : option nat) : State → State :=
  with_refs (λ r, mkRefs (mediaRecorderRef r) (audioChunksRef r) v (audioElementRef r)).
Definition set_audioElementRef (v : option nat) : State → State :=
  with_refs (λ r, mkRefs (mediaRecorderRef r) (audioChunksRef r) (recordingIntervalRef r) v).

Definition with_captures (f : list Capture → list Capture) : State → State :=
  with_env (λ e, mkEnv (f (captures e)) (intervals e) (audios e)).
Definition with_intervals (f : list Interval → list Interval) : State → State :=
  with_env (λ e, mkEnv (captures e) (f (intervals e)) (audios e)).
Definition with_audios (f : list (Audio Src) → list (Audio Src)) : State → State :=
  with_env (λ e, mkEnv (captures e) (intervals e) (f (audios e))).

(** *** Browser operations *)

Definition clearInterval (j : nat) : State → State :=
  with_intervals (alter (λ iv, mkInterval false (iv_closure iv)) j).

Definition audio_pause (a : nat) : State → State :=
  with_audios (alter pause_audio a).

(** *** Mounting and re-rendering *)

(** First render: every [useState] at its initial value, every ref at
    its initial value, and [startRecording] memoised over the first
    render's [stopRecording], which sees [isRecording = false]. *)
Definition mount (maxDuration0 : Z) (isSubmitting0 : bool) : State :=
  mkState maxDuration0 isSubmitting0
          (mkHooks false None 0%Z false 0%Q 0%Q false)
          (mkRefs None [] None None)
          (mkClosure maxDuration0 false)
          (mkEnv [] [] []).

(** The parent renders the component with new props.  [startRecording]
    is rebuilt only when [maxDuration] changed, and then closes over the
    [stopRecording] of this render ([useCallback(..., [isRecording])]). *)
Definition render_props (maxDuration' : Z) (isSubmitting' : bool) (s : State) : State :=
  mkState maxDuration' isSubmitting' (hooks s) (refs s)
          (if decide (maxDuration' = maxDuration s) then startRecording_memo s
           else mkClosure maxDuration' (isRecording (hooks s)))
          (env s).

(** *** Handlers *)

(** [stopRecording] as seen through a closure whose [isRecording] is
    [seen]. *)
Definition stopRecording_closure (seen : bool) (s : State) : State :=
  match mediaRecorderRef (refs s) with
  | Some r =>
      if seen then
        let s1 := with_captures (alter recorder_stop r) s in
        let s2 := setIsRecording false s1 in
        match recordingIntervalRef (refs s2) with
        | Some j => set_recordingIntervalRef None (clearInterval j s2)
        | None => s2
        end
      else s
  | None => s
  end.

(** The [stopRecording] of the current render (the Stop button). *)
Definition stopRecording (s : State) : State :=
  stopRecording_closure (isRecording (hooks s)) s.

(** The callback given to [setInterval]. *)
Definition interval_callback (c : Closure) (s : State) : State :=
  let newTime := (recordingTime (hooks s) + 1)%Z in
  if (c_maxDuration c <=? newTime)%Z then
    setRecordingTime (c_maxDuration c) (stopRecording_closure (c_isRecording c) s)
  else setRecordingTime newTime s.

(** [startRecording], with the outcome of [getUserMedia]; the part after
    the [await] runs in the closure the call started in. *)
Definition startRecording (um : UserMedia) (s : State) : State :=
  match um with
  | denied => s                                   (* console.error; alert *)
  | granted =>
      let r := length (captures (env s)) in
      let j := length (intervals (env s)) in
      let s1 := with_captures (λ l, l ++ [mkCapture recording false 0]) s in
      let s2 := set_audioChunksRef [] (set_mediaRecorderRef (Some r) s1) in
      let s3 := setRecordingTime 0 (setIsRecording true s2) in
      set_recordingIntervalRef (Some j)
        (with_intervals (λ l, l ++ [mkInterval true (startRecording_memo s)]) s3)
  end.

(** [mediaRecorder.ondataavailable] *)
Definition ondataavailable (data : Blob) (s : State) : State :=
  if decide (0 < blob_size data) then
    set_audioChunksRef (audioChunksRef (refs s) ++ [data]) s
  else s.

(** [mediaRecorder.onstop] of the recorder on stream [r]. *)
Definition onstop (r : nat) (s : State) : State :=
  with_captures (alter stop_tracks r)
    (setAudioBlob (Some (new_Blob (audioChunksRef (refs s)) "audio/webm")) s).

Definition playAudio (s : State) : State :=
  match audioBlob (hooks s) with
  | Some b =>
      if isPlaying (hooks s) then s
      else
        let a := length (audios (env s)) in
        setIsPlaying true
          (set_audioElementRef (Some a)
             (with_audios (λ l, l ++ [mkAudio (Some b) au_playing]) s))
  | None => s
  end.

Definition pauseAudio (s : State) : State :=
  match audioElementRef (refs s) with
  | Some a => if isPlaying (hooks s) then setIsPlaying false (audio_pause a s) else s
  | None => s
  end.

(** Listeners installed by [playAudio]. *)
Definition on_loadedmetadata (d : Q) : State → State := setDuration d.
Definition on_timeupdate (t : Q) : State → State := setCurrentTime t.
Definition on_ended (s : State) : State :=
  set_audioElementRef None (setCurrentTime 0%Q (setIsPlaying false s)).

(** [event.target.files?.[0]] is [None] when no file was chosen. *)
Definition handleFileUpload (file : option Blob) (s : State) : State :=
  match file with
  | Some f =>
      if String.prefix "audio/" (blob_type f)
      then setRecordingTime 0 (setAudioBlob (Some f) s)
      else s
  | None => s
  end.

(** [handleSubmit]: the blob handed to [onAudioSubmit], if any. *)
Definition handleSubmit (s : State) : option Blob := audioBlob (hooks s).

Definition handleReset (s : State) : State :=
  let s1 := setDuration 0%Q (setCurrentTime 0%Q (setIsPlaying false
              (setRecordingTime 0 (setAudioBlob None s)))) in
  match audioElementRef (refs s1) with
  | Some a => set_audioElementRef None (audio_pause a s1)
  | None => s1
  end.

Definition handleDeleteClick : State → State := setShowDeleteConfirmation true.
Definition cancelDelete : State → State := setShowDeleteConfirmation false.

Definition confirmDelete (s : State) : State :=
  let s1 :=
    match audioElementRef (refs s) with
    | Some a => if isPlaying (hooks s) then setIsPlaying false (audio_pause a s) else s
    | None => s
    end in
  let s2 := setShowDeleteConfirmation false (setDuration 0%Q (setCurrentTime 0%Q
              (setRecordingTime 0 (setAudioBlob None s1)))) in
  match audioElementRef (refs s2) with
  | Some a => with_audios (alter (λ au, mkAudio None (au_status au)) a) s2
  | None => s2
  end.

(** The cleanup returned by the mount effect. *)
Definition unmount (s : State) : State :=
  let s1 :=
    match recordingIntervalRef (refs s) with
    | Some j => clearInterval j s
    | None => s
    end in
  match audioElementRef (refs s1) with
  | Some a => set_audioElementRef None (audio_pause a s1)
  | None => s1
  end.

(** *** Events *)

Inductive Event :=
| ClickStart (um : UserMedia)
| ClickStop
| Tick (j : nat)
| DataAvailable (r : nat) (data : Blob)
| StopEvent (r : nat)
| ClickPlay
| ClickPause
| LoadedMetadata (a : nat) (d : Q)
| TimeUpdate (a : nat) (t : Q)
| Ended (a : nat)
| ChooseFile (file : option Blob)
| ClickRecordAgain
| ClickDelete
| ClickCancelDelete
| ClickConfirmDelete
| Render (maxDuration' : Z) (isSubmitting' : bool)
| Unmount.

(** Handlers are not filtered by what is on screen: a click event runs
    its handler in every state.  The browser side: a timer fires only
    while it is active, a recorder delivers data while it records or
    still has its 'stop' queued, delivers 'stop' once per [stop()], and
    an element ends only while it plays. *)
Definition step (ev : Event) (s : State) : State :=
  match ev with
  | ClickStart um => startRecording um s
  | ClickStop => stopRecording s
  | Tick j =>
      match intervals (env s) !! j with
      | Some iv => if iv_active iv then interval_callback (iv_closure iv) s else s
      | None => s
      end
  | DataAvailable r data =>
      match captures (env s) !! r with
      | Some c =>
          match rec_state c with
          | recording => ondataavailable data s
          | inactive => if stop_pending c then ondataavailable data s else s
          end
      | None => s
      end
  | StopEvent r =>
      match captures (env s) !! r with
      | Some c =>
          if stop_pending c then
            onstop r (with_captures (alter stop_delivered r) s)
          else s
      | None => s
      end
  | ClickPlay => playAudio s
  | ClickPause => pauseAudio s
  | LoadedMetadata a d =>
      match audios (env s) !! a with Some _ => on_loadedmetadata d s | None => s end
  | TimeUpdate a t =>
      match audios (env s) !! a with Some _ => on_timeupdate t s | None => s end
  | Ended a =>
      match audios (env s) !! a with
      | Some au =>
          if is_playing (au_status au) then
            on_ended (with_audios (alter end_audio a) s)
          else s
      | None => s
      end
  | ChooseFile file => handleFileUpload file s
  | ClickRecordAgain => handleReset s
  | ClickDelete => handleDeleteClick s
  | ClickCancelDelete => cancelDelete s
  | ClickConfirmDelete => confirmDelete s
  | Render m i => render_props m i s
  | Unmount => unmount s
  end.

Definition run (evs : list Event) (s : State) : State :=
  foldl (λ s ev, step ev s) s evs.

(** A click on the play button as the page has it: on screen while
    there is a blob, [disabled={isSubmitting}], and
    [onClick={isPlaying ? pauseAudio : playAudio}]. *)
Definition click_playback (s : State) : State :=
  match audioBlob (hooks s) with
  | Some _ =>
      if isSubmitting s then s
      else if isPlaying (hooks s) then pauseAudio s else playAudio s
  | None => s
  end.

End AudioInputComponent.

(** ** RubricScorecard.tsx *)

Module RubricScorecard.

Record CriterionScore := mkCriterionScore {
  criterion : string;
  score : Q;
  feedback : string;
  transcript_references : list string
}.

Inductive Icon := CheckCircle | AlertCircle | XCircle.

Definition getScoreColor (score : Q) : string :=
  if Qle_bool 4 score then "text-green-600 bg-green-50 border-green-200"
  else if Qle_bool 3 score then "text-yellow-600 bg-yellow-50 border-yellow-200"
  else "text-red-600 bg-red-50 border-red-200".

Definition getScoreIcon (score : Q) : Icon :=
  if Qle_bool 4 score then CheckCircle
  else if Qle_bool 3 score then AlertCircle
  else XCircle.

(** [toLowerCase] / [toUpperCase] on ASCII text (every character below
    128): there the engine's mappings change the letters A-Z, resp. a-z,
    and nothing else, and a character is one code unit.  On other text
    they are Unicode-aware and can change the length; a criterion outside
    ASCII is outside this model, and what is stated about labels is
    stated for ASCII criteria. *)
Definition lower_ascii (c : ascii) : ascii :=
  let n := nat_of_ascii c in
  if (65 <=? n)%nat && (n <=? 90)%nat then ascii_of_nat (n + 32) else c.
Definition upper_ascii (c : ascii) : ascii :=
  let n := nat_of_ascii c in
  if (97 <=? n)%nat && (n <=? 122)%nat then ascii_of_nat (n - 32) else c.

Fixpoint toLowerCase (s : string) : string :=
  match s with
  | EmptyString => EmptyString
  | String c s' => String (lower_ascii c) (toLowerCase s')
  end.

Definition getCriterionLabel (criterion : string) : string :=
  let l := toLowerCase criterion in
  if String.eqb l "content" then "Content Quality"
  else if String.eqb l "structure" then "Organization & Structure"
  else if String.eqb l "clarity" then "Clarity & Communication"
  else if String.eqb l "delivery" then "Delivery & Confidence"
  else match criterion with
       | EmptyString => EmptyString
       | String c rest => String (upper_ascii c) rest
       end.

(** What one card of the scorecard shows: its colour classes, icon and
    heading, the score over the literal scale printed after the slash,
    the feedback paragraph, and the quoted transcript references (the
    block is left out when there are none). *)
Record Row := mkRow {
  row_class : string;
  row_icon : Icon;
  row_label : string;
  row_score : Q;
  row_scale : Q;
  row_feedback : string;
  row_references : list string
}.

Definition render_score (s : CriterionScore) : Row :=
  mkRow (getScoreColor (score s)) (getScoreIcon (score s))
        (getCriterionLabel (criterion s))
        (score s) 5%Q (feedback s) (transcript_references s).

Inductive View :=
| NoScores                    (* "No evaluation scores available." *)
| Scorecard (rows : list Row).

(** The component; [scores] may be missing from the payload. *)
Definition render (scores : option (list CriterionScore)) : View :=
  match scores with
  | None | Some [] => NoScores
  | Some l => Scorecard (render_score <$> l)
  end.

End RubricScorecard.

(** ** Network *)

(** How an awaited [fetch] followed by [response.json()] can turn out:
    the promise rejects, the status is not ok, or a body arrives. *)
Inductive Response (A : Type) :=
| NetworkError
| HttpError
| HttpOk (body : A).
Arguments NetworkError {A}.
Arguments HttpError {A}.
Arguments HttpOk {A} _.

(** ** InterviewMode.tsx *)

Module InterviewMode.

Module AIC := AudioInputComponent.

Record TimestampRange := mkTimestampRange { ts_start : Q; ts_end : Q; ts_word : string }.

Record ActionableTip := mkActionableTip {
  tip_title : string;
  tip_description : string;
  tip_transcript_lines : list string;
  tip_timestamp_ranges : list TimestampRange;
  tip_priority : Z
}.

(** [long_pauses] is an untyped array the code never reads. *)
Record SpeechAnalysis := mkSpeechAnalysis {
  word_count : Z;
  filler_count : Z;
  speaking_rate_wpm : Q;
  total_duration : Q
}.

Record InterviewEvaluation := mkInterviewEvaluation {
  scores : list RubricScorecard.CriterionScore;
  overall_score : Q;
  actionable_tips : list ActionableTip;
  transcript : string;
  speech_analysis : SpeechAnalysis;
  duration_seconds : Q
}.

Inductive Request :=
| UploadLocal (file : Blob) (filename content_type : string)
    (* POST /file/upload-local *)
| InterviewEvaluate (audio_uuid question : string) (max_duration : Z).
    (* POST /ai/interview/evaluate *)

(** Where one call of [handleAudioSubmit] stands. *)
Inductive Call := AwaitUpload | AwaitEvaluate | Settled.

Record State := mkState {
  question : string;                          (* prop *)
  maxDuration : Z;                            (* prop, default 60 *)
  onComplete : bool;                          (* prop: was a callback given *)
  isSubmitting : bool;
  evaluation : option InterviewEvaluation;
  audioBlob : option Blob;
  requests : list Request;                    (* fetch calls, oldest first *)
  calls : list Call;
  completed : list InterviewEvaluation;       (* arguments of onComplete *)
  input : AIC.State                           (* the AudioInputComponent child *)
}.

Definition mount (question0 : string) (maxDuration0 : Z) (onComplete0 : bool) : State :=
  mkState question0 maxDuration0 onComplete0 false None None [] [] []
          (AIC.mount maxDuration0 false).

(** The child is rendered while there is no evaluation. *)
Definition input_rendered (s : State) : bool :=
  match evaluation s with None => true | Some _ => false end.

(** After the parent's state changed the child is rendered again with
    the parent's [isSubmitting] and [maxDuration], or torn down when the
    results replace it. *)
Definition rerender (was_rendered : bool) (s : State) : State :=
  mkState (question s) (maxDuration s) (onComplete s) (isSubmitting s)
          (evaluation s) (audioBlob s) (requests s) (calls s) (completed s)
          (if input_rendered s
           then AIC.render_props (maxDuration s) (isSubmitting s) (input s)
           else if was_rendered then AIC.unmount (input s) else input s).

(** [handleAudioSubmit], up to its first [await]. *)
Definition handleAudioSubmit (blob : Blob) (s : State) : State :=
  rerender (input_rendered s)
    (mkState (question s) (maxDuration s) (onComplete s) true
             (evaluation s) (Some blob)
             (requests s ++ [UploadLocal blob "interview_response.wav" "audio/wav"])
             (calls s ++ [AwaitUpload]) (completed s) (input s)).

(** [catch] and [finally] of call [i]. *)
Definition call_failed (i : nat) (s : State) : State :=
  rerender (input_rendered s)
    (mkState (question s) (maxDuration s) (onComplete s) false
             (evaluation s) (audioBlob s) (requests s)
             (<[i:=Settled]> (calls s)) (completed s) (input s)).

(** Call [i] resumes after the upload; the body is [file_uuid]. *)
Definition upload_response (i : nat) (resp : Response string) (s : State) : State :=
  match calls s !! i with
  | Some AwaitUpload =>
      match resp with
      | HttpOk file_uuid =>
          mkState (question s) (maxDuration s) (onComplete s) (isSubmitting s)
                  (evaluation s) (audioBlob s)
                  (requests s ++ [InterviewEvaluate file_uuid (question s) (maxDuration s)])
                  (<[i:=AwaitEvaluate]> (calls s)) (completed s) (input s)
      | _ => call_failed i s
      end
  | _ => s
  end.

(** Call [i] resumes after the evaluation request. *)
Definition evaluate_response (i : nat) (resp : Response InterviewEvaluation)
    (s : State) : State :=
  match calls s !! i with
  | Some AwaitEvaluate =>
      match resp with
      | HttpOk result =>
          rerender (input_rendered s)
            (mkState (question s) (maxDuration s) (onComplete s) false
                     (Some result) (audioBlob s) (requests s)
                     (<[i:=Settled]> (calls s))
                     (if onComplete s then completed s ++ [result] else completed s)
                     (input s))
      | _ => call_failed i s
      end
  | _ => s
  end.

(** The Submit button of the child: shown once the child holds a blob,
    disabled while [isSubmitting]. *)
Definition submit_enabled (s : State) : bool :=
  input_rendered s
  && bool_decide (is_Some (AIC.audioBlob (AIC.hooks (input s))))
  && negb (AIC.isSubmitting (input s)).

(** The child's [handleSubmit] calling the [onAudioSubmit] prop. *)
Definition submit (s : State) : State :=
  match AIC.handleSubmit (input s) with
  | Some blob => handleAudioSubmit blob s
  | None => s
  end.

(** A click on the Submit button. *)
Definition click_submit (s : State) : State :=
  if submit_enabled s then submit s else s.

Definition with_input (f : AIC.State → AIC.State) (s : State) : State :=
  mkState (question s) (maxDuration s) (onComplete s) (isSubmitting s)
          (evaluation s) (audioBlob s) (requests s) (calls s) (completed s)
          (f (input s)).

(** Events.  Handlers are not filtered by what is on screen: [Submit]
    runs the handler whether or not the button is enabled. *)
Inductive Event :=
| Input (ev : AIC.Event)
| Submit
| UploadResponse (i : nat) (resp : Response string)
| EvaluateResponse (i : nat) (resp : Response InterviewEvaluation).

Definition step (ev : Event) (s : State) : State :=
  match ev with
  | Input (AIC.Render _ _) | Input AIC.Unmount => s    (* driven by [rerender] only *)
  | Input ev => if input_rendered s then with_input (AIC.step ev) s else s
  | Submit => if input_rendered s then submit s else s
  | UploadResponse i resp => upload_response i resp s
  | EvaluateResponse i resp => evaluate_response i resp s
  end.

Definition run (evs : list Event) (s : State) : State :=
  foldl (λ s ev, step ev s) s evs.

(** The same events as the page lets them through to [handleAudioSubmit]:
    a click on Submit reaches the handler only through the button
    ([click_submit]).  The other handlers still run unfiltered, which
    allows more than the page does: what holds after every such run
    holds on the page. *)
Definition page_step (ev : Event) (s : State) : State :=
  match ev with
  | Submit => click_submit s
  | _ => step ev s
  end.

Definition page_run (evs : list Event) (s : State) : State :=
  foldl (λ s ev, page_step ev s) s evs.

End InterviewMode.

(** ** ConversationalFeedbackViewer.tsx *)

Module ConversationalFeedbackViewer.

(** Modelled from the spec: the declarations of [FeedbackCriterion] and
    [FeedbackRubric] ([@/types/course]) are not among the sources.  A
    rubric is a set of scoring criteria, each with a name, a description
    and a maximum score; these are also the fields this file reads. *)
Record FeedbackCriterion := mkFeedbackCriterion {
  fc_name : string;
  fc_description : string;
  fc_maxScore : Q
}.
Record FeedbackRubric := mkFeedbackRubric { criteria : list FeedbackCriterion }.

(** [ConversationalFeedbackConfig], without the rich-text [prompt]. *)
Record Config := mkConfig { cfg_maxDuration : Z; rubric : FeedbackRubric }.

Record CriteriaScore := mkCriteriaScore {
  name : string;
  score : Q;
  maxScore : Q;
  cs_feedback : string
}.

Record Feedback := mkFeedback {
  strengths : list string;
  improvements : list string;
  deliverySuggestions : list string;
  overallScore : Q;
  criteriaScores : list CriteriaScore
}.

Record FeedbackResult := mkFeedbackResult {
  transcription : string;
  fr_feedback : Feedback
}.

(** What the interval callback closes over: [config] of the render in
    which Start was clicked, and [isRecording] as seen by the
    [stopRecording] of that render. *)
Record Closure := mkClosure { c_config : option Config; c_isRecording : bool }.

Record Interval := mkInterval { iv_active : bool; iv_closure : Closure }.

(** A recorder with the [audioChunks] array local to its
    [startRecording] call. *)
Record Session := mkSession { capture : Capture; audioChunks : list Blob }.

(** An object URL made by [URL.createObjectURL]. *)
Record ObjectUrl := mkObjectUrl { url_blob : Blob; url_revoked : bool }.

Inductive Request :=
| Analyze (audio : Blob) (filename taskId userId : string) (rubric : FeedbackRubric).
    (* POST /conversational-feedback/analyze *)

(** Where an awaiting call stands: [submitRecording] awaits the
    analyzer, and in the admin view [loadTaskConfig] awaits
    [loadLearnerSubmissions]. *)
Inductive Call := AwaitAnalyze | Settled | AwaitSubmissions.

Record Props := mkProps {
  taskId : string;
  userId : string;
  viewOnly : bool;
  isAdminView : bool;
  onMarkComplete : bool           (* was a callback given *)
}.

Record Hooks := mkHooks {
  config : option Config;
  isLoading : bool;
  error : option string;
  isRecording : bool;
  audioBlob : option Blob;
  recordingDuration : Z;
  isPlaying : bool;
  isProcessing : bool;
  feedback : option FeedbackResult;
  isSubmitted : bool
}.

Record Refs := mkRefs {
  mediaRecorderRef : option nat;
  audioRef : option nat;
  recordingIntervalRef : option nat;
  audioUrlRef : option nat
}.

Record Env := mkEnv {
  sessions : list Session;
  intervals : list Interval;
  audios : list (Audio nat);      (* [src] is an index into [urls] *)
  urls : list ObjectUrl;
  requests : list Request;        (* fetch calls to the analyzer, oldest first *)
  calls : list Call;
  marked_complete : nat           (* calls of onMarkComplete *)
}.

Record State := mkState { props : Props; hooks : Hooks; refs : Refs; env : Env }.

(** *** Field updates *)

Definition with_hooks (f : Hooks → Hooks) (s : State) : State :=
  mkState (props s) (f (hooks s)) (refs s) (env s).
Definition with_refs (f : Refs → Refs) (s : State) : State :=
  mkState (props s) (hooks s) (f (refs s)) (env s).
Definition with_env (f : Env → Env) (s : State) : State :=
  mkState (props s) (hooks s) (refs s) (f (env s)).

Definition setConfig (v : option Config) : State → State :=
  with_hooks (λ h, mkHooks v (isLoading h) (error h) (isRecording h) (audioBlob h)
    (recordingDuration h) (isPlaying h) (isProcessing h) (feedback h) (isSubmitted h)).
Definition setIsLoading (v : bool) : State → State :=
  with_hooks (λ h, mkHooks (config h) v (error h) (isRecording h) (audioBlob h)
    (recordingDuration h) (isPlaying h) (isProcessing h) (feedback h) (isSubmitted h)).
Definition setError (v : option string) : State → State :=
  with_hooks (λ h, mkHooks (config h) (isLoading h) v (isRecording h) (audioBlob h)
    (recordingDuration h) (isPlaying h) (isProcessing h) (feedback h) (isSubmitted h)).
Definition setIsRecording (v : bool) : State → State :=
  with_hooks (λ h, mkHooks (config h) (isLoading h) (error h) v (audioBlob h)
    (recordingDuration h) (isPlaying h) (isProcessing h) (feedback h) (isSubmitted h)).
Definition setAudioBlob (v : option Blob) : State → State :=
  with_hooks (λ h, mkHooks (config h) (isLoading h) (error h) (isRecording h) v
    (recordingDuration h) (isPlaying h) (isProcessing h) (feedback h) (isSubmitted h)).
Definition setRecordingDuration (v : Z) : State → State :=
  with_hooks (λ h, mkHooks (config h) (isLoading h) (error h) (isRecording h) (audioBlob h)
    v (isPlaying h) (isProcessing h) (feedback h) (isSubmitted h)).
Definition setIsPlaying (v : bool) : State → State :=
  with_hooks (λ h, mkHooks (config h) (isLoading h) (error h) (isRecording h) (audioBlob h)
    (recordingDuration h) v (isProcessing h) (feedback h) (isSubmitted h)).
Definition setIsProcessing (v : bool) : State → State :=
  with_hooks (λ h, mkHooks (config h) (isLoading h) (error h) (isRecording h) (audioBlob h)
    (recordingDuration h) (isPlaying h) v (feedback h) (isSubmitted h)).
Definition setFeedback (v : option FeedbackResult) : State → State :=
  with_hooks (λ h, mkHooks (config h) (isLoading h) (error h) (isRecording h) (audioBlob h)
    (recordingDuration h) (isPlaying h) (isProcessing h) v (isSubmitted h)).
Definition setIsSubmitted (v : bool) : State → State :=
  with_hooks (λ h, mkHooks (config h) (isLoading h) (error h) (isRecording h) (audioBlob h)
    (recordingDuration h) (isPlaying h) (isProcessing h) (feedback h) v).

Definition set_mediaRecorderRef (v : option nat) : State → State :=
  with_refs (λ r, mkRefs v (audioRef r) (recordingIntervalRef r) (audioUrlRef r)).
Definition set_audioRef (v : option nat) : State → State :=
  with_refs (λ r, mkRefs (mediaRecorderRef r) v (recordingIntervalRef r) (audioUrlRef r)).
Definition set_recordingIntervalRef (v : option nat) : State → State :=
  with_refs (λ r, mkRefs (mediaRecorderRef r) (audioRef r) v (audioUrlRef r)).
Definition set_audioUrlRef (v : option nat) : State → State :=
  with_refs (λ r, mkRefs (mediaRecorderRef r) (audioRef r) (recordingIntervalRef r) v).

Definition with_sessions (f : list Session → list Session) : State → State :=
  with_env (λ e, mkEnv (f (sessions e)) (intervals e) (audios e) (urls e)
                       (requests e) (calls e) (marked_complete e)).
Definition with_intervals (f : list Interval → list Interval) : State → State :=
  with_env (λ e, mkEnv (sessions e) (f (intervals e)) (audios e) (urls e)
                       (requests e) (calls e) (marked_complete e)).
Definition with_audios (f : list (Audio nat) → list (Audio nat)) : State → State :=
  with_env (λ e, mkEnv (sessions e) (intervals e) (f (audios e)) (urls e)
                       (requests e) (calls e) (marked_complete e)).
Definition with_urls (f : list ObjectUrl → list ObjectUrl) : State → State :=
  with_env (λ e, mkEnv (sessions e) (intervals e) (audios e) (f (urls e))
                       (requests e) (calls e) (marked_complete e)).
Definition with_requests (f : list Request → list Request) : State → State :=
  with_env (λ e, mkEnv (sessions e) (intervals e) (audios e) (urls e)
                       (f (requests e)) (calls e) (marked_complete e)).
Definition with_calls (f : list Call → list Call) : State → State :=
  with_env (λ e, mkEnv (sessions e) (intervals e) (audios e) (urls e)
                       (requests e) (f (calls e)) (marked_complete e)).
Definition with_marked_complete (f : nat → nat) : State → State :=
  with_env (λ e, mkEnv (sessions e) (intervals e) (audios e) (urls e)
                       (requests e) (calls e) (f (marked_complete e))).

(** *** Browser operations *)

Definition with_capture (f : Capture → Capture) (x : Session) : Session :=
  mkSession (f (capture x)) (audioChunks x).

Definition clearInterval (j : nat) : State → State :=
  with_intervals (alter (λ iv, mkInterval false (iv_closure iv)) j).

Definition audio_pause (a : nat) : State → State :=
  with_audios (alter pause_audio a).

Definition revokeObjectURL (u : nat) : State → State :=
  with_urls (alter (λ x, mkObjectUrl (url_blob x) true) u).

(** *** Mounting and loading *)

Definition mount (p : Props) : State :=
  mkState p
          (mkHooks None true None false None 0%Z false false None false)
          (mkRefs None None None None)
          (mkEnv [] [] [] [] [] [] 0).

(** [loadTaskConfig] after [GET /tasks/{taskId}] settled.  The body is
    the [conversational_feedback_config] of the task, if it has one;
    [msg] is the message of the error caught otherwise.  In the admin
    view a config is followed by [await loadLearnerSubmissions()], and
    [finally] runs only after it: the call is recorded and [isLoading]
    is left as it is until [submissions_loaded]. *)
Definition task_loaded (resp : Response (option Config)) (msg : string)
    (s : State) : State :=
  match resp with
  | HttpOk (Some c) =>
      let s1 := setConfig (Some c) s in
      if isAdminView (props s)
      then with_calls (λ l, l ++ [AwaitSubmissions]) s1
      else setIsLoading false s1
  | HttpOk None =>
      setIsLoading false
        (setError (Some "Conversational feedback configuration not found") s)
  | _ => setIsLoading false (setError (Some msg) s)
  end.

(** [loadLearnerSubmissions] returned to call [i] of [loadTaskConfig],
    however its request turned out: it catches its own errors and sets no
    [error].  The three states it fills ([learnerSubmissions],
    [selectedSubmission], [submissionsLoading]) are read by the admin
    view only, which is not part of this model. *)
Definition submissions_loaded (i : nat) (s : State) : State :=
  match calls (env s) !! i with
  | Some AwaitSubmissions => setIsLoading false (with_calls <[i:=Settled]> s)
  | _ => s
  end.

(** *** Recording *)

(** [config?.maxDuration || 120] *)
Definition duration_limit (c : option Config) : Z :=
  match c with
  | Some c => if (cfg_maxDuration c =? 0)%Z then 120%Z else cfg_maxDuration c
  | None => 120%Z
  end.

(** [stopRecording] as seen through a closure whose [isRecording] is
    [seen]. *)
Definition stopRecording_closure (seen : bool) (s : State) : State :=
  match mediaRecorderRef (refs s) with
  | Some r =>
      if seen then
        let s1 := with_sessions (alter (with_capture recorder_stop) r) s in
        let s2 := setIsRecording false s1 in
        match recordingIntervalRef (refs s2) with
        | Some j => clearInterval j s2
        | None => s2
        end
      else s
  | None => s
  end.

(** The [stopRecording] of the current render (the Stop button). *)
Definition stopRecording (s : State) : State :=
  stopRecording_closure (isRecording (hooks s)) s.

(** The callback given to [setInterval]. *)
Definition interval_callback (c : Closure) (s : State) : State :=
  let newDuration := (recordingDuration (hooks s) + 1)%Z in
  let s1 :=
    if (duration_limit (c_config c) <=? newDuration)%Z
    then stopRecording_closure (c_isRecording c) s
    else s in
  setRecordingDuration newDuration s1.

(** [startRecording], with the outcome of [getUserMedia]; it is rebuilt
    on every render, so it closes over the render of the click. *)
Definition startRecording (um : UserMedia) (s : State) : State :=
  match um with
  | denied =>
      setError
        (Some "Failed to start recording. Please check your microphone permissions.") s
  | granted =>
      let r := length (sessions (env s)) in
      let j := length (intervals (env s)) in
      let s1 := with_sessions (λ l, l ++ [mkSession (mkCapture recording false 0) []]) s in
      let s2 := set_mediaRecorderRef (Some r) s1 in
      let s3 := setRecordingDuration 0 (setIsRecording true s2) in
      set_recordingIntervalRef (Some j)
        (with_intervals
           (λ l, l ++ [mkInterval true (mkClosure (config (hooks s)) (isRecording (hooks s)))])
           s3)
  end.

(** [mediaRecorder.ondataavailable] of session [r]. *)
Definition ondataavailable (r : nat) (data : Blob) : State → State :=
  with_sessions (alter (λ x, mkSession (capture x) (audioChunks x ++ [data])) r).

(** [mediaRecorder.onstop] of session [r] whose chunks are [chunks]. *)
Definition onstop (r : nat) (chunks : list Blob) (s : State) : State :=
  let blob := new_Blob chunks "audio/webm" in
  let s1 := setAudioBlob (Some blob) s in
  let s2 :=
    match audioUrlRef (refs s1) with
    | Some u => revokeObjectURL u s1
    | None => s1
    end in
  let u' := length (urls (env s2)) in
  let s3 := set_audioUrlRef (Some u') (with_urls (λ l, l ++ [mkObjectUrl blob false]) s2) in
  with_sessions (alter (with_capture stop_tracks) r) s3.

(** *** Playback *)

Definition playAudio (s : State) : State :=
  match audioUrlRef (refs s) with
  | Some u =>
      let s1 :=
        match audioRef (refs s) with
        | Some a => audio_pause a s
        | None => s
        end in
      let a' := length (audios (env s1)) in
      setIsPlaying true
        (set_audioRef (Some a') (with_audios (λ l, l ++ [mkAudio u au_playing]) s1))
  | None => s
  end.

Definition pauseAudio (s : State) : State :=
  match audioRef (refs s) with
  | Some a => setIsPlaying false (audio_pause a s)
  | None => s
  end.

(** [audio.onended] *)
Definition onended : State → State := setIsPlaying false.

Definition deleteRecording (s : State) : State :=
  let s1 := setIsSubmitted false (setFeedback None (setIsPlaying false
              (setRecordingDuration 0 (setAudioBlob None s)))) in
  let s2 :=
    match audioUrlRef (refs s1) with
    | Some u => set_audioUrlRef None (revokeObjectURL u s1)
    | None => s1
    end in
  match audioRef (refs s2) with
  | Some a => set_audioRef None (audio_pause a s2)
  | None => s2
  end.

(** *** Submission *)

(** [submitRecording], up to its [await]. *)
Definition submitRecording (s : State) : State :=
  match audioBlob (hooks s), config (hooks s) with
  | Some blob, Some c =>
      with_calls (λ l, l ++ [AwaitAnalyze])
        (with_requests
           (λ l, l ++ [Analyze blob "recording.webm" (taskId (props s))
                               (userId (props s)) (rubric c)])
           (setIsProcessing true s))
  | _, _ => s
  end.

(** Call [i] resumes after the request settled. *)
Definition analyze_response (i : nat) (resp : Response FeedbackResult)
    (s : State) : State :=
  match calls (env s) !! i with
  | Some AwaitAnalyze =>
      setIsProcessing false
        (with_calls <[i:=Settled]>
           match resp with
           | HttpOk result =>
               let s1 := setIsSubmitted true (setFeedback (Some result) s) in
               if onMarkComplete (props s) then with_marked_complete S s1 else s1
           | _ =>
               setError (Some "Failed to process your recording. Please try again.") s
           end)
  | _ => s
  end.

(** The cleanup returned by the mount effect. *)
Definition unmount (s : State) : State :=
  let s1 :=
    match audioUrlRef (refs s) with
    | Some u => revokeObjectURL u s
    | None => s
    end in
  match recordingIntervalRef (refs s1) with
  | Some j => clearInterval j s1
  | None => s1
  end.

(** *** What is on screen *)

(** The learner view is on screen: not loading, no error, a config, and
    not the admin view. *)
Definition learner_view (s : State) : bool :=
  negb (isLoading (hooks s))
  && bool_decide (error (hooks s) = None)
  && bool_decide (is_Some (config (hooks s)))
  && negb (isAdminView (props s)).

(** The "Submit for Feedback" button is on screen and not disabled. *)
Definition submit_enabled (s : State) : bool :=
  learner_view s
  && negb (isSubmitted (hooks s))
  && bool_decide (is_Some (audioBlob (hooks s)))
  && negb (isRecording (hooks s))
  && negb (viewOnly (props s))
  && negb (isProcessing (hooks s)).

Definition click_submit (s : State) : State :=
  if submit_enabled s then submitRecording s else s.

Definition getScoreColor (score maxScore : Q) : string :=
  let percentage :=
    if Qeq_bool maxScore 0
    then (if Qle_bool score 0 then 0%Q else 100%Q)  (* NaN, -Infinity | Infinity *)
    else (score / maxScore * 100)%Q in
  if Qle_bool 80 percentage then "text-green-400"
  else if Qle_bool 60 percentage then "text-yellow-400"
  else "text-red-400".

(** What one entry of "Detailed Scores" shows. *)
Record Row := mkRow {
  row_name : string;
  row_class : string;
  row_score : Q;
  row_maxScore : Q;
  row_feedback : string
}.

Definition render_criterion (c : CriteriaScore) : Row :=
  mkRow (name c) (getScoreColor (score c) (maxScore c)) (score c) (maxScore c)
        (cs_feedback c).

(** [feedback.feedback.criteriaScores.map(...)] *)
Definition render_criteriaScores (f : FeedbackResult) : list Row :=
  render_criterion <$> criteriaScores (fr_feedback f).

(** *** Events *)

Inductive Event :=
| TaskLoaded (resp : Response (option Config)) (msg : string)
| ClickStart (um : UserMedia)
| ClickStop
| Tick (j : nat)
| DataAvailable (r : nat) (data : Blob)
| StopEvent (r : nat)
| ClickPlay
| ClickPause
| Ended (a : nat)
| ClickRecordAgain
| Submit
| AnalyzeResponse (i : nat) (resp : Response FeedbackResult)
| Unmount
| SubmissionsLoaded (i : nat).

(** The browser side of an event, as for [AudioInputComponent];
    handlers are not filtered by what is on screen. *)
Definition step (ev : Event) (s : State) : State :=
  match ev with
  | TaskLoaded resp msg => task_loaded resp msg s
  | ClickStart um => startRecording um s
  | ClickStop => stopRecording s
  | Tick j =>
      match intervals (env s) !! j with
      | Some iv => if iv_active iv then interval_callback (iv_closure iv) s else s
      | None => s
      end
  | DataAvailable r data =>
      match sessions (env s) !! r with
      | Some x =>
          match rec_state (capture x) with
          | recording => ondataavailable r data s
          | inactive => if stop_pending (capture x) then ondataavailable r data s else s
          end
      | None => s
      end
  | StopEvent r =>
      match sessions (env s) !! r with
      | Some x =>
          if stop_pending (capture x) then
            onstop r (audioChunks x)
                   (with_sessions (alter (with_capture stop_delivered) r) s)
          else s
      | None => s
      end
  | ClickPlay => playAudio s
  | ClickPause => pauseAudio s
  | Ended a =>
      match audios (env s) !! a with
      | Some au =>
          if is_playing (au_status au)
          then onended (with_audios (alter end_audio a) s)
          else s
      | None => s
      end
  | ClickRecordAgain => deleteRecording s
  | Submit => submitRecording s
  | AnalyzeResponse i resp => analyze_response i resp s
  | Unmount => unmount s
  | SubmissionsLoaded i => submissions_loaded i s
  end.

Definition run (evs : list Event) (s : State) : State :=
  foldl (λ s ev, step ev s) s evs.

(** The same events as the page lets them through to [submitRecording]:
    a click on Submit reaches the handler only through the button
    ([click_submit]); the other handlers still run unfiltered. *)
Definition page_step (ev : Event) (s : State) : State :=
  match ev with
  | Submit => click_submit s
  | _ => step ev s
  end.

Definition page_run (evs : list Event) (s : State) : State :=
  foldl (λ s ev, page_step ev s) s evs.

End ConversationalFeedbackViewer.

(** ** The evaluation model of the specification *)

(** Modelled from the spec: [normalize] and the canonical [criteria]
    sequence of the specification's EvaluationModel.  The source has no
    such step: [RubricScorecard] renders the criterion/score/feedback
    shape and [ConversationalFeedbackViewer] the name/score/maxScore
    shape, each as its backend returns it.  The definitions of this
    module follow the specification's words, to be compared with what the
    two components show. *)
Module EvaluationModel.

(** One entry of the canonical [criteria] sequence. *)
Record Criterion := mkCriterion {
  name : string;
  score : Q;
  maxScore : Q;
  feedback : string;
  transcriptReferences : list string
}.

(** A raw rubric score in one of the two known shapes. *)
Inductive RawScore :=
| CriterionShape (e : RubricScorecard.CriterionScore)
| NameShape (e : ConversationalFeedbackViewer.CriteriaScore).

(** The projection of one raw score: its own name (the criterion key in
    the first shape), score and feedback; the fixed scale 5 where the
    shape has no [maxScore]; no transcript references where the shape
    has none. *)
Definition normalize_score (r : RawScore) : Criterion :=
  match r with
  | CriterionShape e =>
      mkCriterion (RubricScorecard.criterion e) (RubricScorecard.score e) 5%Q
                  (RubricScorecard.feedback e)
                  (RubricScorecard.transcript_references e)
  | NameShape e =>
      mkCriterion (ConversationalFeedbackViewer.name e)
                  (ConversationalFeedbackViewer.score e)
                  (ConversationalFeedbackViewer.maxScore e)
                  (ConversationalFeedbackViewer.cs_feedback e) []
  end.

Definition normalize (raw : list RawScore) : list Criterion :=
  normalize_score <$> raw.

End EvaluationModel.


(** ** formatTime *)

(** [s.padStart(2, '0')] *)
Definition padStart2 (s : string) : string :=
  match String.length s with
  | 0 => "00"
  | 1 => String "0" s
  | _ => s
  end.

(** The arguments on which [formatTime] below is the code: whole seconds
    from 0 up to 2^53.  The code computes on doubles; a whole number
    below 2^53 is a double, its quotient by 60 rounds to a double with
    the same floor, and [%] is exact.  Beyond 2^53 the rounded quotient
    can have another floor, and fractional seconds (a playback position)
    are not whole numbers: both are outside this model. *)
Definition safe_seconds (seconds : Z) : Prop := (0 ≤ seconds < 2 ^ 53)%Z.

(** [formatTime], as written in [AudioInputComponent],
    [ConversationalFeedbackViewer], [ConversationalFeedbackEditor] and
    [ActionableTips], on [safe_seconds]: there [Math.floor(seconds / 60)]
    is the quotient, [Math.floor(seconds % 60)] the remainder, and a
    number prints in decimal. *)
Definition formatTime (seconds : Z) : string :=
  pretty (seconds `div` 60)%Z +:+ ":" +:+ padStart2 (pretty (seconds `rem` 60)%Z).

(** ** ActionableTips.tsx *)

Module ActionableTips.

Inductive Icon :=
| ExclamationTriangle_red
| InformationCircle_yellow
| CheckCircle_blue
| InformationCircle_gray.

Definition getPriorityIcon (priority : Z) : Icon :=
  match priority with
  | 1%Z => ExclamationTriangle_red
  | 2%Z => InformationCircle_yellow
  | 3%Z => CheckCircle_blue
  | _ => InformationCircle_gray
  end.

Definition getPriorityLabel (priority : Z) : string :=
  match priority with
  | 1%Z => "High Priority"
  | 2%Z => "Medium Priority"
  | 3%Z => "Low Priority"
  | _ => "Priority"
  end.

Definition getPriorityBg (priority : Z) : string :=
  match priority with
  | 1%Z => "bg-red-50 border-red-200"
  | 2%Z => "bg-yellow-50 border-yellow-200"
  | 3%Z => "bg-blue-50 border-blue-200"
  | _ => "bg-gray-50 border-gray-200"
  end.

End ActionableTips.

(** ** TranscriptViewer (second component of InterviewMode.tsx) *)

Module TranscriptViewer.

(** The [audioBlob] prop, the two state cells the handler reads, and the
    audio elements created so far ([audioElement] holds an index). *)
Record State := mkState {
  audioBlob : option Blob;
  isPlaying : bool;
  audioElement : option nat;
  audios : list (Audio Blob)
}.

Definition mount (blob : option Blob) : State := mkState blob false None [].

Definition play_audio {Src} (au : Audio Src) : Audio Src :=
  mkAudio (au_src au) au_playing.

Definition handlePlayPause (s : State) : State :=
  match audioBlob s, audioElement s with
  | Some b, None =>
      mkState (audioBlob s) true (Some (length (audios s)))
              (audios s ++ [mkAudio b au_playing])
  | _, Some a =>
      if isPlaying s
      then mkState (audioBlob s) false (audioElement s) (alter pause_audio a (audios s))
      else mkState (audioBlob s) true (audioElement s) (alter play_audio a (audios s))
  | None, None => s
  end.

(** The 'ended' listener. *)
Definition on_ended (s : State) : State :=
  mkState (audioBlob s) false (audioElement s) (audios s).

Inductive Event :=
| Click
| Ended (a : nat)
| Render (blob : option Blob).

Definition step (ev : Event) (s : State) : State :=
  match ev with
  | Click => handlePlayPause s
  | Ended a =>
      if audio_is_playing (audios s) a
      then on_ended (mkState (audioBlob s) (isPlaying s) (audioElement s)
                             (alter end_audio a (audios s)))
      else s
  | Render blob => mkState blob (isPlaying s) (audioElement s) (audios s)
  end.

Definition run (evs : list Event) (s : State) : State :=
  foldl (λ s ev, step ev s) s evs.

End TranscriptViewer.

(** ** JavaScript strings by code unit *)

(** A string as the sequence of its UTF-16 code units, for the code that
    reads a string unit by unit ([trim], [split('')], [charCodeAt]). *)
Definition JsString := list N.

(** A well-formed string: every unit is below 2^16. *)
Definition code_units (s : JsString) : Prop := Forall (λ c, (c < 65536)%N) s.

(** The code units of an ASCII literal. *)
Definition js (s : string) : JsString := N_of_ascii <$> list_ascii_of_string s.

(** What [String.prototype.trim] strips: ECMAScript's WhiteSpace (tab,
    vertical tab, form feed, the space separators of Unicode U+0020,
    U+00A0, U+1680, U+2000 to U+200A, U+202F, U+205F, U+3000, and the
    byte order mark U+FEFF) and LineTerminator (line feed, carriage
    return, U+2028, U+2029).  Each is one code unit. *)
Definition white_space : list N :=
  [9; 10; 11; 12; 13; 32; 160; 5760;
   8192; 8193; 8194; 8195; 8196; 8197; 8198; 8199; 8200; 8201; 8202;
   8232; 8233; 8239; 8287; 12288; 65279]%N.

Definition is_white_space (c : N) : bool := bool_decide (c ∈ white_space).

(** ** ProbingQuestions.tsx *)

Module ProbingQuestion.

(** [String.prototype.trim] *)
Fixpoint trimStart (s : JsString) : JsString :=
  match s with
  | [] => []
  | c :: s' => if is_white_space c then trimStart s' else s
  end.

Fixpoint trimEnd (s : JsString) : JsString :=
  match s with
  | [] => []
  | c :: s' =>
      match trimEnd s' with
      | [] => if is_white_space c then [] else [c]
      | t => c :: t
      end
  end.

Definition trim (s : JsString) : JsString := trimEnd (trimStart s).

(** A non-empty string is truthy. *)
Definition truthy (s : JsString) : bool :=
  match s with [] => false | _ => true end.

Record State := mkState {
  isLoading : bool;              (* prop, default false *)
  response : JsString;
  responses : list JsString      (* arguments of onResponse, oldest first *)
}.

Definition mount (isLoading0 : bool) : State := mkState isLoading0 [] [].

(** The textarea's [onChange]. *)
Definition setResponse (v : JsString) (s : State) : State :=
  mkState (isLoading s) v (responses s).

Definition handleSubmit (s : State) : State :=
  if truthy (trim (response s))
  then mkState (isLoading s) (response s) (responses s ++ [trim (response s)])
  else s.

(** [disabled={!response.trim() || isLoading}] *)
Definition submit_disabled (s : State) : bool :=
  negb (truthy (trim (response s))) || isLoading s.

Definition click_submit (s : State) : State :=
  if submit_disabled s then s else handleSubmit s.

Inductive Event :=
| Type_ (v : JsString)
| Submit
| Render (isLoading' : bool).

Definition step (ev : Event) (s : State) : State :=
  match ev with
  | Type_ v => setResponse v s
  | Submit => handleSubmit s
  | Render l => mkState l (response s) (responses s)
  end.

Definition run (evs : list Event) (s : State) : State :=
  foldl (λ s ev, step ev s) s evs.

End ProbingQuestion.

(** ** UnderstandingCertifications.tsx *)

Module UnderstandingCertification.

(** A [setTimeout] timer. *)
Inductive Timeout := pending | fired | cleared.

(** [clearTimeout] *)
Definition clear (t : Timeout) : Timeout :=
  match t with pending => cleared | _ => t end.

Record State := mkState {
  certified : bool;              (* certification.certified *)
  showAnimation : bool;
  timeouts : list Timeout;
  cleanup : option nat;          (* the timer the effect's cleanup clears *)
  confetti : nat;                (* calls of confetti *)
  completed : nat                (* calls of onComplete *)
}.

(** The body of the effect. *)
Definition effect (s : State) : State :=
  if certified s then
    mkState (certified s) (showAnimation s) (timeouts s ++ [pending])
            (Some (length (timeouts s))) (S (confetti s)) (completed s)
  else
    mkState (certified s) (showAnimation s) (timeouts s) None
            (confetti s) (completed s).

(** The cleanup the last run of the effect returned, if any. *)
Definition run_cleanup (s : State) : State :=
  match cleanup s with
  | Some t =>
      mkState (certified s) (showAnimation s) (alter clear t (timeouts s))
              None (confetti s) (completed s)
  | None => s
  end.

Definition mount (certified0 : bool) : State :=
  effect (mkState certified0 true [] None 0 0).

(** A render by the parent: the effect runs again when [certified] or the
    identity of [onComplete] changed, after the previous cleanup. *)
Definition render (certified' : bool) (onComplete_changed : bool) (s : State) : State :=
  let s' := mkState certified' (showAnimation s) (timeouts s) (cleanup s)
                    (confetti s) (completed s) in
  if onComplete_changed || negb (Bool.eqb certified' (certified s))
  then effect (run_cleanup s')
  else s'.

(** The callback given to [setTimeout]. *)
Definition timeout_callback (s : State) : State :=
  mkState (certified s) false (timeouts s) (cleanup s) (confetti s) (S (completed s)).

(** The "Continue Learning" button. *)
Definition click_continue (s : State) : State :=
  mkState (certified s) false (timeouts s) (cleanup s) (confetti s) (S (completed s)).

Definition unmount (s : State) : State := run_cleanup s.

(** The component renders nothing unless certified. *)
Definition renders_dialog (s : State) : bool := certified s.

Inductive Event :=
| TimeoutFires (t : nat)
| ClickContinue
| Render (certified' : bool) (onComplete_changed : bool)
| Unmount.

(** A timer fires at most once, and only while it is pending. *)
Definition step (ev : Event) (s : State) : State :=
  match ev with
  | TimeoutFires t =>
      match timeouts s !! t with
      | Some pending =>
          timeout_callback
            (mkState (certified s) (showAnimation s) (<[t:=fired]> (timeouts s))
                     (cleanup s) (confetti s) (completed s))
      | _ => s
      end
  | ClickContinue => click_continue s
  | Render c o => render c o s
  | Unmount => unmount s
  end.

Definition run (evs : list Event) (s : State) : State :=
  foldl (λ s ev, step ev s) s evs.

End UnderstandingCertification.

(** ** ConversationalFeedbackEditor (second component of ActionableTips.tsx):
       editing the configuration *)

Module ConversationalFeedbackEditor.

Module CFV := ConversationalFeedbackViewer.

(** The rubric as this file builds it: a name and the criteria. *)
Record Rubric := mkRubric {
  rubric_name : string;
  criteria : list CFV.FeedbackCriterion
}.

Section Editor.

(** A BlockNote content block of the prompt; the editor never looks
    inside one. *)
Context {Block : Type}.

Record Config := mkConfig {
  maxDuration : Z;
  prompt : list Block;
  rubric : Rubric
}.

Record State := mkState {
  onChange : bool;               (* prop: was a callback given *)
  config : Config;
  changes : list Config          (* arguments of onChange, oldest first *)
}.

Definition handleConfigChange (newConfig : Config) (s : State) : State :=
  mkState (onChange s) newConfig
          (if onChange s then changes s ++ [newConfig] else changes s).

Definition handlePromptChange (content : list Block) (s : State) : State :=
  handleConfigChange (mkConfig (maxDuration (config s)) content (rubric (config s))) s.

Definition handleMaxDurationChange (duration : Z) (s : State) : State :=
  handleConfigChange (mkConfig duration (prompt (config s)) (rubric (config s))) s.

Definition handleRubricChange (r : Rubric) (s : State) : State :=
  handleConfigChange (mkConfig (maxDuration (config s)) (prompt (config s)) r) s.

Definition newCriterion : CFV.FeedbackCriterion :=
  CFV.mkFeedbackCriterion "New Criterion" "Description of this criterion" 4%Q.

Definition addCriterion (s : State) : State :=
  handleRubricChange
    (mkRubric (rubric_name (rubric (config s)))
              (criteria (rubric (config s)) ++ [newCriterion])) s.

(** [a[index] = x] on a copy of [a]: in range the slot is replaced, at
    [a.length] the array grows by one, and beyond that JavaScript would
    leave holes, which a list does not have. *)
Definition array_set {A} (a : list A) (index : nat) (x : A) : option (list A) :=
  if decide (index < length a) then Some (<[index:=x]> a)
  else if decide (index = length a) then Some (a ++ [x])
  else None.

Definition updateCriterion (index : nat) (criterion : CFV.FeedbackCriterion)
    (s : State) : option State :=
  newCriteria ← array_set (criteria (rubric (config s))) index criterion;
  Some (handleRubricChange (mkRubric (rubric_name (rubric (config s))) newCriteria) s).

(** [a.filter((_, i) => keep(i))], counting from [i]. *)
Fixpoint filter_index {A} (keep : nat → bool) (i : nat) (a : list A) : list A :=
  match a with
  | [] => []
  | x :: a' =>
      if keep i then x :: filter_index keep (S i) a'
      else filter_index keep (S i) a'
  end.

Definition removeCriterion (index : nat) (s : State) : State :=
  handleRubricChange
    (mkRubric (rubric_name (rubric (config s)))
              (filter_index (λ i, negb (i =? index)) 0 (criteria (rubric (config s))))) s.

(** [hasContent] of the imperative handle. *)
Definition hasContent (s : State) : bool :=
  negb (length (prompt (config s)) =? 0)
  && negb (length (criteria (rubric (config s))) =? 0).

End Editor.

Arguments Config : clear implicits.
Arguments State : clear implicits.

End ConversationalFeedbackEditor.

(** ** app/api/auth/[...nextauth]/utils.ts *)

Module Auth.

(** A field that may be [undefined], [null] or a string.  The email is
    kept as its code units, which is how the fallback id reads it
    ([split('')], [charCodeAt]); the names are only split at U+0020 and
    joined again, which reads the same in any encoding. *)
Record UserData := mkUserData {
  email : option JsString;
  given_name : option string;
  family_name : option string;
  name : option string
}.

Record AccountData := mkAccountData { id_token : option string }.

Record RequestBody := mkRequestBody {
  rb_email : JsString;
  rb_given_name : string;
  rb_family_name : string;
  rb_id_token : string
}.

(** [a || b] where [a] may be missing: the empty string is falsy too. *)
Definition or_else (a : option string) (b : option string) : option string :=
  match a with
  | Some (String _ _) => a
  | _ => b
  end.

Definition or_empty (a : option string) : string :=
  match a with
  | Some (String c s) => String c s
  | _ => EmptyString
  end.

(** [s.split(' ')] *)
Fixpoint split_space (s : string) : list string :=
  match s with
  | EmptyString => [EmptyString]
  | String c s' =>
      if Ascii.eqb c " " then EmptyString :: split_space s'
      else match split_space s' with
           | h :: t => String c h :: t
           | [] => [String c EmptyString]
           end
  end.

(** [a.join(' ')] *)
Fixpoint join_space (a : list string) : string :=
  match a with
  | [] => EmptyString
  | [x] => x
  | x :: a' => x +:+ " " +:+ join_space a'
  end.

Definition requestBody (user : UserData) (account : AccountData) : RequestBody :=
  mkRequestBody
    (default [] (email user))
    (or_empty (or_else (given_name user)
                       ((λ n, default EmptyString (head (split_space n))) <$> name user)))
    (or_empty (or_else (family_name user)
                       ((λ n, join_space (drop 1 (split_space n))) <$> name user)))
    (or_empty (id_token account)).

(** [ToInt32] and [x << n] on a number that holds an integer. *)
Definition ToInt32 (x : Z) : Z := ((x + 2 ^ 31) `mod` 2 ^ 32 - 2 ^ 31)%Z.
Definition shiftl32 (x n : Z) : Z := ToInt32 (ToInt32 x * 2 ^ n).

(** The reducer of the fallback id, over the code units of the email:
    [((hash << 5) - hash) + char.charCodeAt(0)]. *)
Definition hash_step (hash : Z) (char : N) : Z :=
  (shiftl32 hash 5 - hash + Z.of_N char)%Z.

(** [email.split('').reduce(..., 0)] *)
Definition emailHash (email : JsString) : Z := foldl hash_step 0%Z email.

(** [Math.abs(emailHash % 1000000)] *)
Definition fallbackId (email : JsString) : Z :=
  Z.abs (emailHash email `rem` 1000000)%Z.

(** What the function resolves to: the backend's JSON as it came, or the
    fallback object [{ id }], whose id may be [null]. *)
Inductive Result (Data : Type) :=
| FromBackend (data : Data)
| Fallback (id : option Z).
Arguments FromBackend {Data} _.
Arguments Fallback {Data} _.

(** [registerUserWithBackend], given how the request to [/auth/login]
    turned out.  Every failure inside [try] lands in [catch]. *)
Definition registerUserWithBackend {Data} (user : UserData) (account : AccountData)
    (resp : Response Data) : Result Data :=
  match resp with
  | HttpOk data => FromBackend data
  | _ =>
      match email user with
      | Some (c :: s) => Fallback (Some (fallbackId (c :: s)))
      | _ => Fallback None
      end
  end.

End Auth.
(** ** States and invariants used in the statements *)

Module Recording.

Module AIC := AudioInputComponent.
Module CFV := ConversationalFeedbackViewer.
Module IM := InterviewMode.
Module RS := RubricScorecard.

(** An [AudioInputComponent] mounted with [maxDuration = N] whose
    recording was started and whose clock shows [t]. *)
Definition aic_recording (N : Z) (b : bool) (t : Z) : AIC.State :=
  AIC.mkState N b
    (AIC.mkHooks true None t false 0%Q 0%Q false)
    (AIC.mkRefs (Some 0) [] (Some 0) None)
    (AIC.mkClosure N false)
    (AIC.mkEnv [mkCapture recording false 0]
               [AIC.mkInterval true (AIC.mkClosure N false)] []).

(** A [ConversationalFeedbackViewer] whose task configuration [c] has
    loaded, whose recording was started and whose clock shows [t].  In
    the admin view the load still awaits the learner submissions. *)
Definition cfv_recording (p : CFV.Props) (c : CFV.Config) (t : Z) : CFV.State :=
  CFV.mkState p
    (CFV.mkHooks (Some c) (CFV.isAdminView p) None true None t false false None false)
    (CFV.mkRefs (Some 0) None (Some 0) None)
    (CFV.mkEnv [CFV.mkSession (mkCapture recording false 0) []]
               [CFV.mkInterval true (CFV.mkClosure (Some c) false)]
               [] [] []
               (if CFV.isAdminView p then [CFV.AwaitSubmissions] else []) 0).

(** The events of a recording that is started and left alone for [k]
    timer periods. *)
Definition aic_unattended (k : nat) : list AIC.Event :=
  AIC.ClickStart granted :: replicate k (AIC.Tick 0).

Definition cfv_unattended (c : CFV.Config) (k : nat) : list CFV.Event :=
  CFV.TaskLoaded (HttpOk (Some c)) "" :: CFV.ClickStart granted
    :: replicate k (CFV.Tick 0).

(** The artifact of a recording during which no chunk arrived. *)
Definition empty_recording : Blob := new_Blob [] "audio/webm".

(** A recording that is started and stopped before any data arrived. *)
Definition aic_silent_take : list AIC.Event :=
  [AIC.ClickStart granted; AIC.ClickStop; AIC.StopEvent 0].

Definition im_silent_take : list IM.Event := IM.Input <$> aic_silent_take.

Definition cfv_silent_take (c : CFV.Config) : list CFV.Event :=
  [CFV.TaskLoaded (HttpOk (Some c)) ""; CFV.ClickStart granted;
   CFV.ClickStop; CFV.StopEvent 0].

(** A response other than a 2xx with a body. *)
Definition failed {A} (resp : Response A) : bool :=
  match resp with HttpOk _ => false | _ => true end.

(** While the child is rendered it holds the parent's [isSubmitting]. *)
Definition im_synced (s : IM.State) : Prop :=
  IM.input_rendered s = true → AIC.isSubmitting (IM.input s) = IM.isSubmitting s.

(** A call that has not settled. *)
Definition im_in_flight (c : IM.Call) : bool :=
  match c with IM.Settled => false | _ => true end.

Definition cfv_in_flight (c : CFV.Call) : bool :=
  match c with CFV.AwaitAnalyze => true | _ => false end.

(** In a list of calls, [f] telling which are in flight: at most one
    is, resp. none is. *)
Definition one_in_flight {C} (f : C → bool) (l : list C) : Prop :=
  ∀ i j c c', l !! i = Some c → l !! j = Some c' →
              f c = true → f c' = true → i = j.

Definition none_in_flight {C} (f : C → bool) (l : list C) : Prop :=
  ∀ i c, l !! i = Some c → f c = false.

(** Submissions through the page: the child is in step with the parent;
    a call is in flight only while the flag is set and before any
    evaluation is shown; and at most one call is in flight. *)
Definition im_flight_inv (s : IM.State) : Prop :=
  im_synced s
  ∧ (∀ i c, IM.calls s !! i = Some c → im_in_flight c = true →
            IM.isSubmitting s = true ∧ IM.evaluation s = None)
  ∧ one_in_flight im_in_flight (IM.calls s).

Definition cfv_flight_inv (s : CFV.State) : Prop :=
  (∀ i c, CFV.calls (CFV.env s) !! i = Some c → cfv_in_flight c = true →
          CFV.isProcessing (CFV.hooks s) = true)
  ∧ one_in_flight cfv_in_flight (CFV.calls (CFV.env s)).

(** Playback invariants: an element that plays is the one the ref
    holds (and, on the capture surface, [isPlaying] is set). *)
Definition aic_playback_inv (s : AIC.State) : Prop :=
  ∀ a, audio_is_playing (AIC.audios (AIC.env s)) a = true →
       AIC.isPlaying (AIC.hooks s) = true
       ∧ AIC.audioElementRef (AIC.refs s) = Some a.

Definition cfv_playback_inv (s : CFV.State) : Prop :=
  ∀ a, audio_is_playing (CFV.audios (CFV.env s)) a = true →
       CFV.audioRef (CFV.refs s) = Some a.

End Recording.

(** ** Predicates used in the statements about the other components *)

Module Support.

Module PQ := ProbingQuestion.
Module UC := UnderstandingCertification.
Module TV := TranscriptViewer.
Module CFE := ConversationalFeedbackEditor.
Module AT := ActionableTips.

(** The first, resp. last, code unit of [s] is white space. *)
Definition starts_with_space (s : JsString) : bool :=
  match s with
  | [] => false
  | c :: _ => is_white_space c
  end.

Fixpoint ends_with_space (s : JsString) : bool :=
  match s with
  | [] => false
  | [c] => is_white_space c
  | _ :: s' => ends_with_space s'
  end.

(** Every code unit of [s] is white space. *)
Definition all_space (s : JsString) : bool := forallb is_white_space s.

(** A response as [ProbingQuestion] hands it on: not empty, no white
    space at either end. *)
Definition trimmed (s : JsString) : Prop :=
  s ≠ [] ∧ starts_with_space s = false ∧ ends_with_space s = false.

(** [UnderstandingCertification]: a pending timer is the one the cleanup
    will clear. *)
Definition uc_inv (s : UC.State) : Prop :=
  ∀ t, UC.timeouts s !! t = Some UC.pending → UC.cleanup s = Some t.

(** [TranscriptViewer]: there is at most one element, the state cell
    holds it, and [isPlaying] says whether it plays. *)
Definition tv_inv (s : TV.State) : Prop :=
  match TV.audioElement s with
  | None => TV.audios s = [] ∧ TV.isPlaying s = false
  | Some a =>
      a = 0 ∧ ∃ au, TV.audios s = [au]
                    ∧ TV.isPlaying s = is_playing (au_status au)
  end.

(** The bands of the scorecard, worst first. *)
Definition band_rank (i : RubricScorecard.Icon) : nat :=
  match i with
  | RubricScorecard.XCircle => 0
  | RubricScorecard.AlertCircle => 1
  | RubricScorecard.CheckCircle => 2
  end.

(** ASCII text: every character is below 128. *)
Fixpoint ascii_text (s : string) : bool :=
  match s with
  | EmptyString => true
  | String c s' => (nat_of_ascii c <? 128) && ascii_text s'
  end.

(** What a row of the scorecard, resp. of the viewer's detailed scores,
    shows of a canonical entry: everything but its colours.  The
    scorecard prints the label of the name (stated for ASCII names, see
    [RubricScorecard.toLowerCase]). *)
Definition scorecard_shows (row : RubricScorecard.Row)
    (c : EvaluationModel.Criterion) : Prop :=
  (ascii_text (EvaluationModel.name c) = true →
   RubricScorecard.row_label row
   = RubricScorecard.getCriterionLabel (EvaluationModel.name c))
  ∧ RubricScorecard.row_score row = EvaluationModel.score c
  ∧ RubricScorecard.row_scale row = EvaluationModel.maxScore c
  ∧ RubricScorecard.row_feedback row = EvaluationModel.feedback c
  ∧ RubricScorecard.row_references row = EvaluationModel.transcriptReferences c.

Definition viewer_shows (row : ConversationalFeedbackViewer.Row)
    (c : EvaluationModel.Criterion) : Prop :=
  ConversationalFeedbackViewer.row_name row = EvaluationModel.name c
  ∧ ConversationalFeedbackViewer.row_score row = EvaluationModel.score c
  ∧ ConversationalFeedbackViewer.row_maxScore row = EvaluationModel.maxScore c
  ∧ ConversationalFeedbackViewer.row_feedback row = EvaluationModel.feedback c.

(** The score and the feedback a raw entry carries. *)
Definition raw_score (r : EvaluationModel.RawScore) : Q :=
  match r with
  | EvaluationModel.CriterionShape e => RubricScorecard.score e
  | EvaluationModel.NameShape e => ConversationalFeedbackViewer.score e
  end.

Definition raw_feedback (r : EvaluationModel.RawScore) : string :=
  match r with
  | EvaluationModel.CriterionShape e => RubricScorecard.feedback e
  | EvaluationModel.NameShape e => ConversationalFeedbackViewer.cs_feedback e
  end.

(** The criteria the scorecard has a label for. *)
Definition known_criterion (s : string) : bool :=
  String.eqb s "content" || String.eqb s "structure"
  || String.eqb s "clarity" || String.eqb s "delivery".

(** [s] contains a space. *)
Fixpoint has_space (s : string) : bool :=
  match s with
  | EmptyString => false
  | String c s' => Ascii.eqb c " " || has_space s'
  end.

(** A whole take on capture [r]: start, the data [ds] delivered while
    recording, a manual stop, then the last data [d] and the 'stop'
    event. *)
Definition aic_take (r : nat) (ds : list Blob) (d : Blob)
    : list AudioInputComponent.Event :=
  [AudioInputComponent.ClickStart granted]
    ++ (AudioInputComponent.DataAvailable r <$> ds)
    ++ [AudioInputComponent.ClickStop; AudioInputComponent.DataAvailable r d;
        AudioInputComponent.StopEvent r].

Definition cfv_take (r : nat) (ds : list Blob) (d : Blob)
    : list ConversationalFeedbackViewer.Event :=
  [ConversationalFeedbackViewer.ClickStart granted]
    ++ (ConversationalFeedbackViewer.DataAvailable r <$> ds)
    ++ [ConversationalFeedbackViewer.ClickStop;
        ConversationalFeedbackViewer.DataAvailable r d;
        ConversationalFeedbackViewer.StopEvent r].

(** The capture surface is recording on capture [r] and has kept
    [chunks]. *)
Definition aic_recording_on (r : nat) (chunks : list Blob)
    (s : AudioInputComponent.State) : Prop :=
  AudioInputComponent.mediaRecorderRef (AudioInputComponent.refs s) = Some r
  ∧ AudioInputComponent.isRecording (AudioInputComponent.hooks s) = true
  ∧ AudioInputComponent.captures (AudioInputComponent.env s) !! r
    = Some (mkCapture recording false 0)
  ∧ AudioInputComponent.audioChunksRef (AudioInputComponent.refs s) = chunks.

(** The feedback viewer is recording on session [r], which has kept
    [chunks]; its object URLs are [us] and the current one is [cur]. *)
Definition cfv_recording_on (r : nat) (chunks : list Blob)
    (us : list ConversationalFeedbackViewer.ObjectUrl) (cur : option nat)
    (s : ConversationalFeedbackViewer.State) : Prop :=
  ConversationalFeedbackViewer.mediaRecorderRef (ConversationalFeedbackViewer.refs s)
  = Some r
  ∧ ConversationalFeedbackViewer.isRecording (ConversationalFeedbackViewer.hooks s) = true
  ∧ ConversationalFeedbackViewer.sessions (ConversationalFeedbackViewer.env s) !! r
    = Some (ConversationalFeedbackViewer.mkSession (mkCapture recording false 0) chunks)
  ∧ ConversationalFeedbackViewer.urls (ConversationalFeedbackViewer.env s) = us
  ∧ ConversationalFeedbackViewer.audioUrlRef (ConversationalFeedbackViewer.refs s) = cur.

(** Feedback viewer: an object URL that is not revoked is the current
    one. *)
Definition cfv_url_inv (s : ConversationalFeedbackViewer.State) : Prop :=
  ∀ u x,
    ConversationalFeedbackViewer.urls (ConversationalFeedbackViewer.env s) !! u = Some x →
    ConversationalFeedbackViewer.url_revoked x = false →
    ConversationalFeedbackViewer.audioUrlRef (ConversationalFeedbackViewer.refs s) = Some u.

(** Feedback viewer: the Start Recording button is on screen. *)
Definition cfv_start_visible (s : ConversationalFeedbackViewer.State) : bool :=
  ConversationalFeedbackViewer.learner_view s
  && negb (ConversationalFeedbackViewer.isSubmitted (ConversationalFeedbackViewer.hooks s))
  && negb (ConversationalFeedbackViewer.isRecording (ConversationalFeedbackViewer.hooks s))
  && bool_decide (ConversationalFeedbackViewer.audioBlob
                    (ConversationalFeedbackViewer.hooks s) = None).

(** Capture surface with an unchanging [maxDuration = N]: every timer was
    started under [N], and the clock is within [0, N]. *)
Definition aic_clock_inv (N : Z) (s : AudioInputComponent.State) : Prop :=
  AudioInputComponent.maxDuration s = N
  ∧ AudioInputComponent.c_maxDuration (AudioInputComponent.startRecording_memo s) = N
  ∧ Forall (λ iv, AudioInputComponent.c_maxDuration (AudioInputComponent.iv_closure iv) = N)
           (AudioInputComponent.intervals (AudioInputComponent.env s))
  ∧ (0 ≤ AudioInputComponent.recordingTime (AudioInputComponent.hooks s) ≤ N)%Z.

End Support.

(** * Properties *)

Lemma replicate_snoc {A} (n : nat) (x : A) : replicate (S n) x = replicate n x ++ [x].
Proof. induction n as [|n IH]; simpl in *; [done | by rewrite <- IH]. Qed.

(** ** The duration timer *)

Section DurationTimer.

Import Recording.

(** A tick while recording moves the clock and changes nothing else:
    the [stopRecording] it calls sees [isRecording = false]. *)
Lemma aic_tick N b t :
  AIC.step (AIC.Tick 0) (aic_recording N b t)
  = aic_recording N b (if (N <=? t + 1)%Z then N else (t + 1)%Z).
Proof.
  unfold AIC.step, aic_recording; simpl.
  unfold AIC.interval_callback; simpl.
  destruct (N <=? t + 1)%Z; reflexivity.
Qed.

(** On the capture surface the clock itself stops at the maximum. *)
Lemma aic_clock_clamped N b k :
  (0 < N)%Z →
  AIC.run (aic_unattended k) (AIC.mount N b)
  = aic_recording N b (Z.min (Z.of_nat k) N).
Proof.
  intros HN. unfold aic_unattended, AIC.run.
  induction k as [|k IH].
  - simpl. by rewrite Z.min_l by lia.
  - rewrite replicate_snoc, app_comm_cons, foldl_app, IH.
    cbn [foldl]. rewrite aic_tick. f_equal.
    destruct (Z.leb_spec N (Z.min (Z.of_nat k) N + 1)); lia.
Qed.

Example aic_unattended_three_seconds :
  AIC.run (aic_unattended 5) (AIC.mount 3 false) = aic_recording 3 false 3.
Proof. reflexivity. Qed.

Example cfv_unattended_three_seconds :
  let c := CFV.mkConfig 3 (CFV.mkFeedbackRubric []) in
  CFV.run (cfv_unattended c 5) (CFV.mount (CFV.mkProps "t1" "u1" false false false))
  = cfv_recording (CFV.mkProps "t1" "u1" false false false) c 5.
Proof. reflexivity. Qed.

Lemma aic_ticks N b k :
  ∃ t, AIC.run (aic_unattended k) (AIC.mount N b) = aic_recording N b t.
Proof.
  unfold aic_unattended, AIC.run.
  induction k as [|k [t IH]].
  - exists 0%Z. reflexivity.
  - rewrite replicate_snoc, app_comm_cons, foldl_app, IH.
    eexists. apply aic_tick.
Qed.

Lemma cfv_tick p c t :
  CFV.step (CFV.Tick 0) (cfv_recording p c t) = cfv_recording p c (t + 1).
Proof.
  unfold CFV.step, cfv_recording; simpl.
  unfold CFV.interval_callback.
  destruct (CFV.duration_limit _ <=? _)%Z; reflexivity.
Qed.

Lemma cfv_ticks p c k :
  CFV.run (cfv_unattended c k) (CFV.mount p) = cfv_recording p c (Z.of_nat k).
Proof.
  unfold cfv_unattended, CFV.run.
  induction k as [|k IH].
  - unfold cfv_recording. simpl. unfold CFV.task_loaded. simpl.
    by destruct (CFV.isAdminView p).
  - rewrite replicate_snoc, !app_comm_cons, foldl_app, IH.
    cbn [foldl]. rewrite cfv_tick. f_equal. lia.
Qed.

(** C1 (fails on the code).  On both recording surfaces a recording that
    is started and never stopped by hand is never stopped by the timer:
    after any number of ticks the surface is still recording, holds no
    artifact, and its recorder and microphone track are still live.  On
    the feedback viewer the clock moreover shows the number of ticks,
    whatever the configured maximum. *)
Theorem unattended_recording_never_captured :
  (∀ N b k,
      let s := AIC.run (aic_unattended k) (AIC.mount N b) in
      AIC.isRecording (AIC.hooks s) = true
      ∧ AIC.audioBlob (AIC.hooks s) = None
      ∧ AIC.captures (AIC.env s) = [mkCapture recording false 0])
  ∧ (∀ p c k,
      let s := CFV.run (cfv_unattended c k) (CFV.mount p) in
      CFV.isRecording (CFV.hooks s) = true
      ∧ CFV.audioBlob (CFV.hooks s) = None
      ∧ CFV.sessions (CFV.env s) = [CFV.mkSession (mkCapture recording false 0) []]
      ∧ CFV.recordingDuration (CFV.hooks s) = Z.of_nat k).
Proof.
  split.
  - intros N b k s. subst s. destruct (aic_ticks N b k) as [t ->]. by simpl.
  - intros p c k s. subst s. rewrite cfv_ticks. by simpl.
Qed.

End DurationTimer.

(** ** Teardown *)

Section Teardown.

Import Recording.

Lemma aic_unmount_captures s :
  AIC.captures (AIC.env (AIC.unmount s)) = AIC.captures (AIC.env s).
Proof.
  unfold AIC.unmount.
  destruct (AIC.recordingIntervalRef (AIC.refs s)); simpl;
    destruct (AIC.audioElementRef (AIC.refs s)); reflexivity.
Qed.

Lemma cfv_unmount_sessions s :
  CFV.sessions (CFV.env (CFV.unmount s)) = CFV.sessions (CFV.env s).
Proof.
  unfold CFV.unmount.
  destruct (CFV.audioUrlRef (CFV.refs s)); simpl;
    destruct (CFV.recordingIntervalRef (CFV.refs s)); reflexivity.
Qed.

(** C3 (fails on the code).  The unmount cleanup of either surface never
    touches a recorder or a stream; torn down right after a recording
    started, the surface leaves its one recorder recording and its
    microphone track live, with no [track.stop()] performed.  (A discard,
    which is offered only after the recorder's 'stop' event, finds the
    track stopped exactly once and leaves it so.) *)
Theorem teardown_mid_recording_keeps_microphone :
  (∀ s, AIC.captures (AIC.env (AIC.unmount s)) = AIC.captures (AIC.env s))
  ∧ (∀ s, CFV.sessions (CFV.env (CFV.unmount s)) = CFV.sessions (CFV.env s))
  ∧ (∀ N b,
       let s := AIC.run [AIC.ClickStart granted; AIC.Unmount] (AIC.mount N b) in
       AIC.captures (AIC.env s) = [mkCapture recording false 0]
       ∧ track_live <$> AIC.captures (AIC.env s) = [true])
  ∧ (∀ p,
       let s := CFV.run [CFV.ClickStart granted; CFV.Unmount] (CFV.mount p) in
       CFV.sessions (CFV.env s) = [CFV.mkSession (mkCapture recording false 0) []]
       ∧ track_live ∘ CFV.capture <$> CFV.sessions (CFV.env s) = [true])
  ∧ (∀ N b,
       AIC.captures (AIC.env (AIC.run (aic_silent_take ++ [AIC.ClickRecordAgain])
                                      (AIC.mount N b)))
       = [mkCapture inactive false 1])
  ∧ (∀ p,
       CFV.sessions (CFV.env (CFV.run [CFV.ClickStart granted; CFV.ClickStop;
                                       CFV.StopEvent 0; CFV.ClickRecordAgain]
                                      (CFV.mount p)))
       = [CFV.mkSession (mkCapture inactive false 1) []]).
Proof.
  split; [exact aic_unmount_captures|].
  split; [exact cfv_unmount_sessions|].
  repeat split.
Qed.

End Teardown.

(** ** Stopping *)

Section Stop.

Import Recording.

Lemma aic_stop_idem s : AIC.stopRecording (AIC.stopRecording s) = AIC.stopRecording s.
Proof.
  unfold AIC.stopRecording, AIC.stopRecording_closure.
  destruct s as [m i [ir ab rt ip ct du sd] [mr ch ri ae] memo e]; simpl.
  destruct mr as [r|]; [|reflexivity].
  destruct ir; [|reflexivity]. simpl.
  destruct ri; reflexivity.
Qed.

Lemma cfv_stop_idem s : CFV.stopRecording (CFV.stopRecording s) = CFV.stopRecording s.
Proof.
  unfold CFV.stopRecording, CFV.stopRecording_closure.
  destruct s as [p [cf il er ir ab rd ip ipr fb isb] [mr ar ri au] e]; simpl.
  destruct mr as [r|]; [|reflexivity].
  destruct ir; [|reflexivity]. simpl.
  destruct ri; reflexivity.
Qed.

(** A manual stop of the recording on capture [r], followed by what the
    recorder then delivers: the data it gathered and its 'stop' event. *)
Lemma aic_stop_then_event s r c data :
  AIC.mediaRecorderRef (AIC.refs s) = Some r →
  AIC.isRecording (AIC.hooks s) = true →
  AIC.captures (AIC.env s) !! r = Some c →
  rec_state c = recording →
  let s1 := AIC.run [AIC.ClickStop; AIC.DataAvailable r data; AIC.StopEvent r] s in
  AIC.isRecording (AIC.hooks s1) = false
  ∧ AIC.audioBlob (AIC.hooks s1)
    = Some (new_Blob (AIC.audioChunksRef (AIC.refs s)
                        ++ (if decide (0 < blob_size data) then [data] else []))
                     "audio/webm")
  ∧ AIC.captures (AIC.env s1) !! r = Some (mkCapture inactive false (S (track_stops c))).
Proof.
  destruct s as [m i [ir ab rt ip ct du sd] [mr ch ri ae] memo [caps ivs aus]].
  simpl. intros -> -> Hc Hrec.
  unfold AIC.stopRecording, AIC.stopRecording_closure. simpl.
  assert (Hl : alter recorder_stop r caps !! r
               = Some (mkCapture inactive true (track_stops c))).
  { rewrite list_lookup_alter_eq, Hc. simpl. unfold recorder_stop. by rewrite Hrec. }
  unfold AIC.ondataavailable.
  destruct ri as [j|]; simpl; rewrite Hl; simpl;
    destruct (decide (0 < blob_size data)); simpl; rewrite Hl; simpl;
    rewrite ?app_nil_r;
    (split; [reflexivity|]; split; [reflexivity|]);
    rewrite !list_lookup_alter_eq, Hc; simpl;
    unfold recorder_stop; rewrite Hrec; reflexivity.
Qed.

Lemma cfv_stop_then_event s r x data :
  CFV.mediaRecorderRef (CFV.refs s) = Some r →
  CFV.isRecording (CFV.hooks s) = true →
  CFV.sessions (CFV.env s) !! r = Some x →
  rec_state (CFV.capture x) = recording →
  let s1 := CFV.run [CFV.ClickStop; CFV.DataAvailable r data; CFV.StopEvent r] s in
  CFV.isRecording (CFV.hooks s1) = false
  ∧ CFV.audioBlob (CFV.hooks s1)
    = Some (new_Blob (CFV.audioChunks x ++ [data]) "audio/webm")
  ∧ CFV.sessions (CFV.env s1) !! r
    = Some (CFV.mkSession (mkCapture inactive false (S (track_stops (CFV.capture x))))
                          (CFV.audioChunks x ++ [data])).
Proof.
  destruct s as [p [cf il er ir ab rd ip ipr fb isb] [mr ar ri au]
                   [ss ivs aus us rq cl mc]].
  simpl. intros -> -> Hx Hrec.
  unfold CFV.stopRecording, CFV.stopRecording_closure. simpl.
  assert (Hl : alter (CFV.with_capture recorder_stop) r ss !! r
               = Some (CFV.mkSession (mkCapture inactive true (track_stops (CFV.capture x)))
                                     (CFV.audioChunks x))).
  { rewrite list_lookup_alter_eq, Hx. simpl.
    unfold CFV.with_capture, recorder_stop. by rewrite Hrec. }
  assert (Hl' : ∀ data,
             alter (λ y, CFV.mkSession (CFV.capture y) (CFV.audioChunks y ++ [data])) r
                   (alter (CFV.with_capture recorder_stop) r ss) !! r
             = Some (CFV.mkSession (mkCapture inactive true (track_stops (CFV.capture x)))
                                   (CFV.audioChunks x ++ [data]))).
  { intros d. by rewrite list_lookup_alter_eq, Hl. }
  destruct ri as [j|], au as [u|]; simpl; rewrite Hl; simpl;
    unfold CFV.ondataavailable; simpl; rewrite Hl'; simpl;
    unfold CFV.onstop; simpl;
    (split; [reflexivity|]; split; [reflexivity|]);
    rewrite 2!list_lookup_alter_eq, Hl'; reflexivity.
Qed.

(** Once a surface is not recording and the 'stop' event of capture [r]
    is not queued, neither a stop nor that event changes anything. *)
Lemma aic_stopped_fixed s r c :
  AIC.isRecording (AIC.hooks s) = false →
  AIC.captures (AIC.env s) !! r = Some c →
  stop_pending c = false →
  AIC.stopRecording s = s ∧ AIC.step (AIC.StopEvent r) s = s.
Proof.
  intros Hir Hc Hp. split.
  - unfold AIC.stopRecording, AIC.stopRecording_closure. rewrite Hir.
    by destruct (AIC.mediaRecorderRef _).
  - simpl. by rewrite Hc, Hp.
Qed.

Lemma cfv_stopped_fixed s r x :
  CFV.isRecording (CFV.hooks s) = false →
  CFV.sessions (CFV.env s) !! r = Some x →
  stop_pending (CFV.capture x) = false →
  CFV.stopRecording s = s ∧ CFV.step (CFV.StopEvent r) s = s.
Proof.
  intros Hir Hx Hp. split.
  - unfold CFV.stopRecording, CFV.stopRecording_closure. rewrite Hir.
    by destruct (CFV.mediaRecorderRef _).
  - simpl. by rewrite Hx, Hp.
Qed.

(** C6.  Stopping is idempotent on both surfaces: a second call of the
    stop handler changes nothing.  For a recording in progress on
    capture [r], the first stop, followed by the data and the 'stop' event
    the recorder then delivers, leaves the surface not recording, holding
    the blob of the chunks recorded, with [track.stop()] performed once
    more than before; a second stop, and a second delivery attempt of the
    'stop' event, leave that state, its artifact and its release count as
    they are. *)
Theorem stop_is_idempotent :
  (∀ s, AIC.stopRecording (AIC.stopRecording s) = AIC.stopRecording s)
  ∧ (∀ s, CFV.stopRecording (CFV.stopRecording s) = CFV.stopRecording s)
  ∧ (∀ s r c data,
       AIC.mediaRecorderRef (AIC.refs s) = Some r →
       AIC.isRecording (AIC.hooks s) = true →
       AIC.captures (AIC.env s) !! r = Some c →
       rec_state c = recording →
       let s1 := AIC.run [AIC.ClickStop; AIC.DataAvailable r data; AIC.StopEvent r] s in
       let s2 := AIC.run [AIC.ClickStop; AIC.StopEvent r] s1 in
       AIC.audioBlob (AIC.hooks s1)
       = Some (new_Blob (AIC.audioChunksRef (AIC.refs s)
                           ++ (if decide (0 < blob_size data) then [data] else []))
                        "audio/webm")
       ∧ AIC.captures (AIC.env s1) !! r
         = Some (mkCapture inactive false (S (track_stops c)))
       ∧ AIC.stopRecording s1 = s1
       ∧ s2 = s1)
  ∧ (∀ s r x data,
       CFV.mediaRecorderRef (CFV.refs s) = Some r →
       CFV.isRecording (CFV.hooks s) = true →
       CFV.sessions (CFV.env s) !! r = Some x →
       rec_state (CFV.capture x) = recording →
       let s1 := CFV.run [CFV.ClickStop; CFV.DataAvailable r data; CFV.StopEvent r] s in
       let s2 := CFV.run [CFV.ClickStop; CFV.StopEvent r] s1 in
       CFV.audioBlob (CFV.hooks s1)
       = Some (new_Blob (CFV.audioChunks x ++ [data]) "audio/webm")
       ∧ CFV.sessions (CFV.env s1) !! r
         = Some (CFV.mkSession
                   (mkCapture inactive false (S (track_stops (CFV.capture x))))
                   (CFV.audioChunks x ++ [data]))
       ∧ CFV.stopRecording s1 = s1
       ∧ s2 = s1).
Proof.
  split; [exact aic_stop_idem|].
  split; [exact cfv_stop_idem|].
  split.
  - intros s r c data Hr Hir Hc Hrec s1 s2.
    destruct (aic_stop_then_event s r c data Hr Hir Hc Hrec) as (Hir1 & Hb & Hc1).
    fold s1 in Hir1, Hb, Hc1.
    destruct (aic_stopped_fixed s1 r _ Hir1 Hc1 eq_refl) as [Hs He].
    repeat split; [exact Hb | exact Hc1 | exact Hs |].
    subst s2. unfold AIC.run. cbn [foldl]. change (AIC.step AIC.ClickStop s1)
      with (AIC.stopRecording s1). by rewrite Hs, He.
  - intros s r x data Hr Hir Hx Hrec s1 s2.
    destruct (cfv_stop_then_event s r x data Hr Hir Hx Hrec) as (Hir1 & Hb & Hx1).
    fold s1 in Hir1, Hb, Hx1.
    destruct (cfv_stopped_fixed s1 r _ Hir1 Hx1 eq_refl) as [Hs He].
    repeat split; [exact Hb | exact Hx1 | exact Hs |].
    subst s2. unfold CFV.run. cbn [foldl]. change (CFV.step CFV.ClickStop s1)
      with (CFV.stopRecording s1). by rewrite Hs, He.
Qed.

(** The theorem at a recording that has run for five seconds. *)
Lemma stop_is_idempotent_witness :
  let s := aic_recording 60 false 5 in
  let data := mkBlob [Byte.x1a; Byte.x45; Byte.xdf; Byte.xa3] "audio/webm;codecs=opus" in
  let s1 := AIC.run [AIC.ClickStop; AIC.DataAvailable 0 data; AIC.StopEvent 0] s in
  AIC.mediaRecorderRef (AIC.refs s) = Some 0
  ∧ AIC.isRecording (AIC.hooks s) = true
  ∧ AIC.captures (AIC.env s) !! 0 = Some (mkCapture recording false 0)
  ∧ AIC.audioBlob (AIC.hooks s1)
    = Some (mkBlob [Byte.x1a; Byte.x45; Byte.xdf; Byte.xa3] "audio/webm")
  ∧ AIC.captures (AIC.env s1) !! 0 = Some (mkCapture inactive false 1)
  ∧ AIC.run [AIC.ClickStop; AIC.StopEvent 0] s1 = s1.
Proof.
  intros s data s1.
  split; [reflexivity|]. split; [reflexivity|]. split; [reflexivity|].
  destruct stop_is_idempotent as (_ & _ & H & _).
  destruct (H s 0 (mkCapture recording false 0) data
              eq_refl eq_refl eq_refl eq_refl) as (Hb & Hc & _ & H2).
  split; [exact Hb|]. split; [exact Hc | exact H2].
Defined.

End Stop.

(** ** Choosing a file *)

Section FileUpload.

Import Recording.

(** C10.  A chosen file whose type does not start with ["audio/"]
    leaves the component as it is; one whose type does becomes the
    current audio artifact with the recorded time reset to zero, and
    nothing else changes.  Choosing no file changes nothing. *)
Theorem file_upload_accepts_only_audio (s : AIC.State) (f : Blob) :
  AIC.handleFileUpload None s = s
  ∧ (String.prefix "audio/" (blob_type f) = false →
     AIC.handleFileUpload (Some f) s = s)
  ∧ (String.prefix "audio/" (blob_type f) = true →
     let s' := AIC.handleFileUpload (Some f) s in
     AIC.audioBlob (AIC.hooks s') = Some f
     ∧ AIC.recordingTime (AIC.hooks s') = 0%Z
     ∧ AIC.isRecording (AIC.hooks s') = AIC.isRecording (AIC.hooks s)
     ∧ AIC.isPlaying (AIC.hooks s') = AIC.isPlaying (AIC.hooks s)
     ∧ AIC.currentTime (AIC.hooks s') = AIC.currentTime (AIC.hooks s)
     ∧ AIC.duration (AIC.hooks s') = AIC.duration (AIC.hooks s)
     ∧ AIC.showDeleteConfirmation (AIC.hooks s')
       = AIC.showDeleteConfirmation (AIC.hooks s)
     ∧ AIC.refs s' = AIC.refs s
     ∧ AIC.env s' = AIC.env s
     ∧ AIC.startRecording_memo s' = AIC.startRecording_memo s
     ∧ AIC.maxDuration s' = AIC.maxDuration s
     ∧ AIC.isSubmitting s' = AIC.isSubmitting s).
Proof.
  split; [reflexivity|]. unfold AIC.handleFileUpload.
  split; intros ->; [reflexivity|]. simpl. repeat split.
Qed.

Lemma file_upload_accepts_only_audio_witness :
  let s := AIC.mount 60 false in
  let mp3 := mkBlob [Byte.x49; Byte.x44; Byte.x33] "audio/mpeg" in
  let txt := mkBlob [Byte.x68; Byte.x69] "text/plain" in
  String.prefix "audio/" (blob_type mp3) = true
  ∧ String.prefix "audio/" (blob_type txt) = false
  ∧ AIC.audioBlob (AIC.hooks (AIC.handleFileUpload (Some mp3) s)) = Some mp3
  ∧ AIC.handleFileUpload (Some txt) s = s.
Proof.
  intros s mp3 txt.
  split; [reflexivity|]. split; [reflexivity|]. split.
  - destruct (file_upload_accepts_only_audio s mp3) as (_ & _ & H).
    destruct (H eq_refl) as [Hb _]. exact Hb.
  - destruct (file_upload_accepts_only_audio s txt) as (_ & H & _).
    exact (H eq_refl).
Defined.

End FileUpload.

(** ** Rubric scores on screen *)

Section Scores.

Import Recording Support.

Lemma render_rows (l : list RS.CriterionScore) i e :
  l !! i = Some e →
  RS.render (Some l) = RS.Scorecard (RS.render_score <$> l)
  ∧ (RS.render_score <$> l) !! i = Some (RS.render_score e).
Proof.
  intros Hi. split.
  - destruct l; [by rewrite lookup_nil in Hi | reflexivity].
  - by rewrite list_lookup_fmap, Hi.
Qed.

Lemma normalize_lookup (raw : list EvaluationModel.RawScore) i r :
  raw !! i = Some r →
  EvaluationModel.normalize raw !! i = Some (EvaluationModel.normalize_score r).
Proof. intros Hi. unfold EvaluationModel.normalize. by rewrite list_lookup_fmap, Hi. Qed.

Lemma scorecard_refines_normalize (l : list RS.CriterionScore) :
  Forall2 scorecard_shows (RS.render_score <$> l)
          (EvaluationModel.normalize (EvaluationModel.CriterionShape <$> l)).
Proof.
  unfold EvaluationModel.normalize. induction l as [|e l IH]; [constructor|].
  rewrite !fmap_cons. constructor; [by repeat split | exact IH].
Qed.

Lemma viewer_refines_normalize (l : list CFV.CriteriaScore) :
  Forall2 viewer_shows (CFV.render_criterion <$> l)
          (EvaluationModel.normalize (EvaluationModel.NameShape <$> l)).
Proof.
  unfold EvaluationModel.normalize. induction l as [|e l IH]; [constructor|].
  rewrite !fmap_cons. constructor; [by repeat split | exact IH].
Qed.

(** C2.  The projection of the specification keeps every raw entry, in
    either shape, at its position with its own score and feedback (so a
    score of 4 with a non-empty feedback stays a score of 4 with that
    feedback), and the two components show exactly the canonical entries
    of their shape, in order: the scorecard the score over the scale 5,
    the feedback, the references and the label of the name; the viewer
    the name, the score over [maxScore] and the feedback. *)
Theorem both_score_shapes_are_projected :
  (∀ (raw : list EvaluationModel.RawScore) i r,
      raw !! i = Some r →
      length (EvaluationModel.normalize raw) = length raw
      ∧ ∃ c, EvaluationModel.normalize raw !! i = Some c
             ∧ EvaluationModel.score c = raw_score r
             ∧ EvaluationModel.feedback c = raw_feedback r
             ∧ (raw_score r = 4%Q → raw_feedback r ≠ ""%string →
                EvaluationModel.score c = 4%Q
                ∧ EvaluationModel.feedback c ≠ ""%string))
  ∧ (∀ (e : RS.CriterionScore) (l : list RS.CriterionScore),
      ∃ rows,
        RS.render (Some (e :: l)) = RS.Scorecard rows
        ∧ Forall2 scorecard_shows rows
            (EvaluationModel.normalize (EvaluationModel.CriterionShape <$> e :: l)))
  ∧ (∀ f : CFV.FeedbackResult,
      Forall2 viewer_shows (CFV.render_criteriaScores f)
        (EvaluationModel.normalize
           (EvaluationModel.NameShape <$> CFV.criteriaScores (CFV.fr_feedback f)))).
Proof.
  split; [|split].
  - intros raw i r Hi. split.
    + unfold EvaluationModel.normalize. apply length_fmap.
    + exists (EvaluationModel.normalize_score r).
      split; [by apply normalize_lookup|].
      destruct r as [e|e]; simpl; repeat split; try done; by intros -> ?.
  - intros e l. exists (RS.render_score <$> e :: l).
    split; [reflexivity | apply scorecard_refines_normalize].
  - intros f. apply viewer_refines_normalize.
Qed.

Lemma both_score_shapes_are_projected_witness :
  let e1 := RS.mkCriterionScore "content" 4%Q "x" [] in
  let e2 := CFV.mkCriteriaScore "Content Quality" 4%Q 5%Q "x" in
  let f := CFV.mkFeedbackResult "x" (CFV.mkFeedback [] [] [] 82%Q [e2]) in
  EvaluationModel.normalize
    [EvaluationModel.CriterionShape e1; EvaluationModel.NameShape e2]
  = [EvaluationModel.mkCriterion "content" 4%Q 5%Q "x" [];
     EvaluationModel.mkCriterion "Content Quality" 4%Q 5%Q "x" []]
  ∧ (∃ row, RS.render (Some [e1]) = RS.Scorecard [row]
            ∧ RS.row_label row = "Content Quality"%string
            ∧ RS.row_score row = 4%Q ∧ RS.row_scale row = 5%Q
            ∧ RS.row_feedback row = "x"%string)
  ∧ (∃ row, CFV.render_criteriaScores f = [row]
            ∧ CFV.row_name row = "Content Quality"%string
            ∧ CFV.row_score row = 4%Q ∧ CFV.row_maxScore row = 5%Q
            ∧ CFV.row_feedback row = "x"%string).
Proof.
  intros e1 e2 f.
  destruct both_score_shapes_are_projected as (_ & H2 & H3).
  split; [reflexivity|]. split.
  - destruct (H2 e1 []) as (rows & Hr & Hs).
    apply Forall2_cons_inv_r in Hs as (row & rows' & (Hl & Hsc & Hm & Hf & _) & Hn & ->).
    apply Forall2_nil_inv_r in Hn as ->.
    exists row. split; [exact Hr|]. split; [exact (Hl eq_refl)|]. by repeat split.
  - specialize (H3 f).
    apply Forall2_cons_inv_r in H3 as (row & rows' & (Hl & Hsc & Hm & Hf) & Hn & Hrows).
    apply Forall2_nil_inv_r in Hn as ->.
    exists row. by repeat split.
Defined.

(** C9.  Every entry in the criterion/score/feedback shape is shown with
    its own score over the fixed scale 5. *)
Theorem criterion_shape_scored_out_of_five (l : list RS.CriterionScore) i e :
  l !! i = Some e →
  ∃ rows row,
    RS.render (Some l) = RS.Scorecard rows
    ∧ rows !! i = Some row
    ∧ RS.row_score row = RS.score e
    ∧ RS.row_scale row = 5%Q
    ∧ Forall (λ r, RS.row_scale r = 5%Q) rows.
Proof.
  intros Hi. destruct (render_rows l i e Hi) as [Hr Hrow].
  exists (RS.render_score <$> l), (RS.render_score e).
  repeat split; try done.
  apply Forall_fmap, Forall_true. by intros x.
Qed.

Lemma criterion_shape_scored_out_of_five_witness :
  let e := RS.mkCriterionScore "clarity" 3%Q "Mostly clear." ["so, um"%string] in
  ∃ rows row,
    RS.render (Some [e]) = RS.Scorecard rows
    ∧ rows !! 0 = Some row
    ∧ RS.row_score row = 3%Q
    ∧ RS.row_scale row = 5%Q.
Proof.
  intros e.
  destruct (criterion_shape_scored_out_of_five [e] 0 e eq_refl)
    as (rows & row & Hr & Hi & Hs & Hm & _).
  exists rows, row. by repeat split.
Defined.

End Scores.

(** ** Submission *)

Section Submission.

Import Recording.

Lemma aic_step_isSubmitting ev s :
  (∀ m b, ev ≠ AIC.Render m b) →
  AIC.isSubmitting (AIC.step ev s) = AIC.isSubmitting s.
Proof.
  intros Hev. destruct ev; simpl;
    unfold AIC.startRecording, AIC.stopRecording, AIC.stopRecording_closure,
      AIC.interval_callback, AIC.stopRecording_closure, AIC.ondataavailable,
      AIC.playAudio, AIC.pauseAudio, AIC.handleFileUpload, AIC.handleReset,
      AIC.confirmDelete, AIC.unmount;
    simpl; repeat case_match; simpl; try reflexivity.
  by destruct (Hev maxDuration' isSubmitting').
Qed.

Lemma im_rerender_synced w s : im_synced (IM.rerender w s).
Proof. unfold im_synced, IM.rerender, IM.input_rendered. simpl. by intros ->. Qed.

Lemma im_step_synced ev s : im_synced s → im_synced (IM.step ev s).
Proof.
  intros Hs. destruct ev as [ev| |i resp|i resp]; simpl.
  - destruct ev; try exact Hs;
      (destruct (IM.input_rendered s) eqn:Hr; [|exact Hs];
       intros _; unfold IM.with_input; cbn [IM.input IM.isSubmitting];
       rewrite aic_step_isSubmitting by discriminate; exact (Hs Hr)).
  - destruct (IM.input_rendered s); [|exact Hs].
    unfold IM.submit. destruct (AIC.handleSubmit _); [|exact Hs].
    apply im_rerender_synced.
  - unfold IM.upload_response.
    destruct (IM.calls s !! i) as [[]|]; try exact Hs.
    destruct resp; try apply im_rerender_synced. exact Hs.
  - unfold IM.evaluate_response.
    destruct (IM.calls s !! i) as [[]|]; try exact Hs.
    destruct resp; apply im_rerender_synced.
Qed.

Lemma im_run_synced evs q m oc : im_synced (IM.run evs (IM.mount q m oc)).
Proof.
  unfold IM.run. induction evs as [|ev evs IH] using rev_ind.
  - by intros _.
  - rewrite foldl_app. simpl. by apply im_step_synced.
Qed.

(** With the child in step with the parent, a click on Submit while
    [isSubmitting] does nothing. *)
Lemma im_click_while_submitting s :
  im_synced s → IM.isSubmitting s = true → IM.click_submit s = s.
Proof.
  intros Hs Hsub. unfold IM.click_submit, IM.submit_enabled.
  destruct (IM.input_rendered s) eqn:Hr; [|reflexivity].
  rewrite (Hs Hr), Hsub. simpl. by rewrite andb_false_r.
Qed.

(** A failed call on the interview surface: the flag is cleared and
    neither blob is touched. *)
Lemma im_call_failed_frame i s :
  let s' := IM.call_failed i s in
  IM.isSubmitting s' = false
  ∧ IM.audioBlob s' = IM.audioBlob s
  ∧ AIC.hooks (IM.input s') = AIC.hooks (IM.input s)
  ∧ AIC.refs (IM.input s') = AIC.refs (IM.input s)
  ∧ AIC.env (IM.input s') = AIC.env (IM.input s)
  ∧ IM.requests s' = IM.requests s
  ∧ IM.evaluation s' = IM.evaluation s.
Proof.
  unfold IM.call_failed, IM.rerender, IM.input_rendered. simpl.
  destruct (IM.evaluation s); simpl; repeat split.
Qed.

Lemma im_handleAudioSubmit_requests b s :
  IM.requests (IM.handleAudioSubmit b s)
  = IM.requests s ++ [IM.UploadLocal b "interview_response.wav" "audio/wav"].
Proof. reflexivity. Qed.

(** After a failed call the Submit button is live again and a click
    sends the blob the child still holds. *)
Lemma im_retry_after_failure i s b :
  IM.evaluation s = None →
  AIC.audioBlob (AIC.hooks (IM.input s)) = Some b →
  let s' := IM.call_failed i s in
  IM.submit_enabled s' = true
  ∧ IM.requests (IM.click_submit s')
    = IM.requests s ++ [IM.UploadLocal b "interview_response.wav" "audio/wav"].
Proof.
  intros He Hb s'.
  assert (Hen : IM.submit_enabled s' = true).
  { unfold IM.submit_enabled, s', IM.call_failed, IM.rerender, IM.input_rendered.
    simpl. rewrite He. simpl. rewrite Hb. reflexivity. }
  split; [exact Hen|].
  unfold IM.click_submit. rewrite Hen.
  unfold IM.submit, AIC.handleSubmit.
  destruct (im_call_failed_frame i s) as (_ & _ & Hh & _ & _ & Hq & _).
  fold s' in Hh, Hq. rewrite Hh, Hb.
  by rewrite im_handleAudioSubmit_requests, Hq.
Qed.

Lemma cfv_click_while_processing s :
  CFV.isProcessing (CFV.hooks s) = true → CFV.click_submit s = s.
Proof.
  intros Hp. unfold CFV.click_submit, CFV.submit_enabled.
  by rewrite Hp, andb_false_r.
Qed.

Lemma im_upload_failed i resp s :
  failed resp = true →
  IM.upload_response i resp s
  = match IM.calls s !! i with
    | Some IM.AwaitUpload => IM.call_failed i s
    | _ => s
    end.
Proof.
  intros Hf. unfold IM.upload_response.
  destruct (IM.calls s !! i) as [[]|]; try reflexivity.
  by destruct resp.
Qed.

Lemma im_evaluate_failed i resp s :
  failed resp = true →
  IM.evaluate_response i resp s
  = match IM.calls s !! i with
    | Some IM.AwaitEvaluate => IM.call_failed i s
    | _ => s
    end.
Proof.
  intros Hf. unfold IM.evaluate_response.
  destruct (IM.calls s !! i) as [[]|]; try reflexivity.
  by destruct resp.
Qed.

(** A failed analysis on the feedback viewer touches only [error],
    [isProcessing] and the call's own entry. *)
Lemma cfv_analyze_failed_frame i resp s :
  failed resp = true →
  let s' := CFV.analyze_response i resp s in
  CFV.audioBlob (CFV.hooks s') = CFV.audioBlob (CFV.hooks s)
  ∧ CFV.config (CFV.hooks s') = CFV.config (CFV.hooks s)
  ∧ CFV.refs s' = CFV.refs s
  ∧ CFV.urls (CFV.env s') = CFV.urls (CFV.env s)
  ∧ CFV.sessions (CFV.env s') = CFV.sessions (CFV.env s)
  ∧ CFV.audios (CFV.env s') = CFV.audios (CFV.env s)
  ∧ CFV.requests (CFV.env s') = CFV.requests (CFV.env s)
  ∧ CFV.props s' = CFV.props s.
Proof.
  intros Hf. unfold CFV.analyze_response.
  destruct (CFV.calls (CFV.env s) !! i) as [[]|]; simpl; try by repeat split.
  destruct resp; try discriminate; simpl; by repeat split.
Qed.

Lemma cfv_submit_requests s b c :
  CFV.audioBlob (CFV.hooks s) = Some b →
  CFV.config (CFV.hooks s) = Some c →
  CFV.requests (CFV.env (CFV.submitRecording s))
  = CFV.requests (CFV.env s)
      ++ [CFV.Analyze b "recording.webm" (CFV.taskId (CFV.props s))
                      (CFV.userId (CFV.props s)) (CFV.rubric c)]
  ∧ CFV.isProcessing (CFV.hooks (CFV.submitRecording s)) = true.
Proof. intros Hb Hc. unfold CFV.submitRecording. by rewrite Hb, Hc. Qed.

(** C4 as stated fails: the blob of a recording without any data has
    zero bytes, and submitting it sends a request on either surface. *)
Lemma empty_recording_is_submitted :
  let s := IM.run im_silent_take (IM.mount "Tell me about yourself." 60 false) in
  let c := CFV.mkConfig 120 (CFV.mkFeedbackRubric []) in
  let s' := CFV.run (cfv_silent_take c) (CFV.mount (CFV.mkProps "t1" "u1" false false false)) in
  blob_size empty_recording = 0
  ∧ AIC.audioBlob (AIC.hooks (IM.input s)) = Some empty_recording
  ∧ IM.requests (IM.click_submit s) ≠ IM.requests s
  ∧ CFV.audioBlob (CFV.hooks s') = Some empty_recording
  ∧ CFV.requests (CFV.env (CFV.click_submit s')) ≠ CFV.requests (CFV.env s').
Proof. repeat split; try reflexivity; discriminate. Qed.

(** C4, amended.  Submitting is skipped only when there is nothing to
    submit: without a blob (on the feedback viewer also without a loaded
    configuration) the handler sends nothing and changes nothing.  A blob
    that is present is sent whatever its size, and the surface goes into
    its submitting state. *)
Theorem submit_skips_only_missing_artifact :
  (∀ s, AIC.audioBlob (AIC.hooks (IM.input s)) = None →
        IM.submit s = s ∧ IM.click_submit s = s)
  ∧ (∀ s b, AIC.audioBlob (AIC.hooks (IM.input s)) = Some b →
        IM.requests (IM.submit s)
        = IM.requests s ++ [IM.UploadLocal b "interview_response.wav" "audio/wav"]
        ∧ IM.isSubmitting (IM.submit s) = true)
  ∧ (∀ s, CFV.audioBlob (CFV.hooks s) = None ∨ CFV.config (CFV.hooks s) = None →
        CFV.submitRecording s = s)
  ∧ (∀ s b c, CFV.audioBlob (CFV.hooks s) = Some b →
        CFV.config (CFV.hooks s) = Some c →
        CFV.requests (CFV.env (CFV.submitRecording s))
        = CFV.requests (CFV.env s)
            ++ [CFV.Analyze b "recording.webm" (CFV.taskId (CFV.props s))
                            (CFV.userId (CFV.props s)) (CFV.rubric c)]
        ∧ CFV.isProcessing (CFV.hooks (CFV.submitRecording s)) = true).
Proof.
  split; [|split; [|split]].
  - intros s Hb. unfold IM.click_submit, IM.submit, AIC.handleSubmit.
    rewrite Hb. split; [reflexivity | by destruct (IM.submit_enabled s)].
  - intros s b Hb. unfold IM.submit, AIC.handleSubmit. by rewrite Hb.
  - intros s [Hb|Hc]; unfold CFV.submitRecording.
    + by rewrite Hb.
    + rewrite Hc. by destruct (CFV.audioBlob _).
  - exact cfv_submit_requests.
Qed.

Lemma submit_skips_only_missing_artifact_witness :
  let s0 := IM.mount "Tell me about yourself." 60 false in
  let s := IM.run im_silent_take s0 in
  AIC.audioBlob (AIC.hooks (IM.input s0)) = None
  ∧ IM.submit s0 = s0
  ∧ AIC.audioBlob (AIC.hooks (IM.input s)) = Some empty_recording
  ∧ IM.requests (IM.submit s)
    = [IM.UploadLocal empty_recording "interview_response.wav" "audio/wav"].
Proof.
  intros s0 s.
  destruct submit_skips_only_missing_artifact as (H1 & H2 & _).
  split; [reflexivity|]. split; [exact (proj1 (H1 s0 eq_refl))|].
  split; [reflexivity|]. exact (proj1 (H2 s empty_recording eq_refl)).
Defined.

(** *** At most one submission in flight *)

Section InFlight.

Context {C : Type} (f : C → bool).
Implicit Types (l : list C) (i j k : nat) (c d x : C).

Lemma none_one l : none_in_flight f l → one_in_flight f l.
Proof. intros Hn i j c c' Hi _ Hc _. rewrite (Hn i c Hi) in Hc. discriminate. Qed.

Lemma none_in_flight_snoc l x i c :
  none_in_flight f l → (l ++ [x]) !! i = Some c → f c = true → i = length l ∧ c = x.
Proof.
  intros Hn Hi Hc. destruct (decide (i < length l)) as [Hlt|Hge].
  - rewrite lookup_app_l in Hi by done. rewrite (Hn i c Hi) in Hc. discriminate.
  - rewrite lookup_app_r in Hi by lia.
    destruct (i - length l) as [|k] eqn:Hk; simpl in Hi; [|by destruct k].
    injection Hi as <-. split; [lia | done].
Qed.

Lemma one_in_flight_snoc l x : none_in_flight f l → one_in_flight f (l ++ [x]).
Proof.
  intros Hn i j c c' Hi Hj Hc Hc'.
  destruct (none_in_flight_snoc l x i c Hn Hi Hc) as [-> _].
  destruct (none_in_flight_snoc l x j c' Hn Hj Hc') as [-> _]. done.
Qed.

Lemma one_in_flight_snoc_idle l x :
  f x = false → one_in_flight f l → one_in_flight f (l ++ [x]).
Proof.
  intros Hx Hl i j c c' Hi Hj Hc Hc'.
  assert (Hold : ∀ k d, (l ++ [x]) !! k = Some d → f d = true → l !! k = Some d).
  { intros k d Hk Hd. destruct (decide (k < length l)) as [Hlt|Hge].
    - by rewrite lookup_app_l in Hk.
    - rewrite lookup_app_r in Hk by lia.
      destruct (k - length l) as [|k']; simpl in Hk; [|by destruct k'].
      injection Hk as <-. congruence. }
  eapply Hl; eauto.
Qed.

Lemma in_flight_snoc_idle l x k d :
  f x = false → (l ++ [x]) !! k = Some d → f d = true → l !! k = Some d.
Proof.
  intros Hx Hk Hd. destruct (decide (k < length l)) as [Hlt|Hge].
  - by rewrite lookup_app_l in Hk.
  - rewrite lookup_app_r in Hk by lia.
    destruct (k - length l) as [|k']; simpl in Hk; [|by destruct k'].
    injection Hk as <-. congruence.
Qed.

(** The call in flight settles: nothing is in flight. *)
Lemma settle_in_flight l i c x :
  one_in_flight f l → l !! i = Some c → f c = true → f x = false →
  none_in_flight f (<[i:=x]> l).
Proof.
  intros Hl Hi Hc Hx j c' Hj.
  apply list_lookup_insert_Some in Hj as [(-> & <- & _)|[Hne Hj]]; [done|].
  destruct (f c') eqn:Hc'; [|done]. destruct Hne. by eapply Hl.
Qed.

(** The call in flight moves on, or an idle entry is rewritten to an
    idle one: the calls in flight stay where they were. *)
Lemma in_flight_insert l i c x j c' :
  l !! i = Some c → f c = f x →
  <[i:=x]> l !! j = Some c' → f c' = true →
  ∃ d, l !! j = Some d ∧ f d = true.
Proof.
  intros Hi Hcx Hj Hc'.
  apply list_lookup_insert_Some in Hj as [(-> & <- & _)|[Hne Hj]].
  - exists c. split; [done | congruence].
  - by exists c'.
Qed.

Lemma one_in_flight_insert l i c x :
  one_in_flight f l → l !! i = Some c → f c = f x → one_in_flight f (<[i:=x]> l).
Proof.
  intros Hl Hi Hcx j k c1 c2 Hj Hk H1 H2.
  destruct (in_flight_insert l i c x j c1 Hi Hcx Hj H1) as (d1 & Hd1 & Hf1).
  destruct (in_flight_insert l i c x k c2 Hi Hcx Hk H2) as (d2 & Hd2 & Hf2).
  by eapply Hl.
Qed.

End InFlight.

(** *** The interview surface through the page *)

Lemma im_flight_frame s s' :
  IM.calls s' = IM.calls s → IM.isSubmitting s' = IM.isSubmitting s →
  IM.evaluation s' = IM.evaluation s → im_synced s' →
  im_flight_inv s → im_flight_inv s'.
Proof.
  intros Hc Hs He Hsync (_ & H2 & H3). unfold im_flight_inv.
  rewrite Hc, Hs, He. split; [exact Hsync|]. split; [exact H2 | exact H3].
Qed.

Lemma im_idle_when_not_submitting s :
  im_flight_inv s → IM.isSubmitting s = false → none_in_flight im_in_flight (IM.calls s).
Proof.
  intros (_ & H2 & _) Hs i c Hi. destruct (im_in_flight c) eqn:Hc; [|done].
  destruct (H2 i c Hi Hc) as [H _]. congruence.
Qed.

Lemma im_click_submit_flight s : im_flight_inv s → im_flight_inv (IM.click_submit s).
Proof.
  intros Hinv. unfold IM.click_submit.
  destruct (IM.submit_enabled s) eqn:Hen; [|exact Hinv].
  unfold IM.submit_enabled in Hen.
  apply andb_prop in Hen as [[Hr Hb]%andb_prop Hsub].
  apply negb_true_iff in Hsub. pose proof Hinv as (Hsync & _).
  rewrite (Hsync Hr) in Hsub.
  pose proof (im_idle_when_not_submitting s Hinv Hsub) as Hidle.
  unfold IM.submit. destruct (AIC.handleSubmit _) as [b|]; [|exact Hinv].
  assert (He : IM.evaluation s = None)
    by (unfold IM.input_rendered in Hr; by destruct (IM.evaluation s)).
  split; [apply im_rerender_synced|]. split.
  - intros i c Hi Hc. by split.
  - by apply one_in_flight_snoc.
Qed.

Lemma im_call_failed_flight i c s :
  im_flight_inv s → IM.calls s !! i = Some c → im_in_flight c = true →
  im_flight_inv (IM.call_failed i s)
  ∧ none_in_flight im_in_flight (IM.calls (IM.call_failed i s)).
Proof.
  intros (_ & H2 & H3) Hi Hc.
  assert (Hn : none_in_flight im_in_flight (<[i:=IM.Settled]> (IM.calls s)))
    by by eapply settle_in_flight.
  split; [|exact Hn].
  split; [apply im_rerender_synced|]. split.
  - intros j c' Hj Hc'. simpl in Hj. rewrite (Hn j c' Hj) in Hc'. discriminate.
  - by apply none_one.
Qed.

Lemma im_page_step_flight ev s : im_flight_inv s → im_flight_inv (IM.page_step ev s).
Proof.
  intros Hinv. destruct ev as [ev| |i resp|i resp].
  - apply (im_flight_frame s).
    + simpl. destruct ev; try done; by destruct (IM.input_rendered s).
    + simpl. destruct ev; try done; by destruct (IM.input_rendered s).
    + simpl. destruct ev; try done; by destruct (IM.input_rendered s).
    + apply (im_step_synced (IM.Input ev)), Hinv.
    + exact Hinv.
  - by apply im_click_submit_flight.
  - simpl. unfold IM.upload_response.
    destruct (IM.calls s !! i) as [[]|] eqn:Hi; try exact Hinv.
    destruct resp as [| |uuid];
      try (by eapply (im_call_failed_flight i IM.AwaitUpload)).
    destruct Hinv as (Hsync & H2 & H3). split; [exact Hsync|]. split.
    + intros j c' Hj Hc'. simpl in Hj.
      destruct (in_flight_insert im_in_flight _ i _ IM.AwaitEvaluate j c'
                  Hi eq_refl Hj Hc') as (d & Hd & Hfd).
      exact (H2 j d Hd Hfd).
    + by apply (one_in_flight_insert im_in_flight _ i IM.AwaitUpload).
  - simpl. unfold IM.evaluate_response.
    destruct (IM.calls s !! i) as [[]|] eqn:Hi; try exact Hinv.
    destruct resp as [| |result];
      try (by eapply (im_call_failed_flight i IM.AwaitEvaluate)).
    destruct Hinv as (Hsync & H2 & H3).
    assert (Hn : none_in_flight im_in_flight (<[i:=IM.Settled]> (IM.calls s)))
      by by eapply settle_in_flight.
    split; [apply im_rerender_synced|]. split.
    + intros j c' Hj Hc'. simpl in Hj. rewrite (Hn j c' Hj) in Hc'. discriminate.
    + by apply none_one.
Qed.

Lemma im_page_run_flight evs q m oc : im_flight_inv (IM.page_run evs (IM.mount q m oc)).
Proof.
  unfold IM.page_run. induction evs as [|ev evs IH] using rev_ind.
  - split; [by intros _|]. split; [by intros i c Hi | by intros i j c c' Hi].
  - rewrite foldl_app. by apply im_page_step_flight.
Qed.

(** *** The feedback viewer through the page *)

Lemma cfv_flight_frame s s' :
  CFV.calls (CFV.env s') = CFV.calls (CFV.env s) →
  CFV.isProcessing (CFV.hooks s') = CFV.isProcessing (CFV.hooks s) →
  cfv_flight_inv s → cfv_flight_inv s'.
Proof. unfold cfv_flight_inv. by intros -> ->. Qed.

Lemma cfv_idle_when_not_processing s :
  cfv_flight_inv s → CFV.isProcessing (CFV.hooks s) = false →
  none_in_flight cfv_in_flight (CFV.calls (CFV.env s)).
Proof.
  intros (H1 & _) Hs i c Hi. destruct (cfv_in_flight c) eqn:Hc; [|done].
  rewrite (H1 i c Hi Hc) in Hs. discriminate.
Qed.

Lemma cfv_click_submit_flight s : cfv_flight_inv s → cfv_flight_inv (CFV.click_submit s).
Proof.
  intros Hinv. unfold CFV.click_submit.
  destruct (CFV.submit_enabled s) eqn:Hen; [|exact Hinv].
  unfold CFV.submit_enabled in Hen. apply andb_prop in Hen as [_ Hp].
  apply negb_true_iff in Hp.
  pose proof (cfv_idle_when_not_processing s Hinv Hp) as Hidle.
  unfold CFV.submitRecording.
  destruct (CFV.audioBlob (CFV.hooks s)) as [b|]; [|exact Hinv].
  destruct (CFV.config (CFV.hooks s)) as [c|]; [|exact Hinv].
  split; [by intros i x Hi Hx | by apply one_in_flight_snoc].
Qed.

Lemma cfv_analyze_response_flight i resp s :
  cfv_flight_inv s → CFV.calls (CFV.env s) !! i = Some CFV.AwaitAnalyze →
  let s' := CFV.analyze_response i resp s in
  cfv_flight_inv s'
  ∧ none_in_flight cfv_in_flight (CFV.calls (CFV.env s'))
  ∧ CFV.isProcessing (CFV.hooks s') = false.
Proof.
  intros (H1 & H2) Hi s'.
  assert (Hn : none_in_flight cfv_in_flight (<[i:=CFV.Settled]> (CFV.calls (CFV.env s))))
    by by eapply settle_in_flight.
  assert (Hc : CFV.calls (CFV.env s') = <[i:=CFV.Settled]> (CFV.calls (CFV.env s))).
  { unfold s', CFV.analyze_response. rewrite Hi.
    destruct resp as [| |r]; simpl; try done. by destruct (CFV.onMarkComplete _). }
  split; [|split].
  - split; rewrite Hc; [|by apply none_one].
    intros j c Hj Hfc. rewrite (Hn j c Hj) in Hfc. discriminate.
  - by rewrite Hc.
  - unfold s', CFV.analyze_response. by rewrite Hi.
Qed.

Lemma cfv_page_step_flight ev s : cfv_flight_inv s → cfv_flight_inv (CFV.page_step ev s).
Proof.
  intros Hinv.
  destruct ev as [resp msg|um| |j|r data|r| | |a| | |i resp| |i'];
    try (apply (cfv_flight_frame s); [| |exact Hinv]; simpl;
         unfold CFV.task_loaded, CFV.startRecording, CFV.stopRecording,
           CFV.stopRecording_closure, CFV.interval_callback,
           CFV.stopRecording_closure, CFV.onstop, CFV.playAudio, CFV.pauseAudio,
           CFV.deleteRecording, CFV.unmount;
         repeat case_match; reflexivity).
  - simpl. unfold CFV.task_loaded. destruct Hinv as (H1 & H2).
    destruct resp as [| |[c|]]; try (by split).
    destruct (CFV.isAdminView (CFV.props s)); [|by split]. split.
    + intros i x Hi Hx. simpl in Hi.
      apply (H1 i x); [|exact Hx].
      exact (in_flight_snoc_idle cfv_in_flight (CFV.calls (CFV.env s))
               CFV.AwaitSubmissions i x eq_refl Hi Hx).
    + exact (one_in_flight_snoc_idle cfv_in_flight (CFV.calls (CFV.env s))
               CFV.AwaitSubmissions eq_refl H2).
  - by apply cfv_click_submit_flight.
  - simpl. destruct (CFV.calls (CFV.env s) !! i) as [[]|] eqn:Hi;
      try (unfold CFV.analyze_response; rewrite Hi; exact Hinv).
    by apply cfv_analyze_response_flight.
  - simpl. unfold CFV.submissions_loaded.
    destruct (CFV.calls (CFV.env s) !! i') as [[]|] eqn:Hi; try exact Hinv.
    destruct Hinv as (H1 & H2). split.
    + intros j c Hj Hc. simpl in Hj.
      destruct (in_flight_insert cfv_in_flight _ i' _ CFV.Settled j c
                  Hi eq_refl Hj Hc) as (d & Hd & Hfd).
      exact (H1 j d Hd Hfd).
    + by apply (one_in_flight_insert cfv_in_flight _ i' CFV.AwaitSubmissions).
Qed.

Lemma cfv_page_run_flight evs p : cfv_flight_inv (CFV.page_run evs (CFV.mount p)).
Proof.
  unfold CFV.page_run. induction evs as [|ev evs IH] using rev_ind.
  - split; [by intros i c Hi | by intros i j c c' Hi].
  - rewrite foldl_app. by apply cfv_page_step_flight.
Qed.



(** *** What the buttons do around a submission *)

Lemma im_disabled_in_flight s i c :
  im_flight_inv s → IM.calls s !! i = Some c → im_in_flight c = true →
  IM.isSubmitting s = true ∧ IM.evaluation s = None
  ∧ IM.submit_enabled s = false ∧ IM.click_submit s = s.
Proof.
  intros (Hsync & H2 & _) Hi Hc. destruct (H2 i c Hi Hc) as [Hsub He].
  split; [exact Hsub|]. split; [exact He|].
  assert (Hen : IM.submit_enabled s = false).
  { unfold IM.submit_enabled.
    assert (Hr : IM.input_rendered s = true) by (unfold IM.input_rendered; by rewrite He).
    rewrite (Hsync Hr), Hsub. simpl. by rewrite andb_false_r. }
  split; [exact Hen|]. unfold IM.click_submit. by rewrite Hen.
Qed.

Lemma im_evaluated_no_submit s :
  is_Some (IM.evaluation s) → IM.submit_enabled s = false ∧ IM.click_submit s = s.
Proof.
  intros [r Hr].
  assert (Hen : IM.submit_enabled s = false)
    by (unfold IM.submit_enabled, IM.input_rendered; by rewrite Hr).
  split; [exact Hen|]. unfold IM.click_submit. by rewrite Hen.
Qed.

Lemma cfv_submitted_no_submit s :
  CFV.isSubmitted (CFV.hooks s) = true →
  CFV.submit_enabled s = false ∧ CFV.click_submit s = s.
Proof.
  intros Hs.
  assert (Hen : CFV.submit_enabled s = false).
  { unfold CFV.submit_enabled. rewrite Hs. simpl.
    by rewrite andb_false_r. }
  split; [exact Hen|]. unfold CFV.click_submit. by rewrite Hen.
Qed.

Lemma cfv_disabled_while_processing s :
  CFV.isProcessing (CFV.hooks s) = true →
  CFV.submit_enabled s = false ∧ CFV.click_submit s = s.
Proof.
  intros Hp.
  assert (Hen : CFV.submit_enabled s = false)
    by (unfold CFV.submit_enabled; by rewrite Hp, andb_false_r).
  split; [exact Hen|]. unfold CFV.click_submit. by rewrite Hen.
Qed.

(** C5 as stated fails.  Through the page, on both surfaces: a second
    click while the first submission is in flight is not answered with
    an error, it changes nothing at all; and after the first submission
    resolved with success a new submit is not accepted, although the
    surface still holds the recording. *)
Lemma submit_after_success_is_not_accepted :
  let take := mkBlob [Byte.x1a; Byte.x45; Byte.xdf; Byte.xa3] "audio/webm" in
  let result := IM.mkInterviewEvaluation [] 4%Q [] "I am a developer."
                  (IM.mkSpeechAnalysis 4 0 120%Q 2%Q) 2%Q in
  let s1 := IM.page_run [IM.Input (AIC.ClickStart granted);
                         IM.Input (AIC.DataAvailable 0 take);
                         IM.Input AIC.ClickStop;
                         IM.Input (AIC.StopEvent 0);
                         IM.Submit]
                        (IM.mount "Tell me about yourself." 60 false) in
  let s2 := IM.page_run [IM.UploadResponse 0 (HttpOk "f1"%string);
                         IM.EvaluateResponse 0 (HttpOk result)] s1 in
  let c := CFV.mkConfig 120 (CFV.mkFeedbackRubric []) in
  let fb := CFV.mkFeedbackResult "I am a developer."
              (CFV.mkFeedback [] [] [] 82%Q []) in
  let v1 := CFV.page_run [CFV.TaskLoaded (HttpOk (Some c)) "none";
                          CFV.ClickStart granted;
                          CFV.DataAvailable 0 take;
                          CFV.ClickStop;
                          CFV.StopEvent 0;
                          CFV.Submit]
                         (CFV.mount (CFV.mkProps "t1" "u1" false false false)) in
  let v2 := CFV.page_step (CFV.AnalyzeResponse 0 (HttpOk fb)) v1 in
  (IM.calls s1 = [IM.AwaitUpload]
   ∧ IM.page_step IM.Submit s1 = s1
   ∧ CFV.calls (CFV.env v1) = [CFV.AwaitAnalyze]
   ∧ CFV.page_step CFV.Submit v1 = v1
   ∧ CFV.error (CFV.hooks v1) = None)
  ∧ (IM.calls s2 = [IM.Settled]
     ∧ IM.audioBlob s2 = Some take
     ∧ IM.submit_enabled s2 = false
     ∧ IM.page_step IM.Submit s2 = s2
     ∧ CFV.calls (CFV.env v2) = [CFV.Settled]
     ∧ CFV.audioBlob (CFV.hooks v2) = Some take
     ∧ CFV.submit_enabled v2 = false
     ∧ CFV.page_step CFV.Submit v2 = v2).
Proof. cbv zeta. repeat apply conj; vm_compute; reflexivity. Qed.

(** C5, amended.  Through the page at most one submission is in flight.
    While one is, the in-flight flag is set and the Submit button is
    disabled: a click starts no second submission and changes nothing.
    When the submission settles, with a result or with a failure, the
    flag is cleared and nothing is in flight.  After a success the
    results are shown and Submit is gone; after a failure the interview
    surface enables Submit again and a click sends the blob the capture
    child still holds. *)
Theorem submit_disabled_while_in_flight :
  (∀ evs q m oc i c,
      let s := IM.page_run evs (IM.mount q m oc) in
      IM.calls s !! i = Some c → im_in_flight c = true →
      one_in_flight im_in_flight (IM.calls s)
      ∧ IM.isSubmitting s = true
      ∧ IM.submit_enabled s = false
      ∧ IM.page_step IM.Submit s = s
      ∧ (∀ resp, c = IM.AwaitUpload → failed resp = true →
           let s' := IM.page_step (IM.UploadResponse i resp) s in
           IM.isSubmitting s' = false
           ∧ none_in_flight im_in_flight (IM.calls s')
           ∧ ∀ b, AIC.audioBlob (AIC.hooks (IM.input s)) = Some b →
                  IM.submit_enabled s' = true
                  ∧ IM.requests (IM.page_step IM.Submit s')
                    = IM.requests s
                        ++ [IM.UploadLocal b "interview_response.wav" "audio/wav"])
      ∧ (∀ resp, c = IM.AwaitEvaluate →
           let s' := IM.page_step (IM.EvaluateResponse i resp) s in
           IM.isSubmitting s' = false
           ∧ none_in_flight im_in_flight (IM.calls s')
           ∧ (failed resp = true →
              ∀ b, AIC.audioBlob (AIC.hooks (IM.input s)) = Some b →
                   IM.submit_enabled s' = true
                   ∧ IM.requests (IM.page_step IM.Submit s')
                     = IM.requests s
                         ++ [IM.UploadLocal b "interview_response.wav" "audio/wav"])
           ∧ (failed resp = false →
              IM.submit_enabled s' = false ∧ IM.page_step IM.Submit s' = s')))
  ∧ (∀ evs p i,
      let s := CFV.page_run evs (CFV.mount p) in
      CFV.calls (CFV.env s) !! i = Some CFV.AwaitAnalyze →
      one_in_flight cfv_in_flight (CFV.calls (CFV.env s))
      ∧ CFV.isProcessing (CFV.hooks s) = true
      ∧ CFV.submit_enabled s = false
      ∧ CFV.page_step CFV.Submit s = s
      ∧ ∀ resp,
          let s' := CFV.page_step (CFV.AnalyzeResponse i resp) s in
          CFV.isProcessing (CFV.hooks s') = false
          ∧ none_in_flight cfv_in_flight (CFV.calls (CFV.env s'))
          ∧ (failed resp = false →
             CFV.submit_enabled s' = false ∧ CFV.page_step CFV.Submit s' = s')).
Proof.
  split.
  - intros evs q m oc i c s Hi Hc.
    pose proof (im_page_run_flight evs q m oc) as Hinv. fold s in Hinv.
    destruct (im_disabled_in_flight s i c Hinv Hi Hc) as (Hsub & He & Hen & Hcl).
    split; [apply Hinv|]. split; [exact Hsub|]. split; [exact Hen|].
    split; [exact Hcl|]. split.
    + intros resp -> Hf s'. unfold s'. simpl.
      rewrite (im_upload_failed _ _ _ Hf), Hi.
      split; [apply im_call_failed_frame|].
      split; [by apply (im_call_failed_flight i IM.AwaitUpload)|].
      intros b Hb. by apply im_retry_after_failure.
    + intros resp -> s'. unfold s'. simpl. destruct resp as [| |result].
      1, 2: (match goal with
             | |- context [IM.evaluate_response _ ?r _] =>
                 rewrite (im_evaluate_failed i r s eq_refl), Hi
             end;
             split; [apply im_call_failed_frame|];
             split; [by apply (im_call_failed_flight i IM.AwaitEvaluate)|];
             split; [intros _ b Hb; by apply im_retry_after_failure | done]).
      unfold IM.evaluate_response. rewrite Hi.
      split; [reflexivity|]. split.
      { simpl. destruct Hinv as (_ & _ & H3). by eapply settle_in_flight. }
      split; [done|]. intros _. apply im_evaluated_no_submit.
      unfold IM.rerender. simpl. by eexists.
  - intros evs p i s Hi.
    pose proof (cfv_page_run_flight evs p) as Hinv. fold s in Hinv.
    assert (Hp : CFV.isProcessing (CFV.hooks s) = true)
      by exact (proj1 Hinv i CFV.AwaitAnalyze Hi eq_refl).
    destruct (cfv_disabled_while_processing s Hp) as [Hen Hcl].
    split; [apply Hinv|]. split; [exact Hp|]. split; [exact Hen|].
    split; [exact Hcl|]. intros resp s'. unfold s'. simpl.
    destruct (cfv_analyze_response_flight i resp s Hinv Hi) as (_ & Hn & Hp').
    split; [exact Hp'|]. split; [exact Hn|].
    intros Hf. apply cfv_submitted_no_submit.
    unfold CFV.analyze_response. rewrite Hi.
    destruct resp as [| |r]; try discriminate. simpl.
    by destruct (CFV.onMarkComplete _).
Qed.

Lemma submit_disabled_while_in_flight_witness :
  let take := mkBlob [Byte.x1a; Byte.x45; Byte.xdf; Byte.xa3] "audio/webm" in
  let evs := [IM.Input (AIC.ClickStart granted);
              IM.Input (AIC.DataAvailable 0 take);
              IM.Input AIC.ClickStop;
              IM.Input (AIC.StopEvent 0);
              IM.Submit] in
  let s := IM.page_run evs (IM.mount "Tell me about yourself." 60 false) in
  let s' := IM.page_step (IM.UploadResponse 0 NetworkError) s in
  IM.calls s !! 0 = Some IM.AwaitUpload
  ∧ im_in_flight IM.AwaitUpload = true
  ∧ IM.page_step IM.Submit s = s
  ∧ IM.isSubmitting s' = false
  ∧ IM.submit_enabled s' = true
  ∧ IM.requests (IM.page_step IM.Submit s')
    = [IM.UploadLocal take "interview_response.wav" "audio/wav";
       IM.UploadLocal take "interview_response.wav" "audio/wav"].
Proof.
  intros take evs s s'.
  destruct (proj1 submit_disabled_while_in_flight evs
              "Tell me about yourself."%string 60%Z false 0 IM.AwaitUpload
              eq_refl eq_refl)
    as (_ & _ & _ & Hcl & Hup & _).
  destruct (Hup NetworkError eq_refl eq_refl) as (Hsub & _ & Hretry).
  destruct (Hretry take eq_refl) as [Hen Hreq].
  split; [reflexivity|]. split; [reflexivity|]. split; [exact Hcl|].
  split; [exact Hsub|]. split; [exact Hen|]. exact Hreq.
Defined.

(** *** A failed submission *)

Lemma cfv_step_error ev s :
  is_Some (CFV.error (CFV.hooks s)) → is_Some (CFV.error (CFV.hooks (CFV.step ev s))).
Proof.
  intros He.
  destruct ev as [resp msg|um| |j|r data|r| | |a| | |i resp| |i']; simpl;
    unfold CFV.task_loaded, CFV.stopRecording, CFV.stopRecording_closure,
      CFV.interval_callback, CFV.stopRecording_closure, CFV.onstop,
      CFV.playAudio, CFV.pauseAudio, CFV.deleteRecording, CFV.submitRecording,
      CFV.analyze_response, CFV.unmount, CFV.startRecording,
      CFV.submissions_loaded;
    repeat case_match; simpl; try exact He; by eexists.
Qed.

(** Once the error is set, a click on Submit is never let through again,
    and no request goes out. *)
Lemma cfv_page_step_error ev s :
  is_Some (CFV.error (CFV.hooks s)) →
  is_Some (CFV.error (CFV.hooks (CFV.page_step ev s)))
  ∧ CFV.requests (CFV.env (CFV.page_step ev s)) = CFV.requests (CFV.env s).
Proof.
  intros He.
  assert (Hcl : CFV.click_submit s = s).
  { destruct He as [m Hm]. unfold CFV.click_submit, CFV.submit_enabled, CFV.learner_view.
    rewrite Hm. simpl. by rewrite andb_false_r. }
  destruct ev as [resp msg|um| |j|r data|r| | |a| | |i resp| |i'];
    try (split; [by apply (cfv_step_error _ s)|]; simpl;
         unfold CFV.task_loaded, CFV.startRecording, CFV.stopRecording,
           CFV.stopRecording_closure, CFV.interval_callback,
           CFV.stopRecording_closure, CFV.onstop, CFV.playAudio, CFV.pauseAudio,
           CFV.deleteRecording, CFV.unmount, CFV.analyze_response,
           CFV.submissions_loaded;
         repeat case_match; reflexivity).
  simpl. rewrite Hcl. by split.
Qed.

Lemma cfv_page_run_error evs s :
  is_Some (CFV.error (CFV.hooks s)) →
  is_Some (CFV.error (CFV.hooks (CFV.page_run evs s)))
  ∧ CFV.requests (CFV.env (CFV.page_run evs s)) = CFV.requests (CFV.env s).
Proof.
  intros He. unfold CFV.page_run. induction evs as [|ev evs [IHe IHr]] using rev_ind.
  - by split.
  - rewrite foldl_app. simpl.
    destruct (cfv_page_step_error ev _ IHe) as [He' Hr'].
    split; [exact He' | by rewrite Hr'].
Qed.

(** C8 (fails on the code).  A submission that fails leaves the recorded
    blob where it was on both surfaces.  On the interview surface the
    Submit button is enabled again and a click sends that same blob.  On
    the feedback viewer the failure sets the error message, which ends
    in "Please try again", and from then on, whatever happens on the
    page, the Submit button stays away and no request is sent: the blob
    is kept, but the learner cannot retry. *)
Theorem failed_analysis_keeps_artifact_but_blocks_retry :
  (∀ s i resp, CFV.calls (CFV.env s) !! i = Some CFV.AwaitAnalyze →
      failed resp = true →
      let s' := CFV.analyze_response i resp s in
      (CFV.audioBlob (CFV.hooks s') = CFV.audioBlob (CFV.hooks s)
       ∧ CFV.refs s' = CFV.refs s
       ∧ CFV.urls (CFV.env s') = CFV.urls (CFV.env s)
       ∧ CFV.sessions (CFV.env s') = CFV.sessions (CFV.env s)
       ∧ CFV.audios (CFV.env s') = CFV.audios (CFV.env s)
       ∧ CFV.requests (CFV.env s') = CFV.requests (CFV.env s))
      ∧ CFV.error (CFV.hooks s')
        = Some "Failed to process your recording. Please try again."%string
      ∧ ∀ evs,
          let s'' := CFV.page_run evs s' in
          CFV.submit_enabled s'' = false
          ∧ CFV.page_step CFV.Submit s'' = s''
          ∧ CFV.requests (CFV.env s'') = CFV.requests (CFV.env s))
  ∧ (∀ s i resp, failed resp = true →
      let s' := IM.upload_response i resp s in
      IM.audioBlob s' = IM.audioBlob s
      ∧ AIC.hooks (IM.input s') = AIC.hooks (IM.input s)
      ∧ AIC.refs (IM.input s') = AIC.refs (IM.input s)
      ∧ AIC.env (IM.input s') = AIC.env (IM.input s))
  ∧ (∀ s i resp, failed resp = true →
      let s' := IM.evaluate_response i resp s in
      IM.audioBlob s' = IM.audioBlob s
      ∧ AIC.hooks (IM.input s') = AIC.hooks (IM.input s)
      ∧ AIC.refs (IM.input s') = AIC.refs (IM.input s)
      ∧ AIC.env (IM.input s') = AIC.env (IM.input s))
  ∧ (∀ s i b, IM.evaluation s = None →
      AIC.audioBlob (AIC.hooks (IM.input s)) = Some b →
      (∀ resp, IM.calls s !! i = Some IM.AwaitUpload → failed resp = true →
         let s' := IM.upload_response i resp s in
         IM.submit_enabled s' = true
         ∧ IM.requests (IM.click_submit s')
           = IM.requests s ++ [IM.UploadLocal b "interview_response.wav" "audio/wav"])
      ∧ (∀ resp, IM.calls s !! i = Some IM.AwaitEvaluate → failed resp = true →
         let s' := IM.evaluate_response i resp s in
         IM.submit_enabled s' = true
         ∧ IM.requests (IM.click_submit s')
           = IM.requests s ++ [IM.UploadLocal b "interview_response.wav" "audio/wav"]))
  ∧ (let take := mkBlob [Byte.x1a; Byte.x45; Byte.xdf; Byte.xa3] "audio/webm" in
     let c := CFV.mkConfig 120 (CFV.mkFeedbackRubric []) in
     let v := CFV.page_run [CFV.TaskLoaded (HttpOk (Some c)) "none";
                            CFV.ClickStart granted;
                            CFV.DataAvailable 0 take;
                            CFV.ClickStop;
                            CFV.StopEvent 0;
                            CFV.Submit;
                            CFV.AnalyzeResponse 0 NetworkError]
                           (CFV.mount (CFV.mkProps "t1" "u1" false false false)) in
     CFV.audioBlob (CFV.hooks v) = Some take
     ∧ CFV.error (CFV.hooks v)
       = Some "Failed to process your recording. Please try again."%string
     ∧ CFV.isProcessing (CFV.hooks v) = false
     ∧ CFV.submit_enabled v = false
     ∧ CFV.page_step CFV.Submit v = v
     ∧ length (CFV.requests (CFV.env v)) = 1).
Proof.
  split; [|split; [|split; [|split]]].
  - intros s i resp Hi Hf s'.
    destruct (cfv_analyze_failed_frame i resp s Hf) as (? & _ & ? & ? & ? & ? & Hq & _).
    fold s' in Hq.
    assert (He : CFV.error (CFV.hooks s')
                 = Some "Failed to process your recording. Please try again."%string).
    { unfold s', CFV.analyze_response. rewrite Hi. by destruct resp. }
    split; [by repeat split|]. split; [exact He|].
    intros evs s''.
    destruct (cfv_page_run_error evs s' ltac:(by eexists)) as [[m Hm] Hr].
    fold s'' in Hm, Hr.
    assert (Hen : CFV.submit_enabled s'' = false).
    { unfold CFV.submit_enabled, CFV.learner_view. rewrite Hm. simpl.
      by rewrite andb_false_r. }
    split; [exact Hen|]. split; [|by rewrite Hr, Hq].
    simpl. unfold CFV.click_submit. by rewrite Hen.
  - intros s i resp Hf. rewrite (im_upload_failed _ _ _ Hf).
    destruct (IM.calls s !! i) as [[]|]; try by repeat split.
    destruct (im_call_failed_frame i s) as (_ & ? & ? & ? & ? & _).
    by repeat split.
  - intros s i resp Hf. rewrite (im_evaluate_failed _ _ _ Hf).
    destruct (IM.calls s !! i) as [[]|]; try by repeat split.
    destruct (im_call_failed_frame i s) as (_ & ? & ? & ? & ? & _).
    by repeat split.
  - intros s i b He Hb. split.
    + intros resp Hi Hf. rewrite (im_upload_failed _ _ _ Hf), Hi.
      by apply im_retry_after_failure.
    + intros resp Hi Hf. rewrite (im_evaluate_failed _ _ _ Hf), Hi.
      by apply im_retry_after_failure.
  - cbv zeta. repeat apply conj; vm_compute; reflexivity.
Qed.

End Submission.

(** ** Playback *)

Section Playback.

Import Recording.

Context {Src : Type}.
Implicit Types (l : list (Audio Src)) (a b : nat).

Lemma playing_lookup l a :
  audio_is_playing l a = true ↔ ∃ au, l !! a = Some au ∧ au_status au = au_playing.
Proof.
  unfold audio_is_playing. destruct (l !! a) as [[src []]|]; simpl;
    split; try discriminate; eauto; intros (au & Hau & Hst); try discriminate;
    injection Hau as <-; discriminate.
Qed.

Lemma playing_pause l a b :
  audio_is_playing (alter pause_audio a l) b = true →
  audio_is_playing l b = true ∧ b ≠ a.
Proof.
  unfold audio_is_playing. rewrite list_lookup_alter.
  destruct (decide (a = b)) as [->|Hne].
  - destruct (l !! b) as [[src []]|]; simpl; discriminate.
  - intros H. split; [exact H | congruence].
Qed.

Lemma playing_end l a b :
  audio_is_playing (alter end_audio a l) b = true →
  audio_is_playing l b = true ∧ b ≠ a.
Proof.
  unfold audio_is_playing. rewrite list_lookup_alter.
  destruct (decide (a = b)) as [->|Hne].
  - destruct (l !! b) as [[src st]|]; simpl; discriminate.
  - intros H. split; [exact H | congruence].
Qed.

Lemma playing_paused_status l a au :
  l !! a = Some au → au_status au = au_playing →
  au_status <$> alter pause_audio a l !! a = Some au_paused.
Proof. intros Hl Hst. rewrite list_lookup_alter_eq, Hl. simpl. by rewrite Hst. Qed.

Lemma playing_same_status (f : Audio Src → Audio Src) l a b :
  (∀ au, au_status (f au) = au_status au) →
  audio_is_playing (alter f a l) b = audio_is_playing l b.
Proof.
  intros Hf. unfold audio_is_playing. rewrite list_lookup_alter.
  destruct (decide (a = b)) as [->|]; [|reflexivity].
  destruct (l !! b); simpl; [by rewrite Hf | reflexivity].
Qed.

Lemma playing_snoc l (x : Audio Src) b :
  audio_is_playing (l ++ [x]) b = true →
  audio_is_playing l b = true ∨ b = length l.
Proof.
  unfold audio_is_playing.
  destruct (decide (b < length l)) as [Hlt|Hge].
  - rewrite lookup_app_l by exact Hlt. by left.
  - destruct (decide (b = length l)) as [->|Hne]; [by right|].
    rewrite lookup_ge_None_2; [discriminate|]. rewrite length_app. simpl. lia.
Qed.

Lemma playing_snoc_new l (src : Src) :
  (l ++ [mkAudio src au_playing]) !! length l = Some (mkAudio src au_playing)
  ∧ audio_is_playing (l ++ [mkAudio src au_playing]) (length l) = true.
Proof.
  assert (H : (l ++ [mkAudio src au_playing]) !! length l
              = Some (mkAudio src au_playing)).
  { rewrite lookup_app_r by lia. by rewrite Nat.sub_diag. }
  split; [exact H|]. unfold audio_is_playing. by rewrite H.
Qed.

End Playback.

Section PlaybackSurfaces.

Import Recording.

(** *** The feedback viewer *)

Lemma cfv_inv_frame s s' :
  CFV.audios (CFV.env s') = CFV.audios (CFV.env s) →
  CFV.audioRef (CFV.refs s') = CFV.audioRef (CFV.refs s) →
  cfv_playback_inv s → cfv_playback_inv s'.
Proof. unfold cfv_playback_inv. intros -> ->. done. Qed.

Lemma cfv_mount_inv p : cfv_playback_inv (CFV.mount p).
Proof. intros a Ha. discriminate Ha. Qed.

(** [playAudio] with a URL at hand: the new element is the only one
    playing. *)
Lemma cfv_playAudio_spec s u :
  cfv_playback_inv s →
  CFV.audioUrlRef (CFV.refs s) = Some u →
  let s' := CFV.playAudio s in
  let n := length (CFV.audios (CFV.env s)) in
  CFV.audios (CFV.env s') !! n = Some (mkAudio u au_playing)
  ∧ CFV.audioRef (CFV.refs s') = Some n
  ∧ CFV.isPlaying (CFV.hooks s') = true
  ∧ (∀ b, audio_is_playing (CFV.audios (CFV.env s')) b = true ↔ b = n)
  ∧ (∀ a au, CFV.audios (CFV.env s) !! a = Some au → au_status au = au_playing →
             au_status <$> CFV.audios (CFV.env s') !! a = Some au_paused).
Proof.
  intros Hinv Hu. unfold CFV.playAudio. rewrite Hu.
  destruct (CFV.audioRef (CFV.refs s)) as [a|] eqn:Har; simpl.
  - set (l := CFV.audios (CFV.env s)) in *.
    rewrite <- (length_alter pause_audio l a).
    destruct (playing_snoc_new (alter pause_audio a l) u) as [Hn Hp].
    split; [exact Hn|]. split; [reflexivity|]. split; [reflexivity|]. split.
    + intros b. split; [|by intros ->].
      intros [Hb| ->]%playing_snoc; [|reflexivity].
      apply playing_pause in Hb as [Hb Hne]. apply Hinv in Hb. congruence.
    + intros a' au Ha' Hst.
      assert (Some a = Some a') as [= ->].
      { rewrite <- Har. apply Hinv, playing_lookup. eauto. }
      rewrite lookup_app_l by (rewrite length_alter; by eapply lookup_lt_Some).
      by eapply playing_paused_status.
  - set (l := CFV.audios (CFV.env s)) in *.
    destruct (playing_snoc_new l u) as [Hn Hp].
    split; [exact Hn|]. split; [reflexivity|]. split; [reflexivity|]. split.
    + intros b. split; [|by intros ->].
      intros [Hb| ->]%playing_snoc; [|reflexivity].
      apply Hinv in Hb. congruence.
    + intros a' au Ha' Hst.
      assert (None = Some a') by (rewrite <- Har; apply Hinv, playing_lookup; eauto).
      discriminate.
Qed.

Lemma cfv_playAudio_inv s : cfv_playback_inv s → cfv_playback_inv (CFV.playAudio s).
Proof.
  intros Hinv. destruct (CFV.audioUrlRef (CFV.refs s)) as [u|] eqn:Hu.
  - destruct (cfv_playAudio_spec s u Hinv Hu) as (_ & Hr & _ & Hp & _).
    intros b Hb. apply Hp in Hb as ->. exact Hr.
  - unfold CFV.playAudio. by rewrite Hu.
Qed.

Lemma cfv_step_inv ev s : cfv_playback_inv s → cfv_playback_inv (CFV.step ev s).
Proof.
  intros Hinv.
  destruct ev as [resp msg|um| |j|r data|r| | |a| | |i resp| |i']; simpl.
  - unfold CFV.task_loaded. destruct resp as [| |[c|]];
      try destruct (CFV.isAdminView (CFV.props s));
      by apply (cfv_inv_frame s).
  - destruct um; by apply (cfv_inv_frame s).
  - unfold CFV.stopRecording, CFV.stopRecording_closure.
    repeat case_match; by apply (cfv_inv_frame s).
  - unfold CFV.interval_callback, CFV.stopRecording_closure.
    repeat case_match; by apply (cfv_inv_frame s).
  - repeat case_match; by apply (cfv_inv_frame s).
  - unfold CFV.onstop. repeat case_match; by apply (cfv_inv_frame s).
  - by apply cfv_playAudio_inv.
  - unfold CFV.pauseAudio.
    destruct (CFV.audioRef (CFV.refs s)) as [a|] eqn:Har; [|exact Hinv].
    intros b Hb. simpl in Hb. apply playing_pause in Hb as [Hb Hne].
    apply Hinv in Hb. congruence.
  - destruct (CFV.audios (CFV.env s) !! a) as [au|] eqn:Hau; [|exact Hinv].
    destruct (is_playing (au_status au)); [|exact Hinv].
    intros b Hb. simpl in Hb. apply playing_end in Hb as [Hb Hne].
    by apply Hinv in Hb.
  - unfold CFV.deleteRecording. simpl.
    destruct (CFV.audioUrlRef (CFV.refs s)) as [u|]; simpl;
      destruct (CFV.audioRef (CFV.refs s)) as [a|] eqn:Har;
      intros b Hb; simpl in Hb;
      try (apply playing_pause in Hb as [Hb Hne]);
      apply Hinv in Hb; congruence.
  - unfold CFV.submitRecording. repeat case_match; by apply (cfv_inv_frame s).
  - unfold CFV.analyze_response. repeat case_match; by apply (cfv_inv_frame s).
  - unfold CFV.unmount. repeat case_match; by apply (cfv_inv_frame s).
  - unfold CFV.submissions_loaded. repeat case_match; by apply (cfv_inv_frame s).
Qed.

Lemma cfv_run_inv evs p : cfv_playback_inv (CFV.run evs (CFV.mount p)).
Proof.
  unfold CFV.run. induction evs as [|ev evs IH] using rev_ind.
  - apply cfv_mount_inv.
  - rewrite foldl_app. by apply cfv_step_inv.
Qed.

(** *** The capture surface *)

Lemma aic_inv_frame s s' :
  AIC.audios (AIC.env s') = AIC.audios (AIC.env s) →
  AIC.audioElementRef (AIC.refs s') = AIC.audioElementRef (AIC.refs s) →
  AIC.isPlaying (AIC.hooks s') = AIC.isPlaying (AIC.hooks s) →
  aic_playback_inv s → aic_playback_inv s'.
Proof. unfold aic_playback_inv. intros -> -> ->. done. Qed.

Lemma aic_mount_inv N b : aic_playback_inv (AIC.mount N b).
Proof. intros a Ha. discriminate Ha. Qed.

(** Nothing plays once the ref was paused and dropped. *)
Lemma aic_silent_after_pause s a b :
  aic_playback_inv s →
  AIC.audioElementRef (AIC.refs s) = Some a →
  audio_is_playing (alter pause_audio a (AIC.audios (AIC.env s))) b = true → False.
Proof.
  intros Hinv Har [Hb Hne]%playing_pause. apply Hinv in Hb as [_ Hb]. congruence.
Qed.

Lemma aic_silent_without_ref s b :
  aic_playback_inv s →
  AIC.audioElementRef (AIC.refs s) = None →
  audio_is_playing (AIC.audios (AIC.env s)) b = true → False.
Proof. intros Hinv Har Hb. apply Hinv in Hb as [_ Hb]. congruence. Qed.

Lemma aic_silent_when_idle s b :
  aic_playback_inv s →
  AIC.isPlaying (AIC.hooks s) = false →
  audio_is_playing (AIC.audios (AIC.env s)) b = true → False.
Proof. intros Hinv Hip Hb. apply Hinv in Hb as [Hb _]. congruence. Qed.

Lemma aic_step_inv ev s : aic_playback_inv s → aic_playback_inv (AIC.step ev s).
Proof.
  intros Hinv.
  destruct ev as [um| |j|r data|r| | |a d|a t|a|file| | | | |m i| ]; simpl.
  - destruct um; by apply (aic_inv_frame s).
  - unfold AIC.stopRecording, AIC.stopRecording_closure.
    repeat case_match; by apply (aic_inv_frame s).
  - unfold AIC.interval_callback, AIC.stopRecording_closure.
    repeat case_match; by apply (aic_inv_frame s).
  - unfold AIC.ondataavailable. repeat case_match; by apply (aic_inv_frame s).
  - repeat case_match; by apply (aic_inv_frame s).
  - unfold AIC.playAudio.
    destruct (AIC.audioBlob (AIC.hooks s)) as [blob|]; [|exact Hinv].
    destruct (AIC.isPlaying (AIC.hooks s)) eqn:Hip; [exact Hinv|].
    intros b Hb. simpl in Hb. apply playing_snoc in Hb as [Hb| ->].
    + destruct (aic_silent_when_idle s b Hinv Hip Hb).
    + by split.
  - unfold AIC.pauseAudio.
    destruct (AIC.audioElementRef (AIC.refs s)) as [a|] eqn:Har; [|exact Hinv].
    destruct (AIC.isPlaying (AIC.hooks s)); [|exact Hinv].
    intros b Hb. destruct (aic_silent_after_pause s a b Hinv Har Hb).
  - case_match; [|exact Hinv]. by apply (aic_inv_frame s).
  - case_match; [|exact Hinv]. by apply (aic_inv_frame s).
  - destruct (AIC.audios (AIC.env s) !! a) as [au|] eqn:Hau; [|exact Hinv].
    destruct (is_playing (au_status au)) eqn:Hst; [|exact Hinv].
    intros b Hb. simpl in Hb. apply playing_end in Hb as [Hb Hne].
    apply Hinv in Hb as [_ Hb].
    assert (Ha : audio_is_playing (AIC.audios (AIC.env s)) a = true)
      by (unfold audio_is_playing; by rewrite Hau).
    apply Hinv in Ha as [_ Ha]. congruence.
  - unfold AIC.handleFileUpload. repeat case_match; by apply (aic_inv_frame s).
  - unfold AIC.handleReset. simpl.
    destruct (AIC.audioElementRef (AIC.refs s)) as [a|] eqn:Har;
      intros b Hb; simpl in Hb.
    + destruct (aic_silent_after_pause s a b Hinv Har Hb).
    + destruct (aic_silent_without_ref s b Hinv Har Hb).
  - by apply (aic_inv_frame s).
  - by apply (aic_inv_frame s).
  - unfold AIC.confirmDelete.
    destruct (AIC.audioElementRef (AIC.refs s)) as [a|] eqn:Har.
    + destruct (AIC.isPlaying (AIC.hooks s)) eqn:Hip; simpl; rewrite Har;
        intros b Hb; simpl in Hb;
        rewrite playing_same_status in Hb by done.
      * destruct (aic_silent_after_pause s a b Hinv Har Hb).
      * destruct (aic_silent_when_idle s b Hinv Hip Hb).
    + simpl. rewrite Har. intros b Hb. simpl in Hb.
      destruct (aic_silent_without_ref s b Hinv Har Hb).
  - by apply (aic_inv_frame s).
  - unfold AIC.unmount.
    assert (Hs1 : ∀ s1, AIC.audios (AIC.env s1) = AIC.audios (AIC.env s) →
                        AIC.audioElementRef (AIC.refs s1) = AIC.audioElementRef (AIC.refs s) →
                        aic_playback_inv
                          match AIC.audioElementRef (AIC.refs s1) with
                          | Some a => AIC.set_audioElementRef None (AIC.audio_pause a s1)
                          | None => s1
                          end).
    { intros s1 Hau Har.
      destruct (AIC.audioElementRef (AIC.refs s1)) as [a|] eqn:Har1;
        intros b Hb; simpl in Hb; rewrite Hau in Hb.
      - symmetry in Har. destruct (aic_silent_after_pause s a b Hinv Har Hb).
      - symmetry in Har. destruct (aic_silent_without_ref s b Hinv Har Hb). }
    destruct (AIC.recordingIntervalRef (AIC.refs s)); by apply Hs1.
Qed.

Lemma aic_run_inv evs N b : aic_playback_inv (AIC.run evs (AIC.mount N b)).
Proof.
  unfold AIC.run. induction evs as [|ev evs IH] using rev_ind.
  - apply aic_mount_inv.
  - rewrite foldl_app. by apply aic_step_inv.
Qed.

(** The capture child of the interview surface is driven by the same
    handlers. *)
Lemma im_rerender_inv w s :
  aic_playback_inv (IM.input s) → aic_playback_inv (IM.input (IM.rerender w s)).
Proof.
  intros Hinv. unfold IM.rerender. simpl.
  destruct (IM.input_rendered s).
  - exact (aic_step_inv (AIC.Render _ _) _ Hinv).
  - destruct w; [exact (aic_step_inv AIC.Unmount _ Hinv) | exact Hinv].
Qed.

Lemma im_step_inv ev s :
  aic_playback_inv (IM.input s) → aic_playback_inv (IM.input (IM.step ev s)).
Proof.
  intros Hinv. destruct ev as [ev| |i resp|i resp]; simpl.
  - destruct ev; try exact Hinv;
      (destruct (IM.input_rendered s); [|exact Hinv];
       unfold IM.with_input; cbn [IM.input]; by apply aic_step_inv).
  - destruct (IM.input_rendered s); [|exact Hinv].
    unfold IM.submit. destruct (AIC.handleSubmit _); [|exact Hinv].
    by apply im_rerender_inv.
  - unfold IM.upload_response.
    destruct (IM.calls s !! i) as [[]|]; try exact Hinv.
    destruct resp; try exact Hinv; by apply im_rerender_inv.
  - unfold IM.evaluate_response.
    destruct (IM.calls s !! i) as [[]|]; try exact Hinv.
    destruct resp; by apply im_rerender_inv.
Qed.

Lemma im_run_inv evs q m oc :
  aic_playback_inv (IM.input (IM.run evs (IM.mount q m oc))).
Proof.
  unfold IM.run. induction evs as [|ev evs IH] using rev_ind.
  - apply aic_mount_inv.
  - rewrite foldl_app. by apply im_step_inv.
Qed.

(** The capture surface's [playAudio] started while nothing plays: the
    new element, on the current blob, is the only one playing. *)
Lemma aic_playAudio_spec s b :
  aic_playback_inv s →
  AIC.audioBlob (AIC.hooks s) = Some b →
  AIC.isPlaying (AIC.hooks s) = false →
  let s' := AIC.playAudio s in
  let n := length (AIC.audios (AIC.env s)) in
  AIC.audios (AIC.env s') !! n = Some (mkAudio (Some b) au_playing)
  ∧ AIC.audioElementRef (AIC.refs s') = Some n
  ∧ AIC.isPlaying (AIC.hooks s') = true
  ∧ (∀ x, audio_is_playing (AIC.audios (AIC.env s')) x = true ↔ x = n).
Proof.
  intros Hinv Hb Hip. unfold AIC.playAudio. rewrite Hb, Hip. simpl.
  destruct (playing_snoc_new (AIC.audios (AIC.env s)) (Some b)) as [Hn Hp].
  split; [exact Hn|]. split; [reflexivity|]. split; [reflexivity|].
  intros x. split; [|by intros ->].
  intros [Hx| ->]%playing_snoc; [|reflexivity].
  apply Hinv in Hx as [Hx _]. congruence.
Qed.

(** While [isPlaying], [playAudio] does nothing and the button pauses. *)
Lemma aic_play_while_playing s :
  aic_playback_inv s →
  AIC.isPlaying (AIC.hooks s) = true →
  AIC.playAudio s = s
  ∧ (is_Some (AIC.audioBlob (AIC.hooks s)) → AIC.isSubmitting s = false →
     AIC.click_playback s = AIC.pauseAudio s
     ∧ ∀ x, audio_is_playing (AIC.audios (AIC.env (AIC.click_playback s))) x = false).
Proof.
  intros Hinv Hip. split.
  - unfold AIC.playAudio. rewrite Hip. by destruct (AIC.audioBlob (AIC.hooks s)).
  - intros [b Hb] Hsub.
    assert (Hcl : AIC.click_playback s = AIC.pauseAudio s)
      by (unfold AIC.click_playback; by rewrite Hb, Hsub, Hip).
    split; [exact Hcl|]. rewrite Hcl. intros x.
    destruct (audio_is_playing _ x) eqn:Hx; [exfalso|done].
    revert Hx. unfold AIC.pauseAudio. rewrite Hip.
    destruct (AIC.audioElementRef (AIC.refs s)) as [a|] eqn:Har; simpl.
    + by apply aic_silent_after_pause.
    + by apply aic_silent_without_ref.
Qed.

(** C7 as stated fails on the capture surface.  With an element
    playing, neither [playAudio] itself nor a click on the play button
    starts another: [playAudio] changes nothing, so the first element
    keeps playing, and the button pauses it.  No second element
    exists afterwards. *)
Lemma play_while_playing_starts_nothing :
  let take := mkBlob [Byte.x1a; Byte.x45; Byte.xdf; Byte.xa3] "audio/webm" in
  let s := AIC.run [AIC.ClickStart granted; AIC.DataAvailable 0 take;
                    AIC.ClickStop; AIC.StopEvent 0; AIC.ClickPlay]
                   (AIC.mount 60 false) in
  (AIC.audios (AIC.env s) = [mkAudio (Some take) au_playing]
   ∧ AIC.isPlaying (AIC.hooks s) = true)
  ∧ (AIC.playAudio s = s
     ∧ AIC.audios (AIC.env (AIC.playAudio s)) = [mkAudio (Some take) au_playing])
  ∧ (AIC.audios (AIC.env (AIC.click_playback s)) = [mkAudio (Some take) au_paused]
     ∧ AIC.isPlaying (AIC.hooks (AIC.click_playback s)) = false).
Proof. cbv zeta. repeat apply conj; vm_compute; reflexivity. Qed.

(** C7, amended.  On every surface, in every state reached from
    mounting, at most one audio element is playing.  On the feedback
    viewer, starting playback while an element plays pauses that element
    and leaves the newly created element, a different handle on the
    current URL, as the only one playing.  On the capture surface
    playback started while nothing plays leaves the new element as the
    only one playing; while an element plays it cannot be started:
    [playAudio] then does nothing and the button pauses. *)
Theorem at_most_one_audio_plays :
  (∀ evs p a b,
      let l := CFV.audios (CFV.env (CFV.run evs (CFV.mount p))) in
      audio_is_playing l a = true → audio_is_playing l b = true → a = b)
  ∧ (∀ evs N sub a b,
      let l := AIC.audios (AIC.env (AIC.run evs (AIC.mount N sub))) in
      audio_is_playing l a = true → audio_is_playing l b = true → a = b)
  ∧ (∀ evs q m oc a b,
      let l := AIC.audios (AIC.env (IM.input (IM.run evs (IM.mount q m oc)))) in
      audio_is_playing l a = true → audio_is_playing l b = true → a = b)
  ∧ (∀ evs p a au u,
      let s := CFV.run evs (CFV.mount p) in
      CFV.audios (CFV.env s) !! a = Some au →
      au_status au = au_playing →
      CFV.audioUrlRef (CFV.refs s) = Some u →
      let s' := CFV.playAudio s in
      let n := length (CFV.audios (CFV.env s)) in
      a ≠ n
      ∧ au_status <$> CFV.audios (CFV.env s') !! a = Some au_paused
      ∧ CFV.audios (CFV.env s') !! n = Some (mkAudio u au_playing)
      ∧ (∀ b, audio_is_playing (CFV.audios (CFV.env s')) b = true ↔ b = n))
  ∧ (∀ evs N sub blob,
      let s := AIC.run evs (AIC.mount N sub) in
      AIC.audioBlob (AIC.hooks s) = Some blob →
      AIC.isPlaying (AIC.hooks s) = false →
      let s' := AIC.playAudio s in
      let n := length (AIC.audios (AIC.env s)) in
      AIC.audios (AIC.env s') !! n = Some (mkAudio (Some blob) au_playing)
      ∧ AIC.audioElementRef (AIC.refs s') = Some n
      ∧ AIC.isPlaying (AIC.hooks s') = true
      ∧ (∀ b, audio_is_playing (AIC.audios (AIC.env s')) b = true ↔ b = n))
  ∧ (∀ evs N sub,
      let s := AIC.run evs (AIC.mount N sub) in
      AIC.isPlaying (AIC.hooks s) = true →
      AIC.playAudio s = s
      ∧ (is_Some (AIC.audioBlob (AIC.hooks s)) → AIC.isSubmitting s = false →
         AIC.click_playback s = AIC.pauseAudio s
         ∧ ∀ b, audio_is_playing (AIC.audios (AIC.env (AIC.click_playback s))) b
                = false)).
Proof.
  repeat apply conj.
  - intros evs p a b l Ha Hb.
    apply (cfv_run_inv evs p) in Ha, Hb. congruence.
  - intros evs N sub a b l Ha Hb.
    apply (aic_run_inv evs N sub) in Ha as [_ Ha], Hb as [_ Hb]. congruence.
  - intros evs q m oc a b l Ha Hb.
    apply (im_run_inv evs q m oc) in Ha as [_ Ha], Hb as [_ Hb]. congruence.
  - intros evs p a au u s Ha Hst Hu s' n.
    destruct (cfv_playAudio_spec s u (cfv_run_inv evs p) Hu)
      as (Hn & _ & _ & Hp & Hpa).
    split; [apply lookup_lt_Some in Ha; unfold n; lia|].
    split; [by eapply Hpa|]. split; [exact Hn | exact Hp].
  - intros evs N sub blob s Hb Hip.
    exact (aic_playAudio_spec s blob (aic_run_inv evs N sub) Hb Hip).
  - intros evs N sub s Hip.
    exact (aic_play_while_playing s (aic_run_inv evs N sub) Hip).
Qed.

Lemma at_most_one_audio_plays_witness :
  let c := CFV.mkConfig 120 (CFV.mkFeedbackRubric []) in
  let s := CFV.run (cfv_silent_take c ++ [CFV.ClickPlay])
                   (CFV.mount (CFV.mkProps "t1" "u1" false false false)) in
  let s' := CFV.playAudio s in
  let take := mkBlob [Byte.x1a; Byte.x45; Byte.xdf; Byte.xa3] "audio/webm" in
  let evs := [AIC.ClickStart granted; AIC.DataAvailable 0 take;
              AIC.ClickStop; AIC.StopEvent 0] in
  let t := AIC.run evs (AIC.mount 60 false) in
  let t' := AIC.run (evs ++ [AIC.ClickPlay]) (AIC.mount 60 false) in
  (CFV.audios (CFV.env s) !! 0 = Some (mkAudio 0 au_playing)
   ∧ CFV.audioUrlRef (CFV.refs s) = Some 0
   ∧ au_status <$> CFV.audios (CFV.env s') !! 0 = Some au_paused
   ∧ audio_is_playing (CFV.audios (CFV.env s')) 1 = true)
  ∧ (AIC.audioBlob (AIC.hooks t) = Some take
     ∧ AIC.isPlaying (AIC.hooks t) = false
     ∧ AIC.audios (AIC.env (AIC.playAudio t)) !! 0
       = Some (mkAudio (Some take) au_playing)
     ∧ AIC.isPlaying (AIC.hooks t') = true
     ∧ AIC.playAudio t' = t').
Proof.
  intros c s s' take evs t t'.
  destruct at_most_one_audio_plays as (_ & _ & _ & H & Hstart & Hbusy). split.
  - destruct (H (cfv_silent_take c ++ [CFV.ClickPlay])
                (CFV.mkProps "t1" "u1" false false false)
                0 (mkAudio 0 au_playing) 0 eq_refl eq_refl eq_refl)
      as (_ & Hpa & _ & Hp).
    split; [reflexivity|]. split; [reflexivity|].
    split; [exact Hpa | by apply Hp].
  - destruct (Hstart evs 60%Z false take eq_refl eq_refl) as (Hn & _ & _ & _).
    split; [reflexivity|]. split; [reflexivity|]. split; [exact Hn|].
    split; [reflexivity|].
    exact (proj1 (Hbusy (evs ++ [AIC.ClickPlay]) 60%Z false eq_refl)).
Defined.

End PlaybackSurfaces.

(** * Further properties of the components *)

(** ** Strings *)

Section Strings.

Lemma string_length_app (a b : string) :
  String.length (a +:+ b) = String.length a + String.length b.
Proof. induction a as [|c a IH]; simpl; [done | by rewrite IH]. Qed.

Lemma string_app_inj_length (a a' b b' : string) :
  String.length a = String.length a' →
  a +:+ b = a' +:+ b' → a = a' ∧ b = b'.
Proof.
  revert a'. induction a as [|c a IH]; intros [|c' a'] Hlen Heq;
    simpl in *; try discriminate; [done|].
  injection Heq as -> Heq. injection Hlen as Hlen.
  destruct (IH a' Hlen Heq) as [-> ->]. done.
Qed.

End Strings.

(** ** formatTime *)

Section FormatTime.

(** The seconds field over its whole range, by enumeration. *)
Lemma seconds_field_length (r : Z) :
  (0 ≤ r < 60)%Z → String.length (padStart2 (pretty r)) = 2.
Proof.
  intros Hr.
  assert (H : Forall (λ n, String.length (padStart2 (pretty (Z.of_nat n))) = 2)
                     (seq 0 60))
    by (apply (bool_decide_unpack _); vm_compute; reflexivity).
  rewrite Forall_forall in H. rewrite <- (Z2Nat.id r) by lia.
  apply H, elem_of_seq. lia.
Qed.

Lemma seconds_field_inj (r r' : Z) :
  (0 ≤ r < 60)%Z → (0 ≤ r' < 60)%Z →
  padStart2 (pretty r) = padStart2 (pretty r') → r = r'.
Proof.
  intros Hr Hr'.
  assert (H : Forall (λ n, Forall (λ m,
                  padStart2 (pretty (Z.of_nat n)) = padStart2 (pretty (Z.of_nat m))
                  → n = m) (seq 0 60)) (seq 0 60))
    by (apply (bool_decide_unpack _); vm_compute; reflexivity).
  rewrite Forall_forall in H.
  specialize (H (Z.to_nat r)). rewrite Forall_forall in H.
  rewrite <- (Z2Nat.id r), <- (Z2Nat.id r') by lia. intros Heq.
  f_equal. apply H; [apply elem_of_seq; lia | apply elem_of_seq; lia | exact Heq].
Qed.

(** X1.  On whole seconds from 0 up to 2^53, where the model is the
    code, [formatTime] prints the minutes, a colon and a seconds field of
    exactly two characters, and distinct durations print differently. *)
Theorem formatTime_two_digit_seconds_injective (s s' : Z) :
  safe_seconds s → safe_seconds s' →
  String.length (formatTime s) = String.length (pretty (s `div` 60)%Z) + 3
  ∧ (formatTime s = formatTime s' → s = s').
Proof.
  intros [Hs _] [Hs' _]. unfold formatTime.
  pose proof (Z.rem_bound_pos s 60 Hs eq_refl) as Hr.
  pose proof (Z.rem_bound_pos s' 60 Hs' eq_refl) as Hr'.
  pose proof (seconds_field_length _ Hr) as Hl.
  pose proof (seconds_field_length _ Hr') as Hl'.
  split.
  - rewrite !string_length_app, Hl. simpl. lia.
  - intros Heq.
    assert (Hlen : String.length (pretty (s `div` 60)%Z)
                   = String.length (pretty (s' `div` 60)%Z)).
    { apply (f_equal String.length) in Heq.
      rewrite !string_length_app, Hl, Hl' in Heq. simpl in Heq. lia. }
    apply string_app_inj_length in Heq as [Hm Hsec]; [|exact Hlen].
    apply (inj pretty) in Hm. injection Hsec as Hsec.
    apply seconds_field_inj in Hsec; [|done..].
    rewrite Z.rem_mod_nonneg in Hsec by lia.
    rewrite (Z.rem_mod_nonneg s') in Hsec by lia.
    rewrite (Z.div_mod s 60), (Z.div_mod s' 60) by lia. lia.
Qed.

Lemma formatTime_two_digit_seconds_injective_witness :
  safe_seconds 65 ∧ safe_seconds 125
  ∧ formatTime 65 = "1:05"%string
  ∧ String.length (formatTime 65) = 4
  ∧ (formatTime 65 = formatTime 125 → 65 = 125)%Z.
Proof.
  assert (H65 : safe_seconds 65) by (unfold safe_seconds; lia).
  assert (H125 : safe_seconds 125) by (unfold safe_seconds; lia).
  split; [exact H65|]. split; [exact H125|]. split; [reflexivity|].
  destruct (formatTime_two_digit_seconds_injective 65 125 H65 H125) as [Hl Hi].
  split; [exact Hl | exact Hi].
Defined.

End FormatTime.

(** ** ProbingQuestion *)

Section Probing.

Import Support.

Lemma trimStart_start s : starts_with_space (PQ.trimStart s) = false.
Proof.
  induction s as [|c s IH]; simpl; [done|].
  destruct (is_white_space c) eqn:Hc; [exact IH | simpl; exact Hc].
Qed.

Lemma trimEnd_end s : ends_with_space (PQ.trimEnd s) = false.
Proof.
  induction s as [|c s IH]; simpl; [done|].
  destruct (PQ.trimEnd s) as [|c' t] eqn:Ht.
  - destruct (is_white_space c) eqn:Hc; simpl; [done | exact Hc].
  - exact IH.
Qed.

Lemma trimEnd_start s :
  starts_with_space s = false → starts_with_space (PQ.trimEnd s) = false.
Proof.
  destruct s as [|c s]; simpl; [done|]. intros Hc.
  destruct (PQ.trimEnd s); [by rewrite Hc | exact Hc].
Qed.

Lemma trimStart_fixed s : starts_with_space s = false → PQ.trimStart s = s.
Proof. destruct s as [|c s]; simpl; [done | by intros ->]. Qed.

Lemma trimEnd_fixed s : ends_with_space s = false → PQ.trimEnd s = s.
Proof.
  induction s as [|c s IH]; simpl; [done|].
  destruct s as [|c' s'].
  - simpl. by intros ->.
  - intros H. rewrite (IH H). done.
Qed.

Lemma trim_all_space s : all_space s = true → PQ.trim s = [].
Proof.
  unfold PQ.trim, all_space. induction s as [|c s IH]; simpl; [done|].
  intros [Hc Hs]%andb_prop. rewrite Hc. by apply IH.
Qed.

Lemma trimStart_not_all_space s : all_space s = false → PQ.trimStart s ≠ [].
Proof.
  unfold all_space. induction s as [|c s IH]; simpl; [done|].
  destruct (is_white_space c); simpl; [exact IH | done].
Qed.

Lemma trimEnd_nonempty s : starts_with_space s = false → s ≠ [] → PQ.trimEnd s ≠ [].
Proof.
  destruct s as [|c s]; simpl; [done|]. intros -> _. by destruct (PQ.trimEnd s).
Qed.

Lemma trim_empty_iff s : PQ.trim s = [] ↔ all_space s = true.
Proof.
  split; [|apply trim_all_space]. intros Ht.
  destruct (all_space s) eqn:Ha; [done|]. exfalso. revert Ht.
  apply trimEnd_nonempty; [apply trimStart_start | by apply trimStart_not_all_space].
Qed.

Lemma trim_trimmed s : PQ.truthy (PQ.trim s) = true → trimmed (PQ.trim s).
Proof.
  intros Ht. split; [by destruct (PQ.trim s) | split].
  - apply trimEnd_start, trimStart_start.
  - apply trimEnd_end.
Qed.

Lemma trim_idem s : PQ.trim (PQ.trim s) = PQ.trim s.
Proof.
  unfold PQ.trim at 1.
  rewrite trimStart_fixed by apply trimEnd_start, trimStart_start.
  apply trimEnd_fixed, trimEnd_end.
Qed.

Lemma pq_step_responses ev s :
  Forall trimmed (PQ.responses s) → Forall trimmed (PQ.responses (PQ.step ev s)).
Proof.
  intros H. destruct ev as [v| |l]; simpl; try exact H.
  unfold PQ.handleSubmit. destruct (PQ.truthy _) eqn:Ht; [|exact H]. simpl.
  apply Forall_app. split; [exact H|]. apply Forall_singleton. by apply trim_trimmed.
Qed.

(** X2.  Whatever is typed and however often Submit runs, every response
    handed to [onResponse] is non-empty and has no white space, in the
    sense of [String.prototype.trim], at either end. *)
Theorem probing_responses_are_trimmed (evs : list PQ.Event) (l : bool) :
  Forall trimmed (PQ.responses (PQ.run evs (PQ.mount l))).
Proof.
  unfold PQ.run. induction evs as [|ev evs IH] using rev_ind.
  - constructor.
  - rewrite foldl_app. by apply pq_step_responses.
Qed.

(** X3.  [trim] is idempotent, and empties exactly the responses made of
    white space only.  Such a response is never submitted and keeps the
    button disabled; when the button is enabled a click hands on exactly
    the trimmed text, once. *)
Theorem probing_submit_guard (s : PQ.State) :
  PQ.trim (PQ.trim (PQ.response s)) = PQ.trim (PQ.response s)
  ∧ (PQ.trim (PQ.response s) = [] ↔ all_space (PQ.response s) = true)
  ∧ (all_space (PQ.response s) = true →
     PQ.handleSubmit s = s ∧ PQ.submit_disabled s = true)
  ∧ (PQ.submit_disabled s = false →
     PQ.responses (PQ.click_submit s)
     = PQ.responses s ++ [PQ.trim (PQ.response s)]
     ∧ trimmed (PQ.trim (PQ.response s))).
Proof.
  split; [apply trim_idem|]. split; [apply trim_empty_iff|]. split.
  - intros Ha. unfold PQ.handleSubmit, PQ.submit_disabled.
    by rewrite (trim_all_space _ Ha).
  - intros Hd. unfold PQ.click_submit. rewrite Hd.
    unfold PQ.submit_disabled in Hd. apply orb_false_elim in Hd as [Ht _].
    apply negb_false_iff in Ht. unfold PQ.handleSubmit. rewrite Ht. simpl.
    split; [done|]. by apply trim_trimmed.
Qed.

Lemma probing_submit_guard_witness :
  let blank := PQ.setResponse [32; 160; 12288; 10]%N (PQ.mount false) in
  let typed :=
    PQ.setResponse ([160; 32]%N ++ js "because it loops twice" ++ [9; 8232]%N)
                   (PQ.mount false) in
  all_space (PQ.response blank) = true
  ∧ PQ.handleSubmit blank = blank
  ∧ PQ.submit_disabled blank = true
  ∧ PQ.submit_disabled typed = false
  ∧ PQ.responses (PQ.click_submit typed) = [js "because it loops twice"].
Proof.
  intros blank typed.
  destruct (probing_submit_guard blank) as (_ & _ & Hb & _).
  destruct (probing_submit_guard typed) as (_ & _ & _ & Ht).
  split; [reflexivity|]. split; [exact (proj1 (Hb eq_refl))|].
  split; [exact (proj2 (Hb eq_refl))|].
  split; [reflexivity|]. exact (proj1 (Ht eq_refl)).
Defined.

End Probing.

(** ** ActionableTips *)

Section Tips.

Import Support.

(** X7.  The three priority helpers sort priorities the same way:
    priorities 1, 2 and 3 each get their own icon, label and background,
    and every other priority gets the default of all three. *)
Theorem priority_helpers_agree (p q : Z) :
  (AT.getPriorityLabel p = AT.getPriorityLabel q
   ↔ AT.getPriorityIcon p = AT.getPriorityIcon q)
  ∧ (AT.getPriorityLabel p = AT.getPriorityLabel q
     ↔ AT.getPriorityBg p = AT.getPriorityBg q)
  ∧ (AT.getPriorityLabel p = "Priority"%string ↔ p ≠ 1%Z ∧ p ≠ 2%Z ∧ p ≠ 3%Z)
  ∧ (AT.getPriorityLabel p = AT.getPriorityLabel q
     ↔ p = q ∨ (p ≠ 1 ∧ p ≠ 2 ∧ p ≠ 3 ∧ q ≠ 1 ∧ q ≠ 2 ∧ q ≠ 3)%Z).
Proof.
  assert (Hp : (p = 1 ∨ p = 2 ∨ p = 3 ∨ (p ≠ 1 ∧ p ≠ 2 ∧ p ≠ 3))%Z) by lia.
  assert (Hq : (q = 1 ∨ q = 2 ∨ q = 3 ∨ (q ≠ 1 ∧ q ≠ 2 ∧ q ≠ 3))%Z) by lia.
  assert (Hd : ∀ x, (x ≠ 1 ∧ x ≠ 2 ∧ x ≠ 3)%Z →
                    AT.getPriorityLabel x = "Priority"%string
                    ∧ AT.getPriorityIcon x = AT.InformationCircle_gray
                    ∧ AT.getPriorityBg x = "bg-gray-50 border-gray-200"%string).
  { intros [|[[]|[]|]|] (H1 & H2 & H3); try done. }
  destruct Hp as [->|[->|[->|Hp]]]; destruct Hq as [->|[->|[->|Hq]]];
    try destruct (Hd p Hp) as (-> & -> & ->);
    try destruct (Hd q Hq) as (-> & -> & ->);
    simpl; repeat split; try done; try lia; intros; try discriminate;
    try (right; lia); naive_solver lia.
Qed.

End Tips.

(** ** UnderstandingCertification *)

Section Certification.

Import Support.

Lemma uc_effect_inv s :
  UC.cleanup s = None → uc_inv s → uc_inv (UC.effect s).
Proof.
  intros Hc Hinv. unfold UC.effect. destruct (UC.certified s).
  2: { intros t Ht. simpl in Ht. apply Hinv in Ht. congruence. }
  intros t. simpl. intros Ht.
  destruct (decide (t < length (UC.timeouts s))) as [Hlt|Hge].
  - rewrite lookup_app_l in Ht by done. apply Hinv in Ht. congruence.
  - apply lookup_lt_Some in Ht. rewrite length_app in Ht. simpl in Ht.
    f_equal. lia.
Qed.

Lemma uc_cleanup_none s :
  uc_inv s →
  UC.cleanup (UC.run_cleanup s) = None
  ∧ ∀ t, UC.timeouts (UC.run_cleanup s) !! t ≠ Some UC.pending.
Proof.
  intros Hinv. unfold UC.run_cleanup.
  destruct (UC.cleanup s) as [c|] eqn:Hc; simpl.
  - split; [done|]. intros t Ht. rewrite list_lookup_alter in Ht.
    destruct (decide (c = t)) as [->|Hne].
    + destruct (UC.timeouts s !! t) as [[]|]; discriminate.
    + apply Hinv in Ht. congruence.
  - split; [done|]. intros t Ht. apply Hinv in Ht. congruence.
Qed.

Lemma uc_cleanup_inv s : uc_inv s → uc_inv (UC.run_cleanup s).
Proof.
  intros Hinv t Ht. by destruct (proj2 (uc_cleanup_none s Hinv) t).
Qed.

Lemma uc_step_inv ev s : uc_inv s → uc_inv (UC.step ev s).
Proof.
  intros Hinv. destruct ev as [t| |c o| ]; simpl.
  - destruct (UC.timeouts s !! t) as [[]|] eqn:Ht; try exact Hinv.
    intros t'. simpl. intros Ht'.
    destruct (decide (t = t')) as [->|Hne].
    + rewrite list_lookup_insert_eq in Ht' by (by eapply lookup_lt_Some).
      discriminate.
    + rewrite list_lookup_insert_ne in Ht' by done. by apply Hinv.
  - exact Hinv.
  - unfold UC.render.
    set (s' := UC.mkState c _ _ _ _ _).
    assert (Hinv' : uc_inv s') by exact Hinv.
    destruct (_ || _); [|exact Hinv'].
    apply uc_effect_inv; [apply uc_cleanup_none | apply uc_cleanup_inv]; done.
  - by apply uc_cleanup_inv.
Qed.

Lemma uc_run_inv evs c : uc_inv (UC.run evs (UC.mount c)).
Proof.
  unfold UC.run. induction evs as [|ev evs IH] using rev_ind.
  - apply uc_effect_inv; [done|]. intros t Ht. discriminate Ht.
  - rewrite foldl_app. by apply uc_step_inv.
Qed.

(** X4.  However the component is rendered again, at most one of its
    timers is pending.  After unmount none is, so no timer calls
    [onComplete] on a component that is gone; and a component that is
    never certified starts no timer and no confetti and shows nothing. *)
Theorem certification_timer_is_unique_and_cancelled
    (evs : list UC.Event) (c : bool) :
  let s := UC.run evs (UC.mount c) in
  (∀ t t', UC.timeouts s !! t = Some UC.pending →
           UC.timeouts s !! t' = Some UC.pending → t = t')
  ∧ (∀ t, UC.timeouts (UC.unmount s) !! t ≠ Some UC.pending)
  ∧ (∀ t, UC.step (UC.TimeoutFires t) (UC.unmount s) = UC.unmount s)
  ∧ UC.timeouts (UC.mount false) = []
  ∧ UC.confetti (UC.mount false) = 0
  ∧ UC.renders_dialog (UC.mount false) = false.
Proof.
  intros s. pose proof (uc_run_inv evs c) as Hinv. fold s in Hinv.
  split; [|split; [|split]].
  - intros t t' Ht Ht'. apply Hinv in Ht, Ht'. congruence.
  - apply uc_cleanup_none, Hinv.
  - intros t. simpl.
    pose proof (proj2 (uc_cleanup_none s Hinv) t) as Hn. unfold UC.unmount.
    by destruct (UC.timeouts (UC.run_cleanup s) !! t) as [[]|].
  - done.
Qed.

(** X5.  "Continue Learning" does not cancel the timer: while the
    component stays mounted, a click followed by the pending timer calls
    [onComplete] twice. *)
Theorem certification_click_leaves_timer (s : UC.State) (t : nat) :
  UC.timeouts s !! t = Some UC.pending →
  UC.timeouts (UC.click_continue s) = UC.timeouts s
  ∧ UC.completed (UC.click_continue s) = S (UC.completed s)
  ∧ UC.completed (UC.step (UC.TimeoutFires t) (UC.click_continue s))
    = S (S (UC.completed s)).
Proof.
  intros Ht. split; [done|]. split; [done|]. simpl. by rewrite Ht.
Qed.

Lemma certification_click_leaves_timer_witness :
  let s := UC.mount true in
  UC.timeouts s !! 0 = Some UC.pending
  ∧ UC.completed (UC.run [UC.ClickContinue; UC.TimeoutFires 0] s) = 2.
Proof.
  intros s. split; [reflexivity|].
  exact (proj2 (proj2 (certification_click_leaves_timer s 0 eq_refl))).
Defined.

End Certification.

(** ** TranscriptViewer *)

Section Transcript.

Import Support.

Lemma tv_step_inv ev s : tv_inv s → tv_inv (TV.step ev s).
Proof.
  unfold tv_inv. intros Hinv. destruct ev as [|a|blob]; simpl.
  - unfold TV.handlePlayPause.
    destruct (TV.audioElement s) as [e|] eqn:He.
    + destruct Hinv as (-> & au & Hau & Hp).
      assert (Hgoal : tv_inv
        (if TV.isPlaying s
         then TV.mkState (TV.audioBlob s) false (TV.audioElement s)
                         (alter pause_audio 0 (TV.audios s))
         else TV.mkState (TV.audioBlob s) true (TV.audioElement s)
                         (alter TV.play_audio 0 (TV.audios s)))).
      { unfold tv_inv. rewrite Hau.
        destruct (TV.isPlaying s); simpl; rewrite He;
          (split; [done|]); eexists; (split; [reflexivity|]); simpl; [|done].
        destruct au as [src []]; simpl in *; done. }
      unfold tv_inv in Hgoal. rewrite He in *.
      destruct (TV.audioBlob s); exact Hgoal.
    + destruct Hinv as [Hau Hp]. destruct (TV.audioBlob s) as [b|]; simpl.
      * rewrite Hau. split; [done|]. by eexists.
      * rewrite He. done.
  - destruct (audio_is_playing (TV.audios s) a) eqn:Ha; [|exact Hinv]. simpl.
    destruct (TV.audioElement s) as [e|].
    + destruct Hinv as (-> & au & Hau & Hp). split; [done|].
      rewrite Hau in *. destruct a as [|a]; [|discriminate Ha].
      eexists. split; [reflexivity|]. done.
    + destruct Hinv as [Hau _]. rewrite Hau in Ha. discriminate.
  - exact Hinv.
Qed.

Lemma tv_run_inv evs b : tv_inv (TV.run evs (TV.mount b)).
Proof.
  unfold TV.run. induction evs as [|ev evs IH] using rev_ind.
  - by split.
  - rewrite foldl_app. by apply tv_step_inv.
Qed.

(** X6.  A transcript viewer creates at most one audio element: later
    clicks pause and resume that element, [isPlaying] is true exactly
    while it plays, and once it exists its source stays what it was, also
    when the [audioBlob] prop changes. *)
Theorem transcript_viewer_single_element (evs : list TV.Event) (b : option Blob) :
  let s := TV.run evs (TV.mount b) in
  length (TV.audios s) ≤ 1
  ∧ (TV.isPlaying s = true ↔ audio_is_playing (TV.audios s) 0 = true)
  ∧ (∀ ev, TV.audioElement s ≠ None →
           au_src <$> TV.audios (TV.step ev s) = au_src <$> TV.audios s).
Proof.
  intros s. pose proof (tv_run_inv evs b) as Hinv. fold s in Hinv.
  unfold tv_inv in Hinv.
  destruct (TV.audioElement s) as [e|] eqn:He.
  - destruct Hinv as (-> & au & Hau & Hp). rewrite Hau. simpl.
    split; [lia|]. split.
    + unfold audio_is_playing. simpl. by rewrite Hp.
    + intros ev _. destruct ev as [|a|blob]; simpl.
      * unfold TV.handlePlayPause. rewrite He, Hau.
        destruct (TV.audioBlob s), (TV.isPlaying s); done.
      * rewrite Hau.
        destruct (audio_is_playing [au] a) eqn:Ha; simpl; rewrite ?Hau; [|done].
        destruct a as [|a]; [done | discriminate Ha].
      * by rewrite Hau.
  - destruct Hinv as [Hau Hp]. rewrite Hau, Hp. simpl.
    split; [lia|]. split; [done|]. intros ev Hne. done.
Qed.

End Transcript.

(** ** RubricScorecard *)

Section Scorecard.

Import Recording Support.

(** X8.  The colour and the icon of a score always name the same band:
    green with the check mark from 4 up, yellow with the alert from 3 up
    to 4, red with the cross below 3; and a higher score never falls
    into a worse band. *)
Theorem scorecard_bands_agree (q q' : Q) :
  ((4 <= q)%Q →
     RS.getScoreColor q = "text-green-600 bg-green-50 border-green-200"%string
     ∧ RS.getScoreIcon q = RS.CheckCircle)
  ∧ ((3 <= q)%Q → (q < 4)%Q →
     RS.getScoreColor q = "text-yellow-600 bg-yellow-50 border-yellow-200"%string
     ∧ RS.getScoreIcon q = RS.AlertCircle)
  ∧ ((q < 3)%Q →
     RS.getScoreColor q = "text-red-600 bg-red-50 border-red-200"%string
     ∧ RS.getScoreIcon q = RS.XCircle)
  ∧ ((q <= q')%Q → band_rank (RS.getScoreIcon q) ≤ band_rank (RS.getScoreIcon q')).
Proof.
  unfold RS.getScoreColor, RS.getScoreIcon.
  destruct (Qle_bool 4 q) eqn:H4; destruct (Qle_bool 3 q) eqn:H3;
    destruct (Qle_bool 4 q') eqn:H4'; destruct (Qle_bool 3 q') eqn:H3';
    rewrite ?Qle_bool_iff in *;
    repeat match goal with
           | H : Qle_bool _ _ = false |- _ =>
               apply not_true_iff_false in H; rewrite Qle_bool_iff in H;
               apply Qnot_le_lt in H
           end;
    (split; [|split; [|split]]); intros; simpl; try done; try lia;
    exfalso;
    repeat match goal with
           | H : (?a <= ?b)%Q, H' : (?b < ?a)%Q |- _ =>
               exact (Qlt_irrefl _ (Qle_lt_trans _ _ _ H H'))
           | H : (?a <= ?b)%Q, H' : (?b <= ?c)%Q, H'' : (?c < ?a)%Q |- _ =>
               exact (Qlt_irrefl _ (Qle_lt_trans _ _ _ (Qle_trans _ _ _ H H') H''))
           | H : (4 <= ?b)%Q, H'' : (?b < 3)%Q |- _ =>
               assert (3 <= 4)%Q by done;
               exact (Qlt_irrefl _ (Qle_lt_trans _ _ _
                        (Qle_trans 3 4 b ltac:(done) H) H''))
           end.
Qed.

Lemma lower_ascii_idem c : RS.lower_ascii (RS.lower_ascii c) = RS.lower_ascii c.
Proof. destruct c as [[] [] [] [] [] [] [] []]; reflexivity. Qed.

Lemma toLowerCase_idem s : RS.toLowerCase (RS.toLowerCase s) = RS.toLowerCase s.
Proof.
  induction s as [|c s IH]; simpl; [done|]. by rewrite lower_ascii_idem, IH.
Qed.

Lemma upper_ascii_ascii c :
  (nat_of_ascii c <? 128) = true → (nat_of_ascii (RS.upper_ascii c) <? 128) = true.
Proof. destruct c as [[] [] [] [] [] [] [] []]; done. Qed.

Lemma toLowerCase_length s : String.length (RS.toLowerCase s) = String.length s.
Proof. induction s as [|c s IH]; simpl; [done | by rewrite IH]. Qed.

(** X9.  For an ASCII criterion, where the model is the code: the label
    ignores letter case for the four criteria it knows; any other
    criterion keeps its length and only has its first character
    upper-cased; and only the empty criterion has an empty label. *)
Theorem criterion_label_cases (c : string) :
  ascii_text c = true →
  (known_criterion (RS.toLowerCase c) = true →
     RS.getCriterionLabel c = RS.getCriterionLabel (RS.toLowerCase c))
  ∧ (known_criterion (RS.toLowerCase c) = false →
     String.length (RS.getCriterionLabel c) = String.length c
     ∧ ascii_text (RS.getCriterionLabel c) = true
     ∧ ∀ a rest, c = String a rest →
         RS.getCriterionLabel c = String (RS.upper_ascii a) rest)
  ∧ (RS.getCriterionLabel c = EmptyString ↔ c = EmptyString).
Proof.
  intros Hc. unfold known_criterion, RS.getCriterionLabel.
  rewrite toLowerCase_idem.
  destruct (String.eqb (RS.toLowerCase c) "content") eqn:H1;
    [repeat split; try done; intros ->; discriminate|].
  destruct (String.eqb (RS.toLowerCase c) "structure") eqn:H2;
    [repeat split; try done; intros ->; discriminate|].
  destruct (String.eqb (RS.toLowerCase c) "clarity") eqn:H3;
    [repeat split; try done; intros ->; discriminate|].
  destruct (String.eqb (RS.toLowerCase c) "delivery") eqn:H4;
    [repeat split; try done; intros ->; discriminate|].
  simpl. split; [done|]. split.
  - intros _. destruct c as [|a rest]; simpl; [|split; [done|split]].
    + split; [done|]. split; [done|]. intros a rest [=].
    + simpl in Hc. apply andb_prop in Hc as [Ha ->].
      rewrite andb_true_r. by apply upper_ascii_ascii.
    + by intros a' rest' [= -> ->].
  - by destruct c.
Qed.

Lemma criterion_label_cases_witness :
  ascii_text "pacing" = true
  ∧ known_criterion (RS.toLowerCase "pacing") = false
  ∧ RS.getCriterionLabel "pacing" = "Pacing"%string
  ∧ RS.getCriterionLabel "CLARITY" = RS.getCriterionLabel "clarity".
Proof.
  split; [reflexivity|]. split; [reflexivity|].
  destruct (criterion_label_cases "pacing" eq_refl) as (_ & H & _).
  destruct (H eq_refl) as (_ & _ & H').
  split; [exact (H' _ _ eq_refl)|].
  destruct (criterion_label_cases "CLARITY" eq_refl) as (H1 & _). exact (H1 eq_refl).
Defined.

End Scorecard.

(** ** ConversationalFeedbackEditor *)

Section EditorCriteria.

Import Recording Support.

Context {Block : Type}.
Implicit Types (s : CFE.State Block).

Lemma filter_index_ext {A} (f g : nat → bool) i (l : list A) :
  (∀ j, i ≤ j → f j = g j) → CFE.filter_index f i l = CFE.filter_index g i l.
Proof.
  revert i. induction l as [|x l IH]; intros i H; simpl; [done|].
  rewrite (H i) by lia. rewrite (IH (S i)) by (intros; apply H; lia). done.
Qed.

Lemma filter_index_all {A} (f : nat → bool) i (l : list A) :
  (∀ j, i ≤ j → f j = true) → CFE.filter_index f i l = l.
Proof.
  revert i. induction l as [|x l IH]; intros i H; simpl; [done|].
  rewrite (H i) by lia. f_equal. apply IH. intros; apply H; lia.
Qed.

Lemma filter_index_delete {A} n i (l : list A) :
  CFE.filter_index (λ j, negb (j =? n + i)) n l = delete i l.
Proof.
  revert n i. induction l as [|x l IH]; intros n i; simpl; [by destruct i|].
  destruct i as [|i].
  - rewrite Nat.add_0_r, Nat.eqb_refl. simpl.
    apply filter_index_all. intros j Hj. apply negb_true_iff, Nat.eqb_neq. lia.
  - replace (n =? n + S i) with false by (symmetry; apply Nat.eqb_neq; lia).
    simpl. f_equal. rewrite <- (IH (S n) i).
    apply filter_index_ext. intros j _. by rewrite Nat.add_succ_r.
Qed.

Lemma filter_index_delete0 {A} i (l : list A) :
  CFE.filter_index (λ j, negb (j =? i)) 0 l = delete i l.
Proof. apply (filter_index_delete 0). Qed.

Lemma removeCriterion_criteria index s :
  CFE.criteria (CFE.rubric (CFE.config (CFE.removeCriterion index s)))
  = delete index (CFE.criteria (CFE.rubric (CFE.config s))).
Proof. simpl. apply filter_index_delete0. Qed.

(** X10.  [removeCriterion] deletes exactly the criterion at the index:
    the ones before it stay, the ones after it move up by one, and an
    index past the end removes nothing.  Prompt, duration and rubric name
    are untouched, and [onChange], when given, is told the new
    configuration once. *)
Theorem removeCriterion_deletes_one (index : nat) s :
  let cs := CFE.criteria (CFE.rubric (CFE.config s)) in
  let s' := CFE.removeCriterion index s in
  let cs' := CFE.criteria (CFE.rubric (CFE.config s')) in
  cs' = delete index cs
  ∧ (∀ j, j < index → cs' !! j = cs !! j)
  ∧ (∀ j, index ≤ j → cs' !! j = cs !! S j)
  ∧ (index < length cs → S (length cs') = length cs)
  ∧ (length cs ≤ index → cs' = cs)
  ∧ CFE.prompt (CFE.config s') = CFE.prompt (CFE.config s)
  ∧ CFE.maxDuration (CFE.config s') = CFE.maxDuration (CFE.config s)
  ∧ CFE.rubric_name (CFE.rubric (CFE.config s'))
    = CFE.rubric_name (CFE.rubric (CFE.config s))
  ∧ CFE.changes s'
    = CFE.changes s ++ (if CFE.onChange s then [CFE.config s'] else []).
Proof.
  intros cs s' cs'.
  assert (Hd : cs' = delete index cs) by apply removeCriterion_criteria.
  split; [exact Hd|]. rewrite Hd.
  split; [intros j Hj; by apply list_lookup_delete_lt|].
  split; [intros j Hj; by apply list_lookup_delete_ge|].
  split.
  { intros Hlt. rewrite length_delete by (by apply lookup_lt_is_Some). lia. }
  split.
  { intros Hge. apply list_eq. intros j. rewrite list_lookup_delete.
    case_decide; [done|].
    rewrite (lookup_ge_None_2 cs j), (lookup_ge_None_2 cs (S j)) by lia. done. }
  repeat split. simpl.
  destruct (CFE.onChange s); [done | by rewrite app_nil_r].
Qed.

(** X11.  Adding a criterion and then removing the last one gives back
    the configuration as it was. *)
Theorem add_then_remove_last s :
  let n := length (CFE.criteria (CFE.rubric (CFE.config s))) in
  CFE.criteria (CFE.rubric (CFE.config (CFE.addCriterion s)))
  = CFE.criteria (CFE.rubric (CFE.config s)) ++ [CFE.newCriterion]
  ∧ CFE.config (CFE.removeCriterion n (CFE.addCriterion s)) = CFE.config s.
Proof.
  intros n. split; [done|].
  destruct s as [oc [md pr [rn cs]] ch].
  unfold CFE.removeCriterion, CFE.handleRubricChange, CFE.handleConfigChange.
  simpl in *. do 2 f_equal.
  rewrite filter_index_delete0. subst n.
  by rewrite delete_middle, app_nil_r.
Qed.

(** X12.  [updateCriterion] at an index in range replaces that criterion
    and no other, keeps the number of criteria, and leaves prompt,
    duration and rubric name alone; at the index just past the end it
    appends. *)
Theorem updateCriterion_in_range (index : nat) (c : CFV.FeedbackCriterion) s :
  let cs := CFE.criteria (CFE.rubric (CFE.config s)) in
  (index < length cs →
   ∃ s', CFE.updateCriterion index c s = Some s'
         ∧ CFE.criteria (CFE.rubric (CFE.config s')) !! index = Some c
         ∧ (∀ j, j ≠ index →
                 CFE.criteria (CFE.rubric (CFE.config s')) !! j = cs !! j)
         ∧ length (CFE.criteria (CFE.rubric (CFE.config s'))) = length cs
         ∧ CFE.prompt (CFE.config s') = CFE.prompt (CFE.config s)
         ∧ CFE.maxDuration (CFE.config s') = CFE.maxDuration (CFE.config s)
         ∧ CFE.rubric_name (CFE.rubric (CFE.config s'))
           = CFE.rubric_name (CFE.rubric (CFE.config s)))
  ∧ (index = length cs →
     ∃ s', CFE.updateCriterion index c s = Some s'
           ∧ CFE.criteria (CFE.rubric (CFE.config s')) = cs ++ [c]).
Proof.
  intros cs. unfold CFE.updateCriterion, CFE.array_set. fold cs. split.
  - intros Hlt. rewrite decide_True by done. simpl. eexists. split; [done|].
    simpl. split; [by apply list_lookup_insert_eq|].
    split; [intros j Hj; by apply list_lookup_insert_ne|].
    split; [apply length_insert|]. done.
  - intros ->. rewrite decide_False by lia. rewrite decide_True by done.
    simpl. eexists. split; done.
Qed.

End EditorCriteria.

(** ** Registering a user with the backend *)

Section Register.

Import Recording Support.

Lemma ToInt32_range x : (- 2 ^ 31 ≤ Auth.ToInt32 x < 2 ^ 31)%Z.
Proof.
  unfold Auth.ToInt32.
  pose proof (Z.mod_pos_bound (x + 2 ^ 31) (2 ^ 32) eq_refl). lia.
Qed.

Lemma hash_step_bound h c :
  (c < 65536)%N →
  (Z.abs (Auth.hash_step h c) ≤ Z.abs h + (2 ^ 31 + 65535))%Z.
Proof.
  intros Hc%N2Z.inj_lt. unfold Auth.hash_step, Auth.shiftl32.
  pose proof (ToInt32_range (Auth.ToInt32 h * 2 ^ 5)).
  pose proof (N2Z.is_nonneg c). change (Z.of_N 65536) with 65536%Z in Hc. lia.
Qed.

Lemma foldl_hash_bound l h :
  code_units l →
  (Z.abs (foldl Auth.hash_step h l)
   ≤ Z.abs h + Z.of_nat (length l) * (2 ^ 31 + 65535))%Z.
Proof.
  intros Hl. revert h. induction Hl as [|c l Hc Hl IH]; intros h; [simpl; lia|].
  cbn [foldl length]. specialize (IH (Auth.hash_step h c)).
  pose proof (hash_step_bound h c Hc). lia.
Qed.

(** X14.  Over a well-formed email the running hash of the fallback id
    grows by less than 2^31 + 2^16 per code unit, so for an email shorter
    than 2^21 code units every value the reducer produces is an integer
    below 2^53 in magnitude, where the code's arithmetic on doubles is
    exact. *)
Theorem emailHash_magnitude (email : JsString) :
  code_units email →
  (Z.abs (Auth.emailHash email)
   ≤ Z.of_nat (length email) * (2 ^ 31 + 65535))%Z
  ∧ ((Z.of_nat (length email) < 2 ^ 21)%Z →
     ∀ k, (Z.abs (Auth.emailHash (take k email)) < 2 ^ 53)%Z).
Proof.
  intros Hwf. split.
  - unfold Auth.emailHash.
    pose proof (foldl_hash_bound email 0 Hwf) as Hb. simpl Z.abs in Hb. lia.
  - intros Hlen k. unfold Auth.emailHash.
    assert (Hk : code_units (take k email)) by by apply Forall_take.
    pose proof (foldl_hash_bound (take k email) 0 Hk) as Hb. simpl Z.abs in Hb.
    pose proof (length_take email k) as Hle.
    assert (Hmul : (Z.of_nat (length (take k email)) * (2 ^ 31 + 65535)
                    ≤ (2 ^ 21 - 1) * (2 ^ 31 + 65535))%Z)
      by (apply Z.mul_le_mono_nonneg_r; lia).
    lia.
Qed.

Lemma emailHash_magnitude_witness :
  let email := js "jos" ++ [233]%N ++ js "@example.org" in
  code_units email
  ∧ (Z.of_nat (length email) < 2 ^ 21)%Z
  ∧ (Z.abs (Auth.emailHash email) < 2 ^ 53)%Z.
Proof.
  intros email.
  assert (Hwf : code_units email)
    by (apply (bool_decide_unpack _); vm_compute; reflexivity).
  assert (Hlen : (Z.of_nat (length email) < 2 ^ 21)%Z) by (vm_compute; reflexivity).
  split; [exact Hwf|]. split; [exact Hlen|].
  pose proof (proj2 (emailHash_magnitude email Hwf) Hlen (length email)) as H.
  rewrite firstn_all in H. exact H.
Defined.

Lemma fallbackId_range email : (0 ≤ Auth.fallbackId email < 1000000)%Z.
Proof.
  unfold Auth.fallbackId.
  pose proof (Z.rem_bound_abs (Auth.emailHash email) 1000000 ltac:(done)). lia.
Qed.


Lemma split_space_cons s : ∃ h t, Auth.split_space s = h :: t.
Proof.
  induction s as [|c s (h & t & IH)]; simpl; [by eexists _, _|].
  destruct (Ascii.eqb c " "); [by eexists _, _|]. rewrite IH. by eexists _, _.
Qed.

Lemma join_split_space s : Auth.join_space (Auth.split_space s) = s.
Proof.
  induction s as [|c s IH]; simpl; [done|].
  destruct (split_space_cons s) as (h & t & Hs). rewrite Hs in *.
  destruct (Ascii.eqb c " ") eqn:Hc.
  - apply Ascii.eqb_eq in Hc as ->.
    change (Auth.join_space (EmptyString :: h :: t))
      with (EmptyString +:+ " " +:+ Auth.join_space (h :: t)).
    by rewrite IH.
  - destruct t as [|h' t]; [simpl in *; by rewrite IH|].
    change (Auth.join_space (String c h :: h' :: t))
      with (String c (h +:+ " " +:+ Auth.join_space (h' :: t))).
    change (Auth.join_space (h :: h' :: t))
      with (h +:+ " " +:+ Auth.join_space (h' :: t)) in IH.
    by rewrite IH.
Qed.

Lemma split_space_no_space s :
  has_space s = false → Auth.split_space s = [s].
Proof.
  induction s as [|c s IH]; simpl; [done|].
  intros [Hc Hs]%orb_false_elim. rewrite Hc, (IH Hs). done.
Qed.

Lemma split_space_head s h t :
  Auth.split_space s = h :: t → has_space h = false.
Proof.
  revert h t. induction s as [|c s IH]; intros h t; simpl.
  - by intros [= <- <-].
  - destruct (Ascii.eqb c " ") eqn:Hc; [by intros [= <- <-]|].
    destruct (split_space_cons s) as (h' & t' & Hs). rewrite Hs.
    intros [= <- <-]. simpl. by rewrite Hc, (IH h' t' Hs).
Qed.

Lemma or_empty_Some x : Auth.or_empty (Some x) = x.
Proof. by destruct x. Qed.

(** X15.  When the user record carries only a full name, the request
    splits it at the first space: given name and family name joined by a
    space give back the name; a name without a space becomes the given
    name with an empty family name.  A given or family name that is
    present and not empty is sent as it is. *)
Theorem register_splits_name (user : Auth.UserData) (account : Auth.AccountData)
    (n : string) :
  Auth.name user = Some n →
  let rb := Auth.requestBody user account in
  (Auth.given_name user = None → Auth.family_name user = None →
     (has_space n = true →
        n = Auth.rb_given_name rb +:+ " " +:+ Auth.rb_family_name rb
        ∧ has_space (Auth.rb_given_name rb) = false)
     ∧ (has_space n = false →
        Auth.rb_given_name rb = n ∧ Auth.rb_family_name rb = EmptyString))
  ∧ (∀ g, Auth.given_name user = Some g → g ≠ EmptyString →
          Auth.rb_given_name rb = g)
  ∧ (∀ f, Auth.family_name user = Some f → f ≠ EmptyString →
          Auth.rb_family_name rb = f).
Proof.
  intros Hn rb. unfold rb, Auth.requestBody. rewrite Hn.
  cbn [Auth.rb_given_name Auth.rb_family_name].
  split; [|split].
  - intros -> ->. cbn [Auth.or_else fmap option_fmap option_map].
    rewrite !or_empty_Some.
    destruct (split_space_cons n) as (h & t & Hs).
    pose proof (join_split_space n) as Hj. rewrite Hs in *.
    pose proof (split_space_head n h t Hs) as Hh.
    cbn [head default drop]. split.
    + intros Hsp. destruct t as [|h' t].
      * simpl in Hj. subst h. congruence.
      * split; [|exact Hh]. symmetry. exact Hj.
    + intros Hsp. rewrite (split_space_no_space _ Hsp) in Hs.
      injection Hs as <- <-. done.
  - intros g -> Hg. by destruct g.
  - intros f -> Hf. by destruct f.
Qed.

Lemma register_splits_name_witness :
  let user := Auth.mkUserData (Some (js "ada@example.org")) None None
                              (Some "Ada King Lovelace"%string) in
  let rb := Auth.requestBody user (Auth.mkAccountData None) in
  Auth.name user = Some "Ada King Lovelace"%string
  ∧ Auth.rb_given_name rb = "Ada"%string
  ∧ Auth.rb_family_name rb = "King Lovelace"%string
  ∧ "Ada King Lovelace"%string
    = Auth.rb_given_name rb +:+ " " +:+ Auth.rb_family_name rb.
Proof.
  intros user rb.
  destruct (register_splits_name user (Auth.mkAccountData None)
              "Ada King Lovelace" eq_refl) as [H _].
  destruct (H eq_refl eq_refl) as [Hsp _].
  split; [reflexivity|]. split; [reflexivity|]. split; [reflexivity|].
  exact (proj1 (Hsp eq_refl)).
Defined.

End Register.

(** ** The artifact of a take *)

Section Artifact.

Import Recording Support.

Lemma new_Blob_drop_empty (l : list Blob) type :
  new_Blob (filter (λ b, 0 < blob_size b) l) type = new_Blob l type.
Proof.
  unfold new_Blob. f_equal.
  induction l as [|b l IH]; [done|].
  rewrite filter_cons. destruct (decide (0 < blob_size b)) as [Hb|Hb].
  - rewrite !fmap_cons. simpl. f_equal. exact IH.
  - rewrite IH, fmap_cons. unfold blob_size in Hb.
    destruct (blob_bytes b); [done | simpl in Hb; lia].
Qed.

Lemma aic_start_recording_on s :
  aic_recording_on (length (AIC.captures (AIC.env s))) []
                   (AIC.step (AIC.ClickStart granted) s).
Proof.
  repeat split. simpl.
  rewrite lookup_app_r by lia. by rewrite Nat.sub_diag.
Qed.

Lemma aic_data_recording_on r chunks ds s :
  aic_recording_on r chunks s →
  aic_recording_on r (chunks ++ filter (λ b, 0 < blob_size b) ds)
                   (AIC.run (AIC.DataAvailable r <$> ds) s).
Proof.
  revert chunks s. induction ds as [|d ds IH]; intros chunks s Hs.
  - simpl. by rewrite app_nil_r.
  - rewrite fmap_cons. unfold AIC.run. cbn [foldl]. fold (AIC.run (AIC.DataAvailable r <$> ds)).
    destruct Hs as (Hr & Hi & Hc & Hch).
    rewrite filter_cons.
    assert (Hstep : aic_recording_on r
              (chunks ++ (if decide (0 < blob_size d) then [d] else []))
              (AIC.step (AIC.DataAvailable r d) s)).
    { simpl. rewrite Hc. simpl. unfold AIC.ondataavailable.
      destruct (decide (0 < blob_size d)).
      - repeat split; simpl; try done. by rewrite Hch.
      - rewrite app_nil_r. by repeat split. }
    apply IH in Hstep.
    destruct (decide (0 < blob_size d)); simpl in *.
    + by rewrite <- app_assoc in Hstep.
    + by rewrite app_nil_r in Hstep.
Qed.

(** X16.  From any state of the capture surface, a take on a fresh
    recorder yields as artifact the data the recorder delivered, in
    order, typed ["audio/webm"]: dropping empty chunks loses nothing,
    chunks of earlier takes are not carried over, the surface ends up not
    recording and the microphone track is stopped exactly once. *)
Theorem capture_artifact_is_the_data_in_order
    (s : AIC.State) (ds : list Blob) (d : Blob) :
  let r := length (AIC.captures (AIC.env s)) in
  let s' := AIC.run (aic_take r ds d) s in
  AIC.audioBlob (AIC.hooks s') = Some (new_Blob (ds ++ [d]) "audio/webm")
  ∧ AIC.isRecording (AIC.hooks s') = false
  ∧ AIC.captures (AIC.env s') !! r = Some (mkCapture inactive false 1).
Proof.
  intros r s'. unfold s', aic_take, AIC.run.
  rewrite !foldl_app.
  change (foldl _ s [AIC.ClickStart granted])
    with (AIC.step (AIC.ClickStart granted) s).
  pose proof (aic_start_recording_on s) as H0. fold r in H0.
  apply (aic_data_recording_on r [] ds) in H0. simpl app in H0.
  unfold AIC.run in H0.
  set (s2 := foldl _ (AIC.step (AIC.ClickStart granted) s) _) in *.
  destruct H0 as (Hr & Hi & Hc & Hch).
  destruct (aic_stop_then_event s2 r _ d Hr Hi Hc eq_refl) as (Hi' & Hb & Hc').
  unfold AIC.run in Hi', Hb, Hc'.
  split; [|split; [exact Hi' | exact Hc']].
  rewrite Hb, Hch.
  replace (if decide (0 < blob_size d) then [d] else [])
    with (filter (λ b, 0 < blob_size b) [d])
    by (rewrite filter_cons, filter_nil; by destruct (decide _)).
  rewrite <- filter_app. by rewrite new_Blob_drop_empty.
Qed.

Lemma cfv_start_recording_on s :
  cfv_recording_on (length (CFV.sessions (CFV.env s))) []
                   (CFV.urls (CFV.env s)) (CFV.audioUrlRef (CFV.refs s))
                   (CFV.step (CFV.ClickStart granted) s).
Proof.
  repeat split. simpl.
  rewrite lookup_app_r by lia. by rewrite Nat.sub_diag.
Qed.

Lemma cfv_data_recording_on r chunks us cur ds s :
  cfv_recording_on r chunks us cur s →
  cfv_recording_on r (chunks ++ ds) us cur (CFV.run (CFV.DataAvailable r <$> ds) s).
Proof.
  revert chunks s. induction ds as [|d ds IH]; intros chunks s Hs.
  - simpl. by rewrite app_nil_r.
  - rewrite fmap_cons. unfold CFV.run. cbn [foldl].
    fold (CFV.run (CFV.DataAvailable r <$> ds)).
    destruct Hs as (Hr & Hi & Hc & Hu & Hcur).
    assert (Hstep : cfv_recording_on r (chunks ++ [d]) us cur
                                     (CFV.step (CFV.DataAvailable r d) s)).
    { simpl. rewrite Hc. simpl. repeat split; simpl; try done.
      by rewrite list_lookup_alter_eq, Hc. }
    apply IH in Hstep. by rewrite <- app_assoc in Hstep.
Qed.

Lemma cfv_stop_tail r chunks us cur d s :
  cfv_recording_on r chunks us cur s →
  let blob := new_Blob (chunks ++ [d]) "audio/webm" in
  let s' := CFV.run [CFV.ClickStop; CFV.DataAvailable r d; CFV.StopEvent r] s in
  CFV.audioBlob (CFV.hooks s') = Some blob
  ∧ CFV.isRecording (CFV.hooks s') = false
  ∧ CFV.sessions (CFV.env s') !! r
    = Some (CFV.mkSession (mkCapture inactive false 1) (chunks ++ [d]))
  ∧ CFV.audioUrlRef (CFV.refs s') = Some (length us)
  ∧ CFV.urls (CFV.env s')
    = match cur with
      | Some u => alter (λ x, CFV.mkObjectUrl (CFV.url_blob x) true) u us
      | None => us
      end ++ [CFV.mkObjectUrl blob false].
Proof.
  destruct s as [p [cf il er ir ab rd ip ipr fb isb] [mr ar ri au]
                   [ss ivs aus us0 rq cl mc]].
  intros (Hr & Hi & Hc & Hu & Hcur). simpl in Hr, Hi, Hc, Hu, Hcur. subst.
  intros blob.
  unfold CFV.run. cbn [foldl]. unfold CFV.step at 3.
  unfold CFV.stopRecording, CFV.stopRecording_closure. simpl.
  assert (Hl : alter (CFV.with_capture recorder_stop) r ss !! r
               = Some (CFV.mkSession (mkCapture inactive true 0) chunks)).
  { by rewrite list_lookup_alter_eq, Hc. }
  assert (Hl' : alter (λ y, CFV.mkSession (CFV.capture y) (CFV.audioChunks y ++ [d])) r
                      (alter (CFV.with_capture recorder_stop) r ss) !! r
                = Some (CFV.mkSession (mkCapture inactive true 0) (chunks ++ [d]))).
  { by rewrite list_lookup_alter_eq, Hl. }
  destruct ri as [j|], cur as [u|]; simpl; rewrite Hl; simpl;
    unfold CFV.ondataavailable; simpl; rewrite Hl'; simpl;
    unfold CFV.onstop; simpl;
    (split; [reflexivity|]; split; [reflexivity|]; split;
     [rewrite 2!list_lookup_alter_eq, Hl'; reflexivity|]);
    (split; [|reflexivity]); f_equal; by rewrite ?length_alter.
Qed.

(** X17.  From any state of the feedback viewer, a take on a fresh
    recorder yields as artifact all data the recorder delivered, in
    order, typed ["audio/webm"]; the artifact gets a new object URL that
    becomes the current one, the URL that was current before is revoked,
    and the microphone track is stopped exactly once. *)
Theorem viewer_artifact_and_url (s : CFV.State) (ds : list Blob) (d : Blob) :
  let r := length (CFV.sessions (CFV.env s)) in
  let n := length (CFV.urls (CFV.env s)) in
  let blob := new_Blob (ds ++ [d]) "audio/webm" in
  let s' := CFV.run (cfv_take r ds d) s in
  CFV.audioBlob (CFV.hooks s') = Some blob
  ∧ CFV.isRecording (CFV.hooks s') = false
  ∧ CFV.sessions (CFV.env s') !! r
    = Some (CFV.mkSession (mkCapture inactive false 1) (ds ++ [d]))
  ∧ CFV.audioUrlRef (CFV.refs s') = Some n
  ∧ CFV.urls (CFV.env s') !! n = Some (CFV.mkObjectUrl blob false)
  ∧ (∀ u x, CFV.audioUrlRef (CFV.refs s) = Some u →
            CFV.urls (CFV.env s) !! u = Some x →
            CFV.urls (CFV.env s') !! u = Some (CFV.mkObjectUrl (CFV.url_blob x) true)).
Proof.
  intros r n blob s'. unfold s', cfv_take, CFV.run.
  rewrite !foldl_app.
  change (foldl _ s [CFV.ClickStart granted])
    with (CFV.step (CFV.ClickStart granted) s).
  pose proof (cfv_start_recording_on s) as H0. fold r in H0.
  apply (cfv_data_recording_on r [] _ _ ds) in H0. simpl app in H0.
  unfold CFV.run in H0.
  set (s2 := foldl _ (CFV.step (CFV.ClickStart granted) s) _) in *.
  destruct (cfv_stop_tail r ds _ _ d s2 H0) as (Hb & Hi & Hc & Hu & Hus).
  unfold CFV.run in Hb, Hi, Hc, Hu, Hus.
  split; [exact Hb|]. split; [exact Hi|]. split; [exact Hc|].
  split; [exact Hu|]. rewrite Hus. split.
  - rewrite lookup_app_r by (destruct (CFV.audioUrlRef _); rewrite ?length_alter; done).
    destruct (CFV.audioUrlRef _); rewrite ?length_alter; by rewrite Nat.sub_diag.
  - intros u x -> Hx. rewrite lookup_app_l
      by (rewrite length_alter; by eapply lookup_lt_Some).
    by rewrite list_lookup_alter_eq, Hx.
Qed.

End Artifact.

(** ** Object URLs of the feedback viewer *)

Section ObjectUrls.

Import Recording Support.

Lemma cfv_url_frame s s' :
  CFV.urls (CFV.env s') = CFV.urls (CFV.env s) →
  CFV.audioUrlRef (CFV.refs s') = CFV.audioUrlRef (CFV.refs s) →
  cfv_url_inv s → cfv_url_inv s'.
Proof. unfold cfv_url_inv. intros -> ->. done. Qed.

(** Once the current URL is revoked, every URL is. *)
Lemma cfv_revoke_current s u x :
  cfv_url_inv s →
  match CFV.audioUrlRef (CFV.refs s) with
  | Some cur =>
      alter (λ x, CFV.mkObjectUrl (CFV.url_blob x) true) cur (CFV.urls (CFV.env s))
  | None => CFV.urls (CFV.env s)
  end !! u = Some x →
  CFV.url_revoked x = true.
Proof.
  intros Hinv. destruct (CFV.audioUrlRef (CFV.refs s)) as [cur|] eqn:Hcur.
  - rewrite list_lookup_alter. destruct (decide (cur = u)) as [->|Hne].
    + destruct (CFV.urls (CFV.env s) !! u); simpl; [by intros [= <-] | done].
    + intros Hx. destruct (CFV.url_revoked x) eqn:Hrev; [done|].
      specialize (Hinv u x Hx Hrev). congruence.
  - intros Hx. destruct (CFV.url_revoked x) eqn:Hrev; [done|].
    specialize (Hinv u x Hx Hrev). congruence.
Qed.

Lemma cfv_onstop_url_inv r chunks s : cfv_url_inv s → cfv_url_inv (CFV.onstop r chunks s).
Proof.
  intros Hinv u x. unfold CFV.onstop. simpl.
  set (us := CFV.urls (CFV.env match CFV.audioUrlRef (CFV.refs s) with
                               | Some u0 => _ | None => _ end)).
  assert (Hus : us = match CFV.audioUrlRef (CFV.refs s) with
                     | Some cur => alter (λ x, CFV.mkObjectUrl (CFV.url_blob x) true) cur
                                         (CFV.urls (CFV.env s))
                     | None => CFV.urls (CFV.env s)
                     end).
  { unfold us. by destruct (CFV.audioUrlRef (CFV.refs s)). }
  intros Hx Hrev.
  destruct (decide (u < length us)) as [Hlt|Hge].
  - rewrite lookup_app_l in Hx by done. rewrite Hus in Hx.
    apply (cfv_revoke_current s u x Hinv) in Hx. congruence.
  - apply lookup_lt_Some in Hx. rewrite length_app in Hx. simpl in Hx.
    f_equal. lia.
Qed.

Lemma cfv_step_url_inv ev s : cfv_url_inv s → cfv_url_inv (CFV.step ev s).
Proof.
  intros Hinv.
  destruct ev as [resp msg|um| |j|r data|r| | |a| | |i resp| |i']; simpl.
  - unfold CFV.task_loaded. destruct resp as [| |[c|]];
      try destruct (CFV.isAdminView (CFV.props s));
      by apply (cfv_url_frame s).
  - destruct um; by apply (cfv_url_frame s).
  - unfold CFV.stopRecording, CFV.stopRecording_closure.
    repeat case_match; by apply (cfv_url_frame s).
  - unfold CFV.interval_callback, CFV.stopRecording_closure.
    repeat case_match; by apply (cfv_url_frame s).
  - repeat case_match; by apply (cfv_url_frame s).
  - destruct (CFV.sessions (CFV.env s) !! r) as [x|]; [|exact Hinv].
    destruct (stop_pending (CFV.capture x)); [|exact Hinv].
    apply cfv_onstop_url_inv. by apply (cfv_url_frame s).
  - unfold CFV.playAudio. repeat case_match; by apply (cfv_url_frame s).
  - unfold CFV.pauseAudio. repeat case_match; by apply (cfv_url_frame s).
  - repeat case_match; by apply (cfv_url_frame s).
  - intros u x Hx Hrev. exfalso.
    assert (Hx' : match CFV.audioUrlRef (CFV.refs s) with
                  | Some cur => alter (λ x, CFV.mkObjectUrl (CFV.url_blob x) true) cur
                                      (CFV.urls (CFV.env s))
                  | None => CFV.urls (CFV.env s)
                  end !! u = Some x).
    { revert Hx. unfold CFV.deleteRecording. simpl.
      destruct (CFV.audioUrlRef (CFV.refs s)); simpl;
        destruct (CFV.audioRef (CFV.refs s)); done. }
    apply (cfv_revoke_current s u x Hinv) in Hx'. congruence.
  - unfold CFV.submitRecording. repeat case_match; by apply (cfv_url_frame s).
  - unfold CFV.analyze_response. repeat case_match; by apply (cfv_url_frame s).
  - intros u x Hx Hrev. exfalso.
    assert (Hx' : match CFV.audioUrlRef (CFV.refs s) with
                  | Some cur => alter (λ x, CFV.mkObjectUrl (CFV.url_blob x) true) cur
                                      (CFV.urls (CFV.env s))
                  | None => CFV.urls (CFV.env s)
                  end !! u = Some x).
    { revert Hx. unfold CFV.unmount.
      destruct (CFV.audioUrlRef (CFV.refs s)); simpl;
        destruct (CFV.recordingIntervalRef (CFV.refs s)); done. }
    apply (cfv_revoke_current s u x Hinv) in Hx'. congruence.
  - unfold CFV.submissions_loaded. repeat case_match; by apply (cfv_url_frame s).
Qed.

Lemma cfv_run_url_inv evs p : cfv_url_inv (CFV.run evs (CFV.mount p)).
Proof.
  unfold CFV.run. induction evs as [|ev evs IH] using rev_ind.
  - intros u x Hx. discriminate Hx.
  - rewrite foldl_app. by apply cfv_step_url_inv.
Qed.

(** X18.  The feedback viewer never holds two live object URLs: in every
    state reached from mounting, a URL that is not revoked is the current
    one.  After "Record Again" and after unmount every URL it ever
    created is revoked. *)
Theorem viewer_object_urls_do_not_leak (evs : list CFV.Event) (p : CFV.Props) :
  let s := CFV.run evs (CFV.mount p) in
  (∀ u u' x x',
      CFV.urls (CFV.env s) !! u = Some x → CFV.url_revoked x = false →
      CFV.urls (CFV.env s) !! u' = Some x' → CFV.url_revoked x' = false →
      u = u')
  ∧ Forall (λ x, CFV.url_revoked x = true) (CFV.urls (CFV.env (CFV.deleteRecording s)))
  ∧ Forall (λ x, CFV.url_revoked x = true) (CFV.urls (CFV.env (CFV.unmount s))).
Proof.
  intros s. pose proof (cfv_run_url_inv evs p) as Hinv. fold s in Hinv.
  split; [|split].
  - intros u u' x x' Hx Hr Hx' Hr'.
    pose proof (Hinv u x Hx Hr). pose proof (Hinv u' x' Hx' Hr'). congruence.
  - apply Forall_lookup. intros u x Hx.
    pose proof (cfv_step_url_inv CFV.ClickRecordAgain s Hinv u x Hx) as H.
    destruct (CFV.url_revoked x) eqn:Hrev; [done|]. specialize (H eq_refl).
    revert H. unfold CFV.step, CFV.deleteRecording. simpl.
    destruct (CFV.audioUrlRef (CFV.refs s)) eqn:Hu; simpl;
      destruct (CFV.audioRef (CFV.refs s)); simpl; rewrite ?Hu; done.
  - apply Forall_lookup. intros u x Hx.
    apply (cfv_revoke_current s u x Hinv).
    revert Hx. unfold CFV.unmount.
    destruct (CFV.audioUrlRef (CFV.refs s)); simpl;
      destruct (CFV.recordingIntervalRef (CFV.refs s)); done.
Qed.

End ObjectUrls.

(** ** The error screen of the feedback viewer *)

Section ViewerError.

Import Recording Support.

Lemma cfv_error_hides s :
  is_Some (CFV.error (CFV.hooks s)) →
  CFV.learner_view s = false ∧ CFV.submit_enabled s = false
  ∧ cfv_start_visible s = false ∧ CFV.click_submit s = s.
Proof.
  intros [m Hm].
  assert (Hl : CFV.learner_view s = false).
  { unfold CFV.learner_view. rewrite Hm. simpl. by rewrite andb_false_r. }
  unfold cfv_start_visible, CFV.click_submit, CFV.submit_enabled. rewrite Hl. done.
Qed.

(** X19.  No handler of the feedback viewer clears [error]: once a
    message is set (task load failed, microphone refused, or analysis
    failed) it stays set whatever happens next, so the learner view, its
    Start and its Submit button never come back. *)
Theorem viewer_error_is_permanent (evs : list CFV.Event) (s : CFV.State) :
  is_Some (CFV.error (CFV.hooks s)) →
  let s' := CFV.run evs s in
  is_Some (CFV.error (CFV.hooks s'))
  ∧ CFV.learner_view s' = false
  ∧ CFV.submit_enabled s' = false
  ∧ cfv_start_visible s' = false
  ∧ CFV.click_submit s' = s'.
Proof.
  intros He s'.
  assert (He' : is_Some (CFV.error (CFV.hooks s'))).
  { unfold s', CFV.run. induction evs as [|ev evs IH] using rev_ind; [done|].
    rewrite foldl_app. by apply cfv_step_error. }
  split; [exact He'|]. by apply cfv_error_hides.
Qed.

Lemma viewer_error_is_permanent_witness :
  let c := CFV.mkConfig 120 (CFV.mkFeedbackRubric []) in
  let s := CFV.run (cfv_silent_take c ++ [CFV.Submit; CFV.AnalyzeResponse 0 HttpError])
                   (CFV.mount (CFV.mkProps "t1" "u1" false false false)) in
  let s' := CFV.run [CFV.ClickRecordAgain; CFV.ClickStart granted] s in
  CFV.error (CFV.hooks s)
  = Some "Failed to process your recording. Please try again."%string
  ∧ is_Some (CFV.error (CFV.hooks s'))
  ∧ CFV.learner_view s' = false.
Proof.
  intros c s s'. split; [reflexivity|].
  destruct (viewer_error_is_permanent
              [CFV.ClickRecordAgain; CFV.ClickStart granted] s
              (ex_intro _ _ eq_refl)) as (He & Hl & _).
  split; [exact He | exact Hl].
Defined.

(** X26.  The viewer mounts loading.  When the task request settles, a
    config is set exactly when the response is ok and carries one, and an
    error exactly otherwise.  The spinner goes away at once except in the
    admin view with a config, where it stays until the learner
    submissions have been fetched too; the learner view shows exactly
    with a config outside the admin view. *)
Theorem viewer_task_loaded (p : CFV.Props) (resp : Response (option CFV.Config))
    (msg : string) :
  let s := CFV.task_loaded resp msg (CFV.mount p) in
  CFV.isLoading (CFV.hooks (CFV.mount p)) = true
  ∧ (CFV.isLoading (CFV.hooks s) = true
     ↔ (∃ c, resp = HttpOk (Some c)) ∧ CFV.isAdminView p = true)
  ∧ (CFV.learner_view s = true
     ↔ (∃ c, resp = HttpOk (Some c)) ∧ CFV.isAdminView p = false)
  ∧ (is_Some (CFV.config (CFV.hooks s)) ↔ ∃ c, resp = HttpOk (Some c))
  ∧ (is_Some (CFV.error (CFV.hooks s)) ↔ ¬ ∃ c, resp = HttpOk (Some c))
  ∧ (CFV.isLoading (CFV.hooks s) = true →
     CFV.calls (CFV.env s) = [CFV.AwaitSubmissions]
     ∧ CFV.isLoading (CFV.hooks (CFV.submissions_loaded 0 s)) = false
     ∧ CFV.config (CFV.hooks (CFV.submissions_loaded 0 s)) = CFV.config (CFV.hooks s)
     ∧ CFV.error (CFV.hooks (CFV.submissions_loaded 0 s)) = None).
Proof.
  intros s. unfold s, CFV.task_loaded, CFV.learner_view. split; [done|].
  destruct resp as [| |[c|]]; simpl.
  1, 2, 4:
    (split; [split; [done | by intros [[c' [=]] _]]|];
     split; [split; [done | by intros [[c' [=]] _]]|];
     split; [split; [by intros [x [=]] | by intros [c' [=]]]|];
     split; [split; [by intros _ [c' [=]] | intros _; by eexists]|];
     done).
  destruct (CFV.isAdminView p) eqn:Ha; simpl.
  - split; [split; [intros _; split; [by eexists | done] | done]|]. rewrite ?Ha.
    split; [split; [done | by intros [_ [=]]]|].
    split; [split; [by eexists | by eexists]|].
    split; [split; [by intros [x [=]] | intros H; destruct H; by eexists]|].
    done.
  - split; [split; [done | by intros [_ [=]]]|]. rewrite Ha.
    split; [split; [intros _; split; [by eexists | done] | done]|].
    split; [split; [by eexists | by eexists]|].
    split; [split; [by intros [x [=]] | intros H; destruct H; by eexists]|].
    done.
Qed.

End ViewerError.

(** ** The interview surface *)

Section Interview.

Import Recording Support.

(** X20.  A submission whose upload and evaluation both succeed sends
    exactly one evaluation request, carrying the uploaded file's id, the
    question and the maximum duration; it then stores the result, clears
    the submitting flag, calls [onComplete] (when given) once with the
    result, and takes the capture component and its Submit button off the
    screen.  A second response for the same call changes nothing. *)
Theorem interview_submission_succeeds
    (s : IM.State) (i : nat) (uuid : string) (result : IM.InterviewEvaluation) :
  IM.calls s !! i = Some IM.AwaitUpload →
  let s1 := IM.upload_response i (HttpOk uuid) s in
  let s2 := IM.evaluate_response i (HttpOk result) s1 in
  IM.requests s1
  = IM.requests s ++ [IM.InterviewEvaluate uuid (IM.question s) (IM.maxDuration s)]
  ∧ IM.isSubmitting s1 = IM.isSubmitting s
  ∧ IM.evaluation s1 = IM.evaluation s
  ∧ IM.requests s2 = IM.requests s1
  ∧ IM.evaluation s2 = Some result
  ∧ IM.isSubmitting s2 = false
  ∧ IM.completed s2 = IM.completed s ++ (if IM.onComplete s then [result] else [])
  ∧ IM.input_rendered s2 = false
  ∧ IM.submit_enabled s2 = false
  ∧ IM.evaluate_response i (HttpOk result) s2 = s2
  ∧ IM.upload_response i (HttpOk uuid) s2 = s2.
Proof.
  intros Hi s1 s2.
  assert (Hlt : i < length (IM.calls s)) by (by eapply lookup_lt_Some).
  assert (H1 : IM.calls s1 !! i = Some IM.AwaitEvaluate).
  { unfold s1, IM.upload_response. rewrite Hi. simpl.
    by apply list_lookup_insert_eq. }
  assert (Hs1 : s1 = IM.mkState (IM.question s) (IM.maxDuration s) (IM.onComplete s)
                       (IM.isSubmitting s) (IM.evaluation s) (IM.audioBlob s)
                       (IM.requests s ++ [IM.InterviewEvaluate uuid (IM.question s)
                                                               (IM.maxDuration s)])
                       (<[i:=IM.AwaitEvaluate]> (IM.calls s)) (IM.completed s)
                       (IM.input s)).
  { unfold s1, IM.upload_response. by rewrite Hi. }
  assert (H2 : IM.calls s2 !! i = Some IM.Settled).
  { unfold s2, IM.evaluate_response. rewrite H1. simpl.
    apply list_lookup_insert_eq. rewrite Hs1. simpl. by rewrite length_insert. }
  split; [by rewrite Hs1|]. split; [by rewrite Hs1|]. split; [by rewrite Hs1|].
  unfold s2 at 1 2 3 4 5 6, IM.evaluate_response. rewrite H1.
  split; [done|]. split; [done|]. split; [done|].
  split.
  { simpl. rewrite Hs1. simpl. destruct (IM.onComplete s); [done | by rewrite app_nil_r]. }
  split; [done|]. split; [done|].
  unfold IM.evaluate_response, IM.upload_response. by rewrite H2.
Qed.

Lemma interview_submission_succeeds_witness :
  let s := IM.run (im_silent_take ++ [IM.Submit])
                  (IM.mount "Tell me about yourself." 60 true) in
  let result := IM.mkInterviewEvaluation [] 4%Q [] "I am a developer."
                  (IM.mkSpeechAnalysis 4 0 120%Q 2%Q) 2%Q in
  let s2 := IM.run [IM.UploadResponse 0 (HttpOk "f-1"%string);
                    IM.EvaluateResponse 0 (HttpOk result)] s in
  IM.calls s !! 0 = Some IM.AwaitUpload
  ∧ IM.requests s2
    = [IM.UploadLocal empty_recording "interview_response.wav" "audio/wav";
       IM.InterviewEvaluate "f-1" "Tell me about yourself." 60]
  ∧ IM.evaluation s2 = Some result
  ∧ IM.completed s2 = [result].
Proof.
  intros s result s2.
  destruct (interview_submission_succeeds s 0 "f-1" result eq_refl)
    as (H1 & _ & _ & H2 & H3 & _ & H4 & _).
  split; [reflexivity|]. split; [|split; [exact H3 | exact H4]].
  etrans; [exact H2|]. exact H1.
Defined.

Lemma im_step_evaluated ev s :
  is_Some (IM.evaluation s) →
  is_Some (IM.evaluation (IM.step ev s)) ∧ IM.input (IM.step ev s) = IM.input s.
Proof.
  intros [r Hr].
  assert (Hn : IM.input_rendered s = false) by (unfold IM.input_rendered; by rewrite Hr).
  destruct ev as [ev| |i resp|i resp]; simpl.
  - destruct ev; rewrite ?Hn; by rewrite Hr.
  - rewrite Hn. by rewrite Hr.
  - unfold IM.upload_response.
    destruct (IM.calls s !! i) as [[]|]; try (by rewrite Hr).
    destruct resp; simpl; unfold IM.call_failed, IM.rerender, IM.input_rendered;
      simpl; rewrite Hr; done.
  - unfold IM.evaluate_response.
    destruct (IM.calls s !! i) as [[]|]; try (by rewrite Hr).
    destruct resp; simpl; unfold IM.call_failed, IM.rerender, IM.input_rendered;
      simpl; rewrite ?Hr; done.
Qed.

(** X21.  Once an evaluation is on screen the surface stays there:
    whatever events follow, an evaluation remains set, the capture
    component (already torn down) is not touched again, and Submit does
    nothing. *)
Theorem interview_evaluated_is_final (evs : list IM.Event) (s : IM.State) :
  is_Some (IM.evaluation s) →
  let s' := IM.run evs s in
  is_Some (IM.evaluation s')
  ∧ IM.input s' = IM.input s
  ∧ IM.input_rendered s' = false
  ∧ IM.submit_enabled s' = false
  ∧ IM.click_submit s' = s'.
Proof.
  intros He s'.
  assert (H : is_Some (IM.evaluation s') ∧ IM.input s' = IM.input s).
  { unfold s', IM.run. induction evs as [|ev evs [IH1 IH2]] using rev_ind; [done|].
    rewrite foldl_app. cbn [foldl].
    destruct (im_step_evaluated ev _ IH1) as [H1 H2]. split; [exact H1|].
    by rewrite H2. }
  destruct H as [[r Hr] Hin].
  assert (Hn : IM.input_rendered s' = false) by (unfold IM.input_rendered; by rewrite Hr).
  split; [by eexists|]. split; [exact Hin|]. split; [exact Hn|].
  unfold IM.click_submit, IM.submit_enabled. by rewrite Hn.
Qed.

Lemma interview_evaluated_is_final_witness :
  let result := IM.mkInterviewEvaluation [] 4%Q [] "I am a developer."
                  (IM.mkSpeechAnalysis 4 0 120%Q 2%Q) 2%Q in
  let s := IM.run (im_silent_take
                     ++ [IM.Submit; IM.UploadResponse 0 (HttpOk "f-1"%string);
                         IM.EvaluateResponse 0 (HttpOk result)])
                  (IM.mount "Tell me about yourself." 60 false) in
  let s' := IM.run [IM.Input (AIC.ClickStart granted); IM.Submit] s in
  IM.evaluation s = Some result
  ∧ is_Some (IM.evaluation s')
  ∧ IM.input s' = IM.input s.
Proof.
  intros result s s'. split; [reflexivity|].
  destruct (interview_evaluated_is_final
              [IM.Input (AIC.ClickStart granted); IM.Submit] s
              (ex_intro _ _ eq_refl)) as (He & Hin & _).
  split; [exact He | exact Hin].
Defined.

End Interview.

(** ** The clock of the capture surface *)

Section Clock.

Import Recording Support.

Lemma clock_frame N s s' :
  AIC.maxDuration s' = AIC.maxDuration s →
  AIC.startRecording_memo s' = AIC.startRecording_memo s →
  AIC.intervals (AIC.env s') = AIC.intervals (AIC.env s) →
  AIC.recordingTime (AIC.hooks s') = AIC.recordingTime (AIC.hooks s) →
  aic_clock_inv N s → aic_clock_inv N s'.
Proof. unfold aic_clock_inv. intros -> -> -> ->. done. Qed.

Lemma clock_set_time N t s :
  (0 ≤ t ≤ N)%Z → aic_clock_inv N s → aic_clock_inv N (AIC.setRecordingTime t s).
Proof. intros Ht (H1 & H2 & H3 & _). repeat split; try done; apply Ht. Qed.

Lemma clock_clear N j s :
  aic_clock_inv N s → aic_clock_inv N (AIC.clearInterval j s).
Proof.
  intros (H1 & H2 & H3 & H4). repeat split; try done; try apply H4. simpl.
  apply Forall_alter; [exact H3 | done].
Qed.

Lemma clock_stop N seen s :
  aic_clock_inv N s → aic_clock_inv N (AIC.stopRecording_closure seen s).
Proof.
  intros Hinv. unfold AIC.stopRecording_closure.
  destruct (AIC.mediaRecorderRef (AIC.refs s)) as [r|]; [|exact Hinv].
  destruct seen; [|exact Hinv]. simpl.
  destruct (AIC.recordingIntervalRef (AIC.refs s)) as [j|].
  - apply (clock_frame N (AIC.clearInterval j s)); try done. by apply clock_clear.
  - by apply (clock_frame N s).
Qed.

Lemma clock_step N ev s :
  (0 ≤ N)%Z →
  (∀ m b, ev = AIC.Render m b → m = N) →
  aic_clock_inv N s → aic_clock_inv N (AIC.step ev s).
Proof.
  intros HN Hev Hinv.
  destruct ev as [um| |j|r data|r| | |a d|a t|a|file| | | | |m i| ]; simpl.
  - destruct um; [|exact Hinv]. destruct Hinv as (H1 & H2 & H3 & H4).
    repeat split; simpl; try done; try lia.
    apply Forall_app. split; [exact H3|]. by apply Forall_singleton.
  - by apply clock_stop.
  - destruct (AIC.intervals (AIC.env s) !! j) as [iv|] eqn:Hj; [|exact Hinv].
    destruct (AIC.iv_active iv); [|exact Hinv].
    assert (Hc : AIC.c_maxDuration (AIC.iv_closure iv) = N).
    { destruct Hinv as (_ & _ & H3 & _). by eapply (Forall_lookup_1 _ _ _ _ H3). }
    unfold AIC.interval_callback. rewrite Hc.
    pose proof Hinv as (_ & _ & _ & H4).
    destruct (Z.leb_spec N (AIC.recordingTime (AIC.hooks s) + 1)).
    + apply clock_set_time; [lia|]. by apply clock_stop.
    + apply clock_set_time; [lia | exact Hinv].
  - unfold AIC.ondataavailable. repeat case_match; by apply (clock_frame N s).
  - repeat case_match; by apply (clock_frame N s).
  - unfold AIC.playAudio. repeat case_match; by apply (clock_frame N s).
  - unfold AIC.pauseAudio. repeat case_match; by apply (clock_frame N s).
  - case_match; by apply (clock_frame N s).
  - case_match; by apply (clock_frame N s).
  - repeat case_match; by apply (clock_frame N s).
  - unfold AIC.handleFileUpload. repeat case_match; try exact Hinv.
    apply clock_set_time; [lia|]. by apply (clock_frame N s).
  - unfold AIC.handleReset. simpl.
    assert (H0 : aic_clock_inv N (AIC.setRecordingTime 0 s))
      by (apply clock_set_time; [lia | exact Hinv]).
    destruct (AIC.audioElementRef (AIC.refs s));
      by apply (clock_frame N (AIC.setRecordingTime 0 s)).
  - by apply (clock_frame N s).
  - by apply (clock_frame N s).
  - unfold AIC.confirmDelete.
    assert (H0 : aic_clock_inv N (AIC.setRecordingTime 0 s))
      by (apply clock_set_time; [lia | exact Hinv]).
    destruct (AIC.audioElementRef (AIC.refs s)) eqn:Hae;
      [destruct (AIC.isPlaying (AIC.hooks s))|]; simpl; rewrite ?Hae;
      by apply (clock_frame N (AIC.setRecordingTime 0 s)).
  - rewrite (Hev m i eq_refl). unfold AIC.render_props.
    destruct Hinv as (H1 & H2 & H3 & H4).
    rewrite H1, decide_True by done. repeat split; try done; apply H4.
  - unfold AIC.unmount.
    destruct (AIC.recordingIntervalRef (AIC.refs s)) as [j|].
    + pose proof (clock_clear N j s Hinv) as Hc.
      simpl. destruct (AIC.audioElementRef (AIC.refs s));
        by apply (clock_frame N (AIC.clearInterval j s)).
    + destruct (AIC.audioElementRef (AIC.refs s)); by apply (clock_frame N s).
Qed.

Lemma clock_mount N b : (0 ≤ N)%Z → aic_clock_inv N (AIC.mount N b).
Proof. intros HN. repeat split; simpl; try done; try lia. Qed.

Lemma im_clock_rerender N w s :
  (0 ≤ N)%Z → IM.maxDuration s = N →
  aic_clock_inv N (IM.input s) → aic_clock_inv N (IM.input (IM.rerender w s)).
Proof.
  intros HN Hm Hinv. unfold IM.rerender. simpl.
  destruct (IM.input_rendered s).
  - apply (clock_step N (AIC.Render _ _)); [done | | done].
    intros m b [= <- _]. exact Hm.
  - destruct w; [|exact Hinv]. by apply (clock_step N AIC.Unmount).
Qed.

Lemma im_clock_step N ev s :
  (0 ≤ N)%Z →
  IM.maxDuration s = N ∧ aic_clock_inv N (IM.input s) →
  IM.maxDuration (IM.step ev s) = N ∧ aic_clock_inv N (IM.input (IM.step ev s)).
Proof.
  intros HN [Hm Hinv]. destruct ev as [ev| |i resp|i resp]; simpl.
  - destruct ev; try (split; [exact Hm | exact Hinv]);
      (destruct (IM.input_rendered s); [|by split]; split; [exact Hm|];
       unfold IM.with_input; cbn [IM.input]; by apply clock_step).
  - destruct (IM.input_rendered s); [|by split].
    unfold IM.submit. destruct (AIC.handleSubmit _); [|by split].
    split; [exact Hm|]. by apply im_clock_rerender.
  - unfold IM.upload_response.
    destruct (IM.calls s !! i) as [[]|]; try (by split).
    destruct resp; try (by split); (split; [exact Hm|]); by apply im_clock_rerender.
  - unfold IM.evaluate_response.
    destruct (IM.calls s !! i) as [[]|]; try (by split).
    destruct resp; (split; [exact Hm|]); by apply im_clock_rerender.
Qed.

(** X22.  On the interview surface the recording time shown by the
    capture component never leaves the range from 0 to the maximum
    duration, whatever the sequence of clicks, timer ticks, recorder
    events and responses. *)
Theorem interview_clock_within_maximum
    (evs : list IM.Event) (q : string) (m : Z) (oc : bool) :
  (0 ≤ m)%Z →
  (0 ≤ AIC.recordingTime (AIC.hooks (IM.input (IM.run evs (IM.mount q m oc)))) ≤ m)%Z.
Proof.
  intros Hm.
  assert (H : IM.maxDuration (IM.run evs (IM.mount q m oc)) = m
              ∧ aic_clock_inv m (IM.input (IM.run evs (IM.mount q m oc)))).
  { unfold IM.run. induction evs as [|ev evs IH] using rev_ind.
    - split; [done | by apply clock_mount].
    - rewrite foldl_app. by apply im_clock_step. }
  destruct H as (_ & _ & _ & _ & H). exact H.
Qed.

Lemma interview_clock_within_maximum_witness :
  let evs := IM.Input (AIC.ClickStart granted) :: replicate 5 (IM.Input (AIC.Tick 0)) in
  (0 ≤ 3)%Z
  ∧ (0 ≤ AIC.recordingTime
           (AIC.hooks (IM.input (IM.run evs (IM.mount "Tell me about yourself." 3 false))))
     ≤ 3)%Z.
Proof.
  intros evs. split; [lia|].
  apply (interview_clock_within_maximum evs "Tell me about yourself." 3 false). lia.
Defined.

(** X25.  A manual stop halts the timer of the recording on both
    recording surfaces: a later tick of that timer changes nothing, so the
    time shown stays frozen.  The unmount cleanup halts it as well. *)
Theorem manual_stop_and_unmount_halt_the_timer :
  (∀ s r j,
      AIC.mediaRecorderRef (AIC.refs s) = Some r →
      AIC.isRecording (AIC.hooks s) = true →
      AIC.recordingIntervalRef (AIC.refs s) = Some j →
      AIC.step (AIC.Tick j) (AIC.stopRecording s) = AIC.stopRecording s
      ∧ AIC.recordingTime (AIC.hooks (AIC.stopRecording s))
        = AIC.recordingTime (AIC.hooks s))
  ∧ (∀ s j,
      AIC.recordingIntervalRef (AIC.refs s) = Some j →
      AIC.step (AIC.Tick j) (AIC.unmount s) = AIC.unmount s)
  ∧ (∀ s r j,
      CFV.mediaRecorderRef (CFV.refs s) = Some r →
      CFV.isRecording (CFV.hooks s) = true →
      CFV.recordingIntervalRef (CFV.refs s) = Some j →
      CFV.step (CFV.Tick j) (CFV.stopRecording s) = CFV.stopRecording s
      ∧ CFV.recordingDuration (CFV.hooks (CFV.stopRecording s))
        = CFV.recordingDuration (CFV.hooks s))
  ∧ (∀ s j,
      CFV.recordingIntervalRef (CFV.refs s) = Some j →
      CFV.step (CFV.Tick j) (CFV.unmount s) = CFV.unmount s).
Proof.
  split; [|split; [|split]].
  - intros [m i [ir ab rt ip ct du sd] [mr ch ri ae] memo [caps ivs aus]] r j.
    simpl. intros -> -> ->.
    unfold AIC.stopRecording, AIC.stopRecording_closure. simpl.
    rewrite list_lookup_alter_eq. by destruct (ivs !! j).
  - intros [m i h [mr ch ri ae] memo [caps ivs aus]] j. simpl. intros ->.
    unfold AIC.unmount. simpl.
    destruct ae; simpl; rewrite list_lookup_alter_eq; by destruct (ivs !! j).
  - intros [p [cf il er ir ab rd ip ipr fb isb] [mr ar ri au]
              [ss ivs aus us rq cl mc]] r j.
    simpl. intros -> -> ->.
    unfold CFV.stopRecording, CFV.stopRecording_closure. simpl.
    rewrite list_lookup_alter_eq. by destruct (ivs !! j).
  - intros [p h [mr ar ri au] [ss ivs aus us rq cl mc]] j. simpl. intros ->.
    unfold CFV.unmount. simpl.
    destruct au; simpl; rewrite list_lookup_alter_eq; by destruct (ivs !! j).
Qed.

Lemma manual_stop_and_unmount_halt_the_timer_witness :
  let s := AIC.run [AIC.ClickStart granted; AIC.Tick 0; AIC.Tick 0] (AIC.mount 60 false) in
  AIC.mediaRecorderRef (AIC.refs s) = Some 0
  ∧ AIC.isRecording (AIC.hooks s) = true
  ∧ AIC.recordingIntervalRef (AIC.refs s) = Some 0
  ∧ AIC.step (AIC.Tick 0) (AIC.stopRecording s) = AIC.stopRecording s
  ∧ AIC.recordingTime (AIC.hooks (AIC.stopRecording s)) = 2%Z.
Proof.
  intros s. split; [reflexivity|]. split; [reflexivity|]. split; [reflexivity|].
  destruct (proj1 manual_stop_and_unmount_halt_the_timer s 0 0
              eq_refl eq_refl eq_refl) as [H1 H2].
  split; [exact H1 | rewrite H2; reflexivity].
Defined.

End Clock.

(** ** Discarding a recording *)

Section Discard.

Import Recording Support.

Lemma silent_from_false {Src} (l : list (Audio Src)) :
  (∀ a, audio_is_playing l a = true → False) → ∀ a, audio_is_playing l a = false.
Proof. intros H a. destruct (audio_is_playing l a) eqn:Ha; [by destruct (H a)|done]. Qed.

Lemma aic_handleReset_silent s :
  aic_playback_inv s → ∀ a, audio_is_playing (AIC.audios (AIC.env (AIC.handleReset s))) a = false.
Proof.
  intros Hinv. apply silent_from_false. intros a. unfold AIC.handleReset. simpl.
  destruct (AIC.audioElementRef (AIC.refs s)) as [a0|] eqn:Hae; simpl.
  - by apply aic_silent_after_pause.
  - by apply aic_silent_without_ref.
Qed.

Lemma aic_confirmDelete_silent s :
  aic_playback_inv s → ∀ a, audio_is_playing (AIC.audios (AIC.env (AIC.confirmDelete s))) a = false.
Proof.
  intros Hinv. apply silent_from_false. intros a. unfold AIC.confirmDelete.
  destruct (AIC.audioElementRef (AIC.refs s)) as [a0|] eqn:Hae.
  - destruct (AIC.isPlaying (AIC.hooks s)) eqn:Hip; simpl; rewrite Hae; simpl;
      rewrite playing_same_status by done.
    + by apply aic_silent_after_pause.
    + by apply aic_silent_when_idle.
  - simpl. rewrite Hae. by apply aic_silent_without_ref.
Qed.

(** X23.  Discarding on the capture surface, by "Record Again" or by a
    confirmed delete, from any state reached after mounting: the artifact
    is gone, the recording time is zero, no audio element is playing,
    submit and play then do nothing.  Neither stops a recording in
    progress.  "Record Again" drops the audio element; the confirmed
    delete keeps it. *)
Theorem capture_discard_is_silent_and_empty (evs : list AIC.Event) (N : Z) (b : bool) :
  let s := AIC.run evs (AIC.mount N b) in
  (∀ s', s' = AIC.handleReset s ∨ s' = AIC.confirmDelete s →
     AIC.audioBlob (AIC.hooks s') = None
     ∧ AIC.recordingTime (AIC.hooks s') = 0%Z
     ∧ AIC.handleSubmit s' = None
     ∧ (∀ a, audio_is_playing (AIC.audios (AIC.env s')) a = false)
     ∧ AIC.playAudio s' = s'
     ∧ AIC.isRecording (AIC.hooks s') = AIC.isRecording (AIC.hooks s)
     ∧ AIC.captures (AIC.env s') = AIC.captures (AIC.env s)
     ∧ AIC.intervals (AIC.env s') = AIC.intervals (AIC.env s))
  ∧ AIC.audioElementRef (AIC.refs (AIC.handleReset s)) = None
  ∧ AIC.audioElementRef (AIC.refs (AIC.confirmDelete s))
    = AIC.audioElementRef (AIC.refs s).
Proof.
  intros s. pose proof (aic_run_inv evs N b) as Hinv. fold s in Hinv.
  split; [|split].
  - intros s' [-> | ->].
    + split; [|split; [|split; [|split; [|split; [|split; [|split]]]]]];
        try apply (aic_handleReset_silent s Hinv);
        unfold AIC.handleSubmit, AIC.playAudio, AIC.handleReset; simpl;
        by destruct (AIC.audioElementRef (AIC.refs s)).
    + split; [|split; [|split; [|split; [|split; [|split; [|split]]]]]];
        try apply (aic_confirmDelete_silent s Hinv);
        unfold AIC.handleSubmit, AIC.playAudio, AIC.confirmDelete;
        destruct (AIC.audioElementRef (AIC.refs s)) eqn:Hae;
        try destruct (AIC.isPlaying (AIC.hooks s)); simpl; rewrite ?Hae; simpl; try done.
  - unfold AIC.handleReset. simpl.
    destruct (AIC.audioElementRef (AIC.refs s)) eqn:Hae; simpl; rewrite ?Hae; done.
  - unfold AIC.confirmDelete.
    destruct (AIC.audioElementRef (AIC.refs s)) eqn:Hae;
      try destruct (AIC.isPlaying (AIC.hooks s)); simpl; rewrite ?Hae; simpl; done.
Qed.

Lemma cfv_deleteRecording_silent s :
  cfv_playback_inv s →
  ∀ a, audio_is_playing (CFV.audios (CFV.env (CFV.deleteRecording s))) a = false.
Proof.
  intros Hinv. apply silent_from_false. intros a. unfold CFV.deleteRecording.
  destruct (CFV.audioUrlRef (CFV.refs s)) eqn:Hu; simpl; rewrite ?Hu; simpl;
    (destruct (CFV.audioRef (CFV.refs s)) as [a0|] eqn:Har; simpl;
     [ intros [Ha Hne]%playing_pause; apply Hinv in Ha; congruence
     | intros Ha; apply Hinv in Ha; congruence ]).
Qed.

(** X24.  "Record Again" on the feedback viewer, from any state reached
    after mounting: the artifact, the duration, the feedback and the
    submitted flag are reset, both the URL and the audio element are
    dropped, no audio element is playing, and play, pause and submit then
    do nothing.  It does not stop a recording in progress. *)
Theorem viewer_record_again_is_silent_and_empty (evs : list CFV.Event) (p : CFV.Props) :
  let s := CFV.run evs (CFV.mount p) in
  let s' := CFV.deleteRecording s in
  CFV.audioBlob (CFV.hooks s') = None
  ∧ CFV.recordingDuration (CFV.hooks s') = 0%Z
  ∧ CFV.feedback (CFV.hooks s') = None
  ∧ CFV.isSubmitted (CFV.hooks s') = false
  ∧ CFV.isPlaying (CFV.hooks s') = false
  ∧ CFV.audioUrlRef (CFV.refs s') = None
  ∧ CFV.audioRef (CFV.refs s') = None
  ∧ (∀ a, audio_is_playing (CFV.audios (CFV.env s')) a = false)
  ∧ CFV.playAudio s' = s'
  ∧ CFV.pauseAudio s' = s'
  ∧ CFV.submitRecording s' = s'
  ∧ CFV.isRecording (CFV.hooks s') = CFV.isRecording (CFV.hooks s)
  ∧ CFV.sessions (CFV.env s') = CFV.sessions (CFV.env s)
  ∧ CFV.intervals (CFV.env s') = CFV.intervals (CFV.env s).
Proof.
  intros s s'. pose proof (cfv_run_inv evs p) as Hinv. fold s in Hinv.
  assert (Hsil := cfv_deleteRecording_silent s Hinv). fold s' in Hsil.
  repeat apply conj; try exact Hsil;
    unfold s', CFV.playAudio, CFV.pauseAudio, CFV.submitRecording, CFV.deleteRecording;
    destruct (CFV.audioUrlRef (CFV.refs s)) eqn:Hu; simpl; rewrite ?Hu; simpl;
    destruct (CFV.audioRef (CFV.refs s)) eqn:Har; simpl; rewrite ?Hu, ?Har; done.
Qed.

End Discard.
